(** * Transit and aspect pipeline of the astrology package

    A shallow embedding of [astrology/houses.py] and
    [astrology/transits.py], and the properties of the aspect matcher, the
    coarse-to-fine exact-aspect solver, the Julian Day facade and the house
    batch pipeline.

    Conventions of the embedding.
    - Python floats are idealised as rationals ([Q]): rounding, infinities
      other than the solver's initial [float('inf')], and NaN are not
      modelled.  Orders and bounds on computed numbers are those of [Q]
      ([<=], [<], [==]).
    - A Python call either returns or raises: [outcome].
    - A [dict] is an association list in insertion order; where a property
      depends on keys being unique (as they are in a dict) this is a
      hypothesis [NoDup (keys d)].
    - The Swiss Ephemeris binding ([swe.julday], [swe.calc_ut],
      [swe.set_topo], [swe.houses]) is the external Provider: section
      variables, each call of which may raise. *)

From Stdlib Require Import ZArith QArith Qabs Qround List String Ascii DecimalString Bool Lia Lqa.
Import ListNotations.

Local Open Scope Z_scope.

(** ** Outcomes of Python calls *)

Inductive exn : Type :=
| KeyError
| IndexError
| OverflowError
| InvalidDate
| EphemerisError.

Inductive outcome (A : Type) : Type :=
| Ret (a : A)
| Raise (e : exn).

Arguments Ret {A} a.
Arguments Raise {A} e.

Definition bind {A B : Type} (m : outcome A) (k : A -> outcome B) : outcome B :=
  match m with
  | Ret a => k a
  | Raise e => Raise e
  end.

Declare Scope outcome_scope.
Delimit Scope outcome_scope with outcome.
Notation "x <- m ;; k" := (bind m (fun x => k))
  (at level 61, m at next level, right associativity) : outcome_scope.
Notation "' p <- m ;; k" := (bind m (fun x => match x with p => k end))
  (at level 61, p pattern, m at next level, right associativity) : outcome_scope.

(** ** Numbers *)

Definition Qlt_bool (x y : Q) : bool := negb (Qle_bool y x).

(** [int(x)] on a float: truncation toward zero. *)
Definition py_int (x : Q) : Z := Z.quot (Qnum x) (Zpos (Qden x)).

(** [x % m] on floats, for a positive [m]: the result has the sign of [m]. *)
Definition py_mod (x m : Q) : Q := (x - m * inject_Z (Qfloor (x / m)))%Q.

(** [min(a, b)]: the first argument unless the second is strictly smaller. *)
Definition py_min (a b : Q) : Q := if Qlt_bool b a then b else a.

(** The solver's running minimum starts at [float('inf')]. *)
Inductive ext_float : Type :=
| Finite (q : Q)
| PosInf.

Definition lt_ext (x : Q) (b : ext_float) : bool :=
  match b with
  | Finite q => Qlt_bool x q
  | PosInf => true
  end.

(** ** Dictionaries, lists and tuples *)

Definition dict (V : Type) : Type := list (string * V).

Definition keys {V : Type} (d : dict V) : list string := map fst d.

Fixpoint dict_find {V : Type} (d : dict V) (k : string) : option V :=
  match d with
  | [] => None
  | (k', v) :: rest => if String.eqb k' k then Some v else dict_find rest k
  end.

(** [d[k]] *)
Definition dict_get {V : Type} (d : dict V) (k : string) : outcome V :=
  match dict_find d k with
  | Some v => Ret v
  | None => Raise KeyError
  end.

(** [d[k] = v]: an existing key keeps its place, a new key goes last. *)
Fixpoint dict_set {V : Type} (d : dict V) (k : string) (v : V) : dict V :=
  match d with
  | [] => [(k, v)]
  | (k', v') :: rest =>
      if String.eqb k' k then (k', v) :: rest else (k', v') :: dict_set rest k v
  end.

(** [l[i]] on a list or tuple: negative indices count from the end. *)
Definition seq_get {A : Type} (l : list A) (i : Z) : outcome A :=
  let n := Z.of_nat (List.length l) in
  let j := if i <? 0 then i + n else i in
  if (0 <=? j) && (j <? n)
  then match nth_error l (Z.to_nat j) with
       | Some a => Ret a
       | None => Raise IndexError
       end
  else Raise IndexError.

(** ** [datetime] and [timedelta]

    A naive [datetime] is a count of microseconds since
    0001-01-01T00:00:00; the representable values are
    [0 <= t < datetime_limit] (up to 9999-12-31T23:59:59.999999).
    A [timedelta] is a count of microseconds. *)

Definition datetime : Type := Z.
Definition timedelta : Type := Z.

Definition usec_per_second : Z := 1000000.
Definition usec_per_minute : Z := 60 * usec_per_second.
Definition usec_per_hour : Z := 60 * usec_per_minute.
Definition usec_per_day : Z := 24 * usec_per_hour.

(** The ordinal of 9999-12-31 is 3652059. *)
Definition max_ordinal : Z := 3652059.
Definition datetime_limit : Z := max_ordinal * usec_per_day.

Definition valid_datetime (t : datetime) : Prop := 0 <= t < datetime_limit.

Definition td_hours (h : Z) : timedelta := h * usec_per_hour.
Definition td_minutes (m : Z) : timedelta := m * usec_per_minute.

(** [t + d] and [t - d]: [OverflowError] outside the representable range. *)
Definition dt_add (t : datetime) (d : timedelta) : outcome datetime :=
  let r := t + d in
  if (0 <=? r) && (r <? datetime_limit) then Ret r else Raise OverflowError.

Definition dt_sub (t : datetime) (d : timedelta) : outcome datetime :=
  dt_add t (- d).

(** Calendar fields.  [ord2ymd] is the proleptic Gregorian conversion of an
    ordinal (day 1 is 0001-01-01) to year, month and day. *)

Definition days_before_month (m : Z) : Z :=
  nth (Z.to_nat m) [0; 0; 31; 59; 90; 120; 151; 181; 212; 243; 273; 304; 334] 0.

Definition days_in_month_common (m : Z) : Z :=
  nth (Z.to_nat m) [0; 31; 28; 31; 30; 31; 30; 31; 31; 30; 31; 30; 31] 0.

Definition is_leap (y : Z) : bool :=
  (y mod 4 =? 0) && (negb (y mod 100 =? 0) || (y mod 400 =? 0)).

Definition ord2ymd (ordinal : Z) : Z * Z * Z :=
  let n := ordinal - 1 in
  let n400 := n / 146097 in
  let n := n mod 146097 in
  let n100 := n / 36524 in
  let n := n mod 36524 in
  let n4 := n / 1461 in
  let n := n mod 1461 in
  let n1 := n / 365 in
  let n := n mod 365 in
  let year := n400 * 400 + 1 + n100 * 100 + n4 * 4 + n1 in
  if (n1 =? 4) || (n100 =? 4) then (year - 1, 12, 31)
  else
    let leapyear := (n1 =? 3) && (negb (n4 =? 24) || (n100 =? 3)) in
    let month := Z.shiftr (n + 50) 5 in
    let preceding :=
      days_before_month month + (if (2 <? month) && leapyear then 1 else 0) in
    if n <? preceding
    then
      let month' := month - 1 in
      let preceding' :=
        preceding - (days_in_month_common month'
                     + (if (month' =? 2) && leapyear then 1 else 0)) in
      (year, month', n - preceding' + 1)
    else (year, month, n - preceding + 1).

Definition dt_minutes (t : datetime) : Z := t / usec_per_minute.

Definition dt_ordinal (t : datetime) : Z := dt_minutes t / (24 * 60) + 1.

Definition dt_year (t : datetime) : Z := fst (fst (ord2ymd (dt_ordinal t))).
Definition dt_month (t : datetime) : Z := snd (fst (ord2ymd (dt_ordinal t))).
Definition dt_day (t : datetime) : Z := snd (ord2ymd (dt_ordinal t)).
Definition dt_hour (t : datetime) : Z := (dt_minutes t / 60) mod 24.
Definition dt_minute (t : datetime) : Z := dt_minutes t mod 60.
Definition dt_second (t : datetime) : Z := (t / usec_per_second) mod 60.
Definition dt_microsecond (t : datetime) : Z := t mod usec_per_second.

(** [datetime(y, m, d, hh, mm, ss, us)] for in-range components. *)
Definition days_before_year (y : Z) : Z :=
  let p := y - 1 in p * 365 + p / 4 - p / 100 + p / 400.

Definition ymd2ord (y m d : Z) : Z :=
  days_before_year y + days_before_month m
  + (if (2 <? m) && is_leap y then 1 else 0) + d.

Definition mk_datetime (y m d hh mm ss us : Z) : datetime :=
  (ymd2ord y m d - 1) * usec_per_day
  + hh * usec_per_hour + mm * usec_per_minute + ss * usec_per_second + us.

(** [t.replace(second=ss, microsecond=us)] *)
Definition dt_replace_seconds (t : datetime) (ss us : Z) : datetime :=
  dt_minutes t * usec_per_minute + ss * usec_per_second + us.

(** ** Records of the pipeline *)

(** A position: the dictionary built by [calculate_planetary_positions].
    Natal dictionaries supplied by callers may lack ['julian_day']
    ([pos.get('julian_day')] is then [None]). *)
Record position : Type := mk_position {
  longitude : Q;
  latitude : Q;
  distance : Q;
  longitude_speed : Q;
  latitude_speed : Q;
  distance_speed : Q;
  julian_day : option Q
}.

(** The dictionary returned by [calculate_ascendant_and_houses]; the batch
    pipeline stores a dictionary of the same three keys. *)
Record house_data : Type := mk_house_data {
  ascendant : Q;
  house_cusps : dict Q;
  angles : dict Q
}.

(** Process-wide state touched by the house pipeline: the Provider's
    topocentric location and the standard output. *)
Record world : Type := mk_world {
  topo : option (Q * Q * Q);
  stdout : list string
}.

Definition io (A : Type) : Type := world -> outcome A * world.

(** [swe.set_topo(lat, lon, alt)] *)
Definition set_topo (lat lon alt : Q) (w : world) : world :=
  {| topo := Some (lat, lon, alt); stdout := stdout w |}.

(** [print(line)] *)
Definition print (line : string) (w : world) : world :=
  {| topo := topo w; stdout := stdout w ++ [line] |}.

(** Body codes of the Swiss Ephemeris. *)
Definition swe_SUN : Z := 0.
Definition swe_MOON : Z := 1.
Definition swe_MERCURY : Z := 2.
Definition swe_VENUS : Z := 3.
Definition swe_MARS : Z := 4.
Definition swe_JUPITER : Z := 5.
Definition swe_SATURN : Z := 6.
Definition swe_URANUS : Z := 7.
Definition swe_NEPTUNE : Z := 8.
Definition swe_PLUTO : Z := 9.

Definition PLANETS : dict Z :=
  [ ("Sun", swe_SUN); ("Moon", swe_MOON); ("Mercury", swe_MERCURY);
    ("Venus", swe_VENUS); ("Mars", swe_MARS); ("Jupiter", swe_JUPITER);
    ("Saturn", swe_SATURN); ("Uranus", swe_URANUS); ("Neptune", swe_NEPTUNE);
    ("Pluto", swe_PLUTO) ]%string.

(** ** houses.py *)

Definition signs : list string :=
  [ "Aries"; "Taurus"; "Gemini"; "Cancer";
    "Leo"; "Virgo"; "Libra"; "Scorpio";
    "Sagittarius"; "Capricorn"; "Aquarius"; "Pisces" ]%string.

Definition get_zodiac_sign (degree : Q) : outcome (string * Q) :=
  let sign_num := py_int (degree / 30) in
  let degree_in_sign := py_mod degree 30 in
  (sign <- seq_get signs sign_num ;;
   Ret (sign, degree_in_sign))%outcome.

Definition no_julian_day_warning (name : string) : string :=
  ("Warning: No Julian day found for " ++ name ++ ", skipping...")%string.

Section Provider.

(** [swe.julday(year, month, day, hour)] *)
Variable julday : Z -> Z -> Z -> Q -> outcome Q.
(** [swe.calc_ut(jd, body)[0]]: longitude, latitude, distance and their
    speeds. *)
Variable calc_ut : Q -> Z -> outcome (Q * Q * Q * Q * Q * Q).
(** [swe.houses(jd, lat, lon, hsys)]: the cusps and the angles. *)
Variable houses : Q -> Q -> Q -> string -> outcome (list Q * list Q).

Definition compute_julian_day (birth_datetime : datetime) (timezone : Q)
  : outcome Q :=
  let utc_hour := (inject_Z (dt_hour birth_datetime) - timezone)%Q in
  julday (dt_year birth_datetime)
         (dt_month birth_datetime)
         (dt_day birth_datetime)
         (utc_hour + inject_Z (dt_minute birth_datetime) / 60)%Q.

(** The loop [for name, code in PLANETS.items()] with its accumulator
    [positions]. *)
Fixpoint positions_loop (julian_day : Q) (planets : dict Z)
    (positions : dict position) : outcome (dict position) :=
  match planets with
  | [] => Ret positions
  | (name, code) :: rest =>
      ('(lon, lat, dist, lon_speed, lat_speed, dist_speed)
         <- calc_ut julian_day code ;;
       positions_loop julian_day rest
         (dict_set positions name
            {| longitude := lon;
               latitude := lat;
               distance := dist;
               longitude_speed := lon_speed;
               latitude_speed := lat_speed;
               distance_speed := dist_speed;
               julian_day := Some julian_day |}))%outcome
  end.

Definition calculate_planetary_positions (julian_day : Q)
  : outcome (dict position) :=
  positions_loop julian_day PLANETS [].

Definition calculate_ascendant_and_houses
    (julian_day latitude longitude : Q) (house_system : string)
  : io house_data :=
  fun w =>
    let w := set_topo latitude longitude 0 w in
    ((' (cusps, ascmc) <- houses julian_day latitude longitude house_system ;;
      ascendant <- seq_get cusps 0 ;;
      c1 <- seq_get cusps 0 ;;
      c2 <- seq_get cusps 1 ;;
      c3 <- seq_get cusps 2 ;;
      c4 <- seq_get cusps 3 ;;
      c5 <- seq_get cusps 4 ;;
      c6 <- seq_get cusps 5 ;;
      c7 <- seq_get cusps 6 ;;
      c8 <- seq_get cusps 7 ;;
      c9 <- seq_get cusps 8 ;;
      c10 <- seq_get cusps 9 ;;
      c11 <- seq_get cusps 10 ;;
      c12 <- seq_get cusps 11 ;;
      a0 <- seq_get ascmc 0 ;;
      a1 <- seq_get ascmc 1 ;;
      a2 <- seq_get ascmc 2 ;;
      a3 <- seq_get ascmc 3 ;;
      Ret {| ascendant := ascendant;
             house_cusps :=
               [ ("house_1", c1); ("house_2", c2); ("house_3", c3);
                 ("house_4", c4); ("house_5", c5); ("house_6", c6);
                 ("house_7", c7); ("house_8", c8); ("house_9", c9);
                 ("house_10", c10); ("house_11", c11);
                 ("house_12", c12) ]%string;
             angles :=
               [ ("ascendant", a0); ("midheaven", a1);
                 ("armc", a2); ("vertex", a3) ]%string |})%outcome,
     w).

(** The loop [for name, pos in positions.items()] with its accumulator
    [results]. *)
Fixpoint houses_loop (items : dict position) (latitude longitude : Q)
    (house_system : string) (results : dict house_data)
  : io (dict house_data) :=
  fun w =>
    match items with
    | [] => (Ret results, w)
    | (name, pos) :: rest =>
        match julian_day pos with
        | None =>
            houses_loop rest latitude longitude house_system results
              (print (no_julian_day_warning name) w)
        | Some jd =>
            match calculate_ascendant_and_houses
                    jd latitude longitude house_system w with
            | (Raise e, w') => (Raise e, w')
            | (Ret hd, w') =>
                houses_loop rest latitude longitude house_system
                  (dict_set results name
                     {| ascendant := ascendant hd;
                        house_cusps := house_cusps hd;
                        angles := angles hd |})
                  w'
            end
        end
    end.

Definition calculate_houses_for_positions (positions : dict position)
    (latitude longitude : Q) (house_system : string)
  : io (dict house_data) :=
  houses_loop positions latitude longitude house_system [].

End Provider.

(** ** transits.py *)

Record aspect_data : Type := mk_aspect {
  angle : Z;
  orb : Z
}.

Definition ASPECTS : dict aspect_data :=
  [ ("conjunction", {| angle := 0; orb := 8 |});
    ("opposition", {| angle := 180; orb := 8 |});
    ("trine", {| angle := 120; orb := 8 |});
    ("square", {| angle := 90; orb := 8 |});
    ("sextile", {| angle := 60; orb := 6 |});
    ("quincunx", {| angle := 150; orb := 3 |});
    ("semisextile", {| angle := 30; orb := 3 |});
    ("semisquare", {| angle := 45; orb := 2 |});
    ("sesquisquare", {| angle := 135; orb := 2 |}) ]%string.

Definition calculate_aspect_orb (angle1 angle2 aspect_angle : Q) : Q :=
  let diff := Qabs (angle1 - angle2) in
  let orb := py_min diff (360 - diff) in
  Qabs (orb - aspect_angle).

Definition is_retrograde (planet_data : position) : bool :=
  Qlt_bool (longitude_speed planet_data) 0.

(** One element of the list returned by [find_aspects]. *)
Record aspect_match : Type := mk_match {
  m_planet1 : string;
  m_planet2 : string;
  m_aspect : string;
  m_orb : Q;
  m_exact_angle : Z;
  m_planet1_retrograde : bool;
  m_planet2_retrograde : bool
}.

(** The body of the innermost loop of [find_aspects]: what one
    (planet1, planet2, aspect) triple appends to [aspects]. *)
Definition aspect_step (max_orb : option Q)
    (planet1 : string) (pos1 : position)
    (planet2 : string) (pos2 : position)
    (aspect_name : string) (data : aspect_data) : list aspect_match :=
  let orb_ :=
    calculate_aspect_orb (longitude pos1) (longitude pos2)
                         (inject_Z (angle data)) in
  if match max_orb with
     | Some m => Qlt_bool m orb_
     | None => false
     end
  then []
  else if Qle_bool orb_ (inject_Z (orb data))
       then [ {| m_planet1 := planet1;
                 m_planet2 := planet2;
                 m_aspect := aspect_name;
                 m_orb := orb_;
                 m_exact_angle := angle data;
                 m_planet1_retrograde := is_retrograde pos1;
                 m_planet2_retrograde := is_retrograde pos2 |} ]
       else [].

(** The three nested [for] loops, each appending to [aspects] in turn. *)
Definition find_aspects (positions1 positions2 : dict position)
    (max_orb : option Q) : list aspect_match :=
  flat_map (fun '(planet1, pos1) =>
    flat_map (fun '(planet2, pos2) =>
      flat_map (fun '(aspect_name, data) =>
        aspect_step max_orb planet1 pos1 planet2 pos2 aspect_name data)
        ASPECTS)
      positions2)
    positions1.

Section Solver.

Variable julday : Z -> Z -> Z -> Q -> outcome Q.
Variable calc_ut : Q -> Z -> outcome (Q * Q * Q * Q * Q * Q).

Variable natal_positions : dict position.
Variable end_time : datetime.
Variables planet1 planet2 : string.
Variable aspect : aspect_data.
Variable timezone : Q.

(** The statements both loops run at a probe time: the Julian Day, the
    transiting positions, and the orb against the natal longitude. *)
Definition orb_at (t : datetime) : outcome Q :=
  (jd <- compute_julian_day julday t timezone ;;
   transit_positions <- calculate_planetary_positions calc_ut jd ;;
   p1 <- dict_get natal_positions planet1 ;;
   p2 <- dict_get transit_positions planet2 ;;
   Ret (calculate_aspect_orb (longitude p1) (longitude p2)
                             (inject_Z (angle aspect))))%outcome.

(** [while fine_start <= fine_end]; [None] when the fuel runs out. *)
Fixpoint fine_loop (fuel : nat) (fine_start fine_end : datetime)
    (best_time : option datetime) (best_orb : ext_float)
  : option (outcome (option datetime)) :=
  match fuel with
  | O => None
  | S fuel' =>
      if fine_start <=? fine_end
      then
        match orb_at fine_start with
        | Raise e => Some (Raise e)
        | Ret orb_ =>
            let '(best_orb', best_time') :=
              if lt_ext orb_ best_orb
              then (Finite orb_, Some fine_start)
              else (best_orb, best_time) in
            match dt_add fine_start (td_minutes 1) with
            | Raise e => Some (Raise e)
            | Ret next => fine_loop fuel' next fine_end best_time' best_orb'
            end
        end
      else Some (Ret best_time)
  end.

Definition loop_fuel (from to : datetime) (step : timedelta) : nat :=
  S (Z.to_nat ((to - from) / step + 1)).

(** The branch [if orb < 0.1:] taken at [current_time]. *)
Definition fine_phase (current_time : datetime)
  : option (outcome (option datetime)) :=
  match dt_sub current_time (td_hours 1) with
  | Raise e => Some (Raise e)
  | Ret fine_start =>
      match dt_add current_time (td_hours 1) with
      | Raise e => Some (Raise e)
      | Ret fine_end =>
          fine_loop (loop_fuel fine_start fine_end (td_minutes 1))
                    fine_start fine_end None PosInf
      end
  end.

(** [while current_time <= end_time]; [None] when the fuel runs out. *)
Fixpoint coarse_loop (fuel : nat) (current_time : datetime)
  : option (outcome (option datetime)) :=
  match fuel with
  | O => None
  | S fuel' =>
      if current_time <=? end_time
      then
        match orb_at current_time with
        | Raise e => Some (Raise e)
        | Ret orb_ =>
            if Qlt_bool orb_ (1 # 10)
            then fine_phase current_time
            else
              match dt_add current_time (td_hours 1) with
              | Raise e => Some (Raise e)
              | Ret next => coarse_loop fuel' next
              end
        end
      else Some (Ret None)
  end.

End Solver.

Definition find_exact_aspect_time
    (julday : Z -> Z -> Z -> Q -> outcome Q)
    (calc_ut : Q -> Z -> outcome (Q * Q * Q * Q * Q * Q))
    (natal_positions : dict position)
    (start_time end_time : datetime)
    (planet1 planet2 aspect_name : string)
    (timezone : Q) : option (outcome (option datetime)) :=
  match dict_get ASPECTS aspect_name with
  | Raise e => Some (Raise e)
  | Ret aspect_data =>
      coarse_loop julday calc_ut natal_positions end_time
                  planet1 planet2 aspect_data timezone
                  (loop_fuel start_time end_time (td_hours 1))
                  start_time
  end.

(** ** Formatting and printing (houses.py) *)

(** [str(n)] for an int. *)
Definition py_str_int (n : Z) : string := NilZero.string_of_int (Z.to_int n).

Definition chr (code : nat) : string := String (ascii_of_nat code) EmptyString.

Definition newline : string := chr 10.
Definition double_quote : string := chr 34.
(** The degree sign, in UTF-8. *)
Definition degree_sign : string := (chr 194 ++ chr 176)%string.

(** The three locals [degrees], [minutes] and [seconds] of
    [format_degree]. *)
Definition degree_parts (degree : Q) : Z * Z * Z :=
  let degrees := py_int degree in
  let minutes := py_int ((degree - inject_Z degrees) * 60) in
  let seconds :=
    py_int (((degree - inject_Z degrees) * 60 - inject_Z minutes) * 60) in
  (degrees, minutes, seconds).

Definition format_degree (degree : Q) : string :=
  let '(degrees, minutes, seconds) := degree_parts degree in
  (py_str_int degrees ++ degree_sign ++ py_str_int minutes ++ "'"
   ++ py_str_int seconds ++ double_quote)%string.

(** Sequencing of calls that print or touch the Provider's state. *)
Definition io_ret {A : Type} (a : A) : io A := fun w => (Ret a, w).

Definition io_bind {A B : Type} (m : io A) (k : A -> io B) : io B :=
  fun w =>
    match m w with
    | (Ret a, w') => k a w'
    | (Raise e, w') => (Raise e, w')
    end.

Definition io_lift {A : Type} (o : outcome A) : io A := fun w => (o, w).

Definition io_print (line : string) : io unit := fun w => (Ret tt, print line w).

Declare Scope io_scope.
Delimit Scope io_scope with io.
Notation "x <- m ;; k" := (io_bind m (fun x => k))
  (at level 61, m at next level, right associativity) : io_scope.
Notation "' p <- m ;; k" := (io_bind m (fun x => match x with p => k end))
  (at level 61, p pattern, m at next level, right associativity) : io_scope.
Notation "m ;; k" := (io_bind m (fun _ => k))
  (at level 61, right associativity) : io_scope.

(** The statements [sign, degree = get_zodiac_sign(value)] and
    [print(f"{label}: {format_degree(value)} ({sign} {format_degree(degree)})")]
    that [print_houses_for_positions] runs for the ascendant, for each cusp
    and for each angle. *)
Definition print_position_line (label : string) (value : Q) : io unit :=
  ('(sign, degree) <- io_lift (get_zodiac_sign value) ;;
   io_print (label ++ ": " ++ format_degree value
             ++ " (" ++ sign ++ " " ++ format_degree degree ++ ")")%string)%io.

(** The loops over [data['house_cusps'].items()] and
    [data['angles'].items()]. *)
Fixpoint print_position_lines (items : dict Q) : io unit :=
  match items with
  | [] => io_ret tt
  | (label, value) :: rest =>
      (print_position_line label value ;; print_position_lines rest)%io
  end.

Fixpoint print_houses_for_positions (results : dict house_data) : io unit :=
  match results with
  | [] => io_ret tt
  | (name, data) :: rest =>
      (io_print (newline ++ "=== Houses for " ++ name ++ " ===")%string ;;
       print_position_line "Ascendant" (ascendant data) ;;
       io_print (newline ++ "House Cusps:")%string ;;
       print_position_lines (house_cusps data) ;;
       io_print (newline ++ "Angles:")%string ;;
       print_position_lines (angles data) ;;
       print_houses_for_positions rest)%io
  end.

(** ** [calculate_transits] (transits.py) *)

Record transit_data : Type := mk_transit_data {
  date : datetime;
  transit_positions : dict position;
  aspects : list aspect_match
}.

Definition calculate_transits
    (julday : Z -> Z -> Z -> Q -> outcome Q)
    (calc_ut : Q -> Z -> outcome (Q * Q * Q * Q * Q * Q))
    (natal_positions : dict position) (transit_date : datetime)
    (timezone : Q) : outcome transit_data :=
  (jd <- compute_julian_day julday transit_date timezone ;;
   transit_positions <- calculate_planetary_positions calc_ut jd ;;
   let aspects := find_aspects natal_positions transit_positions None in
   Ret {| date := transit_date;
          transit_positions := transit_positions;
          aspects := aspects |})%outcome.

(** ** chart.py *)

(** What [self.geolocator.geocode(location_name)] does: a location, no
    location, the [GeocoderTimedOut] exception that [get_coordinates]
    catches, or another exception. *)
Inductive geocode_result : Type :=
| Located (latitude longitude : Q)
| NoLocation
| GeocoderTimedOut
| GeocodeRaises (e : exn).

Record chart_location : Type := mk_chart_location {
  loc_name : string;
  loc_latitude : Q;
  loc_longitude : Q
}.

Record chart_time : Type := mk_chart_time {
  time_datetime : datetime;
  time_timezone : Q;
  time_julian_day : Q
}.

Record chart : Type := mk_chart {
  chart_location_of : chart_location;
  chart_time_of : chart_time;
  chart_houses : house_data;
  chart_planets : dict position
}.

Module LocationGeocoder.

Definition get_coordinates (geocode : string -> geocode_result)
    (location_name : string) : io (option Q * option Q) :=
  match geocode location_name with
  | Located latitude longitude => io_ret (Some latitude, Some longitude)
  | NoLocation =>
      (io_print ("Location '" ++ location_name ++ "' not found")%string ;;
       io_ret (None, None))%io
  | GeocoderTimedOut =>
      (io_print "Geocoding service timed out. Please try again." ;;
       io_ret (None, None))%io
  | GeocodeRaises e => io_lift (Raise e)
  end.

End LocationGeocoder.

Module AstrologicalChart.

Definition calculate
    (geocode : string -> geocode_result)
    (julday : Z -> Z -> Z -> Q -> outcome Q)
    (calc_ut : Q -> Z -> outcome (Q * Q * Q * Q * Q * Q))
    (houses : Q -> Q -> Q -> string -> outcome (list Q * list Q))
    (location_name : string) (birth_datetime : datetime) (timezone : Q)
  : io (option chart) :=
  (coordinates <- LocationGeocoder.get_coordinates geocode location_name ;;
   match coordinates with
   | (Some latitude, Some longitude) =>
       julian_day <- io_lift (compute_julian_day julday birth_datetime timezone) ;;
       houses_ <- calculate_ascendant_and_houses
                    houses julian_day latitude longitude "P" ;;
       planets <- io_lift (calculate_planetary_positions calc_ut julian_day) ;;
       io_ret (Some {| chart_location_of :=
                         {| loc_name := location_name;
                            loc_latitude := latitude;
                            loc_longitude := longitude |};
                       chart_time_of :=
                         {| time_datetime := birth_datetime;
                            time_timezone := timezone;
                            time_julian_day := julian_day |};
                       chart_houses := houses_;
                       chart_planets := planets |})
   | _ => io_ret None
   end)%io.

End AstrologicalChart.

(** ** A concrete Provider for examples

    [julday_gregorian] is the usual civil-to-Julian-Day formula for the
    Gregorian calendar; [linear_calc_ut] moves every body at a constant
    rate of 12 degrees per day from longitude 0 at 2000-01-01T00:00;
    [flat_houses] spaces the twelve cusps 30 degrees apart. *)

Definition julday_gregorian (year month day : Z) (hour : Q) : outcome Q :=
  let u := if month <? 3 then year - 1 else year in
  let u0 := u + 4712 in
  let u1 := if month + 1 <? 4 then month + 1 + 12 else month + 1 in
  let jd :=
    (inject_Z (Qfloor (inject_Z u0 * (1461 # 4)))
     + inject_Z (Qfloor ((153 # 5) * inject_Z u1 + (1 # 1000000)))
     + inject_Z day + hour / 24 - (127 # 2))%Q in
  let u2 := Z.abs u / 100 - Z.abs u / 400 in
  let u2 := if u <? 0 then - u2 else u2 in
  let jd := (jd - inject_Z u2 + 2)%Q in
  Ret (if (u <? 0) && (u mod 100 =? 0) && negb (u mod 400 =? 0)
       then (jd - 1)%Q else jd).

Definition linear_calc_ut (jd : Q) (body : Z) : outcome (Q * Q * Q * Q * Q * Q) :=
  Ret (Qred (py_mod (12 * (jd - (4903089 # 2))) 360), 0, 1, 12, 0, 0)%Q.

(** Every body stands still at longitude 1/20. *)
Definition still_calc_ut (jd : Q) (body : Z) : outcome (Q * Q * Q * Q * Q * Q) :=
  Ret (1 # 20, 0, 1, 0, 0, 0)%Q.

Definition flat_houses (jd lat lon : Q) (hsys : string)
  : outcome (list Q * list Q) :=
  Ret (map (fun k => Qred (jd + inject_Z (Z.of_nat k) * 30)) (seq 0 12),
       [Qred jd; Qred (jd + 270); Qred (jd + 180); Qred (jd + 90)])%Q.

(** * Vocabulary of the properties *)

(** ** Sign decomposition and Julian Day *)

(** The reading of the sign decomposition that indexes the catalog with
    [floor(longitude / 30) mod 12]. *)
Definition sign_of_floor_mod (L : Q) : Prop :=
  exists d : Q,
    get_zodiac_sign L
    = Ret (nth (Z.to_nat (Qfloor (L / 30) mod 12)) signs ""%string, d)
    /\ (0 <= d)%Q /\ (d < 30)%Q.

(** The five attributes [compute_julian_day] reads from its argument.
    Nothing in the function checks that the object it is handed is a
    [datetime]: any object with these attributes is accepted. *)
Record civil_fields : Type := mk_civil_fields {
  civil_year : Z;
  civil_month : Z;
  civil_day : Z;
  civil_hour : Z;
  civil_minute : Z
}.

Definition fields_of (t : datetime) : civil_fields :=
  {| civil_year := dt_year t;
     civil_month := dt_month t;
     civil_day := dt_day t;
     civil_hour := dt_hour t;
     civil_minute := dt_minute t |}.

(** The body of [compute_julian_day] on the attributes it reads. *)
Definition compute_julian_day_fields
    (julday : Z -> Z -> Z -> Q -> outcome Q)
    (birth_datetime : civil_fields) (timezone : Q) : outcome Q :=
  let utc_hour := (inject_Z (civil_hour birth_datetime) - timezone)%Q in
  julday (civil_year birth_datetime)
         (civil_month birth_datetime)
         (civil_day birth_datetime)
         (utc_hour + inject_Z (civil_minute birth_datetime) / 60)%Q.

(** The calendar components a [datetime] can carry. *)
Definition calendar_in_range (c : civil_fields) : Prop :=
  1 <= civil_year c <= 9999
  /\ 1 <= civil_month c <= 12
  /\ 1 <= civil_day c <= 31
  /\ 0 <= civil_hour c <= 23
  /\ 0 <= civil_minute c <= 59.

(** The reading of the facade under which the conversion supports the
    components in [supported] and fails with [InvalidDate] on all others. *)
Definition rejects_unsupported
    (julday : Z -> Z -> Z -> Q -> outcome Q)
    (supported : civil_fields -> Prop) : Prop :=
  forall (c : civil_fields) (tz : Q),
    ~ supported c -> compute_julian_day_fields julday c tz = Raise InvalidDate.

(** The month and day of the [n]-th day (from 0) of a year, as [ord2ymd]
    computes them. *)
Definition month_day (n : Z) (leapyear : bool) : Z * Z :=
  let month := Z.shiftr (n + 50) 5 in
  let preceding :=
    days_before_month month + (if (2 <? month) && leapyear then 1 else 0) in
  if n <? preceding
  then
    let month' := month - 1 in
    let preceding' :=
      preceding - (days_in_month_common month'
                   + (if (month' =? 2) && leapyear then 1 else 0)) in
    (month', n - preceding' + 1)
  else (month, n - preceding + 1).

Definition month_day_in_range (leapyear : bool) (n : Z) : bool :=
  let '(m, d) := month_day n leapyear in
  (1 <=? m) && (m <=? 12) && (1 <=? d) && (d <=? 31).

(** ** Aspect matching *)

(** The cross product set_a x set_b x catalog, in nested order: all of the
    catalog for the first pair, then the next entry of set_b, and so on. *)
Definition triple : Type :=
  ((string * position) * (string * position) * (string * aspect_data))%type.

Definition cross_product (set_a set_b : dict position) : list triple :=
  flat_map (fun a =>
    flat_map (fun b => map (fun c => (a, b, c)) ASPECTS) set_b) set_a.

Definition triple_orb (tr : triple) : Q :=
  let '((_, pos1), (_, pos2), (_, data)) := tr in
  calculate_aspect_orb (longitude pos1) (longitude pos2) (inject_Z (angle data)).

(** [orb <= aspect.orb] and ([max_orb] absent or [orb <= max_orb]). *)
Definition qualifies (max_orb : option Q) (tr : triple) : bool :=
  let '(_, _, (_, data)) := tr in
  Qle_bool (triple_orb tr) (inject_Z (orb data))
  && match max_orb with
     | None => true
     | Some m => Qle_bool (triple_orb tr) m
     end.

Definition match_of (tr : triple) : aspect_match :=
  let '((planet1, pos1), (planet2, pos2), (aspect_name, data)) := tr in
  {| m_planet1 := planet1;
     m_planet2 := planet2;
     m_aspect := aspect_name;
     m_orb := triple_orb tr;
     m_exact_angle := angle data;
     m_planet1_retrograde := is_retrograde pos1;
     m_planet2_retrograde := is_retrograde pos2 |}.

Definition same_pair (body1 body2 : string) (m : aspect_match) : bool :=
  String.eqb (m_planet1 m) body1 && String.eqb (m_planet2 m) body2.


(** ** House batch *)

(** The entries that carry a Julian Day, and the names of those that do
    not, both in the order of the dictionary. *)
Definition entries_with_jd (positions : dict position) : list (string * Q) :=
  flat_map (fun '(name, pos) =>
              match julian_day pos with
              | Some jd => [(name, jd)]
              | None => []
              end) positions.

Definition entries_without_jd (positions : dict position) : list string :=
  flat_map (fun '(name, pos) =>
              match julian_day pos with
              | Some _ => []
              | None => [name]
              end) positions.

(** The Provider computes the houses of every entry of [items] that has a
    Julian Day: [record_at jd] is the record built from its answer. *)
Definition provider_succeeds
    (houses : Q -> Q -> Q -> string -> outcome (list Q * list Q))
    (lat lon : Q) (house_system : string) (record_at : Q -> house_data)
    (items : dict position) : Prop :=
  forall (name : string) (jd : Q),
    In (name, jd) (entries_with_jd items) ->
    forall w : world,
      fst (calculate_ascendant_and_houses houses jd lat lon house_system w)
      = Ret (record_at jd).

(** ** Exact-aspect solver *)

(** [i0] is the first index of [0..n] at which [o] is least. *)
Definition first_argmin (o : Z -> Q) (n i0 : Z) : Prop :=
  0 <= i0 <= n
  /\ (forall i, 0 <= i <= n -> (o i0 <= o i)%Q)
  /\ (forall i, 0 <= i < i0 -> (o i0 < o i)%Q).

(** What the running minimum holds when the loop is about to probe the
    sample of index [j]. *)
Definition best_so_far (fs : datetime) (o : Z -> Q) (j : Z)
    (best_time : option datetime) (best_orb : ext_float) : Prop :=
  (j = 0 /\ best_time = None /\ best_orb = PosInf)
  \/ exists b : Z,
       first_argmin o (j - 1) b
       /\ best_time = Some (fs + b * td_minutes 1)
       /\ best_orb = Finite (o b).

(** The coarse loop triggers at its sample of index [k]: the earlier
    samples have an orb of at least 0.1 degrees, this one is below. *)
Definition first_trigger
    (julday : Z -> Z -> Z -> Q -> outcome Q)
    (calc_ut : Q -> Z -> outcome (Q * Q * Q * Q * Q * Q))
    (natal : dict position) (start_time end_time : datetime)
    (planet1 planet2 : string) (aspect : aspect_data) (tz : Q)
    (k : Z) : Prop :=
  valid_datetime start_time /\ valid_datetime end_time
  /\ 0 <= k /\ start_time + k * td_hours 1 <= end_time
  /\ (forall j, 0 <= j < k ->
                exists c : Q,
                  orb_at julday calc_ut natal planet1 planet2 aspect tz
                         (start_time + j * td_hours 1) = Ret c
                  /\ (1 # 10 <= c)%Q)
  /\ (exists c : Q,
        orb_at julday calc_ut natal planet1 planet2 aspect tz
               (start_time + k * td_hours 1) = Ret c
        /\ (c < 1 # 10)%Q).

(** The 121 one-minute probes of [T - 1h, T + 1h] are representable
    datetimes, as is the step past the last one, and probe [i] has orb
    [o i]. *)
Definition fine_window
    (julday : Z -> Z -> Z -> Q -> outcome Q)
    (calc_ut : Q -> Z -> outcome (Q * Q * Q * Q * Q * Q))
    (natal : dict position) (planet1 planet2 : string)
    (aspect : aspect_data) (tz : Q)
    (T : datetime) (o : Z -> Q) : Prop :=
  0 <= T - td_hours 1
  /\ T + td_hours 1 + td_minutes 1 < datetime_limit
  /\ forall i, 0 <= i <= 120 ->
               orb_at julday calc_ut natal planet1 planet2 aspect tz
                      (T - td_hours 1 + i * td_minutes 1) = Ret (o i).

(** The orb the solver measures at the probe time [t], spelled out: with
    [jd] the Julian Day of [t] at the UTC offset [tz] and [transit] the
    positions of the ten bodies at [jd], it is the orb of
    [calculate_aspect_orb] between the longitude of [planet1] in the natal
    dictionary and the longitude of [planet2] in [transit], for the angle
    of the target aspect. *)
Definition measured_orb
    (julday : Z -> Z -> Z -> Q -> outcome Q)
    (calc_ut : Q -> Z -> outcome (Q * Q * Q * Q * Q * Q))
    (natal : dict position) (planet1 planet2 : string)
    (aspect : aspect_data) (tz : Q) (t : datetime) (c : Q) : Prop :=
  exists (jd : Q) (transit : dict position) (p1 p2 : position),
    compute_julian_day julday t tz = Ret jd
    /\ calculate_planetary_positions calc_ut jd = Ret transit
    /\ dict_find natal planet1 = Some p1
    /\ dict_find transit planet2 = Some p2
    /\ c = calculate_aspect_orb (longitude p1) (longitude p2)
                                (inject_Z (angle aspect)).

(** ** Example data *)

Definition sun_at (lon : Q) (speed : Q) : position :=
  {| longitude := lon; latitude := 0; distance := 1;
     longitude_speed := speed; latitude_speed := 0; distance_speed := 0;
     julian_day := None |}.

(** Natal Sun at 10 degrees against a transiting Sun at 190 degrees and a
    retrograde Moon at 100 degrees. *)
Definition natal_sun_10 : dict position := [("Sun", sun_at 10 1)]%string.

Definition transit_sun_moon : dict position :=
  [("Sun", sun_at 190 1); ("Moon", sun_at 100 (-1 # 1))]%string.

Definition three_entries : dict position :=
  [ ("natal",
     {| longitude := 10; latitude := 0; distance := 1; longitude_speed := 1;
        latitude_speed := 0; distance_speed := 0; julian_day := Some 1%Q |});
    ("untimed",
     {| longitude := 20; latitude := 0; distance := 1; longitude_speed := 1;
        latitude_speed := 0; distance_speed := 0; julian_day := None |});
    ("transit",
     {| longitude := 30; latitude := 0; distance := 1; longitude_speed := 1;
        latitude_speed := 0; distance_speed := 0; julian_day := Some 2%Q |})
  ]%string.

Definition flat_record_at (jd : Q) : house_data :=
  match fst (calculate_ascendant_and_houses
               flat_houses jd 0 0 "P" {| topo := None; stdout := [] |}) with
  | Ret hd => hd
  | Raise _ => {| ascendant := 0; house_cusps := []; angles := [] |}
  end.


(** A six-hour window on 2000-01-01 and a natal Sun that the linearly moving
    Moon of [linear_calc_ut] meets at 02:02, or never within the window. *)
Definition window_start : datetime := Eval cbv in mk_datetime 2000 1 1 0 0 0 0.
Definition window_end : datetime := Eval cbv in mk_datetime 2000 1 1 6 0 0 0.

Definition natal_origin : dict position := [("Sun", sun_at 0 1)]%string.
Definition natal_met : dict position := [("Sun", sun_at (61 # 60) 1)]%string.
Definition natal_missed : dict position := [("Sun", sun_at 100 1)]%string.

Definition conjunction : aspect_data := {| angle := 0; orb := 8 |}.

Definition example_orb (natal : dict position) (t : datetime) : Q :=
  match orb_at julday_gregorian linear_calc_ut natal "Sun" "Moon"
               conjunction 0 t with
  | Ret q => q
  | Raise _ => 0
  end.

(** The fine probes around the coarse sample of 02:00. *)
Definition example_probe (i : Z) : datetime :=
  window_start + 2 * td_hours 1 - td_hours 1 + i * td_minutes 1.

Definition is_ret {A : Type} (x : outcome A) : bool :=
  match x with
  | Ret _ => true
  | Raise _ => false
  end.

(** The same window seen from a place two hours east of UTC, 02:00 to 08:00
    civil time, and a natal Sun that the linear Moon squares at 04:02 civil
    time. *)
Definition east_start : datetime := Eval cbv in mk_datetime 2000 1 1 2 0 0 0.
Definition east_end : datetime := Eval cbv in mk_datetime 2000 1 1 8 0 0 0.

Definition natal_squared : dict position :=
  [("Sun", sun_at (5461 # 60) 1)]%string.

Definition square : aspect_data := {| angle := 90; orb := 8 |}.

(** The orb of the Sun-Moon square at [t], written out on the example
    Provider: the transiting Moon is at [12 * (jd - 2451544.5) mod 360]. *)
Definition square_orb (t : datetime) : Q :=
  match compute_julian_day julday_gregorian t 2 with
  | Ret jd =>
      calculate_aspect_orb (5461 # 60)
        (Qred (py_mod (12 * (jd - (4903089 # 2))) 360)) 90
  | Raise _ => 0
  end.

Definition east_probe (i : Z) : datetime :=
  east_start + 2 * td_hours 1 - td_hours 1 + i * td_minutes 1.

(** [x] returned exactly the fraction [q]. *)
Definition returns_fraction (x : outcome Q) (q : Q) : bool :=
  match x with
  | Ret r => (Qnum r =? Qnum q) && Pos.eqb (Qden r) (Qden q)
  | Raise _ => false
  end.

(** Thirteenth month of 2000, day 1, 00:00. *)
Definition thirteenth_month : civil_fields :=
  {| civil_year := 2000; civil_month := 13; civil_day := 1;
     civil_hour := 0; civil_minute := 0 |}.

(** ** Further vocabulary *)

(** The same match seen from the other side: bodies and retrograde flags
    exchanged. *)
Definition swap_match (m : aspect_match) : aspect_match :=
  {| m_planet1 := m_planet2 m;
     m_planet2 := m_planet1 m;
     m_aspect := m_aspect m;
     m_orb := m_orb m;
     m_exact_angle := m_exact_angle m;
     m_planet1_retrograde := m_planet2_retrograde m;
     m_planet2_retrograde := m_planet1_retrograde m |}.

(** The position record built from one answer of [swe.calc_ut]. *)
Definition position_of (xx : Q * Q * Q * Q * Q * Q) (jd : Q) : position :=
  let '(lon, lat, dist, lon_speed, lat_speed, dist_speed) := xx in
  {| longitude := lon; latitude := lat; distance := dist;
     longitude_speed := lon_speed; latitude_speed := lat_speed;
     distance_speed := dist_speed; julian_day := Some jd |}.

Definition house_names : list string :=
  [ "house_1"; "house_2"; "house_3"; "house_4"; "house_5"; "house_6";
    "house_7"; "house_8"; "house_9"; "house_10"; "house_11";
    "house_12" ]%string.

Definition angle_names : list string :=
  [ "ascendant"; "midheaven"; "armc"; "vertex" ]%string.

(** Every longitude of a house record lies in [0, 360). *)
Definition in_zodiac (x : Q) : Prop := (0 <= x)%Q /\ (x < 360)%Q.

Definition record_in_zodiac (data : house_data) : Prop :=
  in_zodiac (ascendant data)
  /\ Forall (fun kv => in_zodiac (snd kv)) (house_cusps data)
  /\ Forall (fun kv => in_zodiac (snd kv)) (angles data).

(** The number of [print] calls [print_houses_for_positions] makes for one
    record: the header, the ascendant, two section titles, and one line per
    cusp and per angle. *)
Definition lines_of_record (data : house_data) : nat :=
  (4 + List.length (house_cusps data) + List.length (angles data))%nat.

(** The calls so far printed [lines] and left the Provider alone. *)
Definition printed (w w' : world) (lines : list string) : Prop :=
  topo w' = topo w /\ stdout w' = stdout w ++ lines.

(** * Properties *)

(** ** Numbers *)

Lemma forallb_range (P : Z -> bool) (n : nat) :
  forallb P (map Z.of_nat (seq 0 (S n))) = true ->
  forall i, 0 <= i <= Z.of_nat n -> P i = true.
Proof.
  intros H i Hi. rewrite forallb_forall in H. apply H.
  apply in_map_iff. exists (Z.to_nat i). split; [lia|].
  apply in_seq. lia.
Qed.

Lemma td_hours_1 : td_hours 1 = 3600000000.
Proof. reflexivity. Qed.

Lemma td_minutes_1 : td_minutes 1 = 60000000.
Proof. reflexivity. Qed.

Lemma datetime_limit_eq : datetime_limit = 315537897600000000.
Proof. reflexivity. Qed.

Lemma Qlt_bool_iff (x y : Q) : Qlt_bool x y = true <-> (x < y)%Q.
Proof.
  unfold Qlt_bool. rewrite negb_true_iff.
  split; intro H.
  - apply Qnot_le_lt. intro Hle. apply Qle_bool_iff in Hle. congruence.
  - destruct (Qle_bool y x) eqn:E; [|reflexivity].
    apply Qle_bool_iff in E. exfalso. apply (Qlt_not_le _ _ H E).
Qed.

Lemma Qlt_bool_false_iff (x y : Q) : Qlt_bool x y = false <-> (y <= x)%Q.
Proof.
  unfold Qlt_bool. rewrite negb_false_iff. apply Qle_bool_iff.
Qed.

Lemma py_int_nonneg (x : Q) : (0 <= x)%Q -> py_int x = Qfloor x.
Proof.
  intros H. unfold py_int. destruct x as [n d]. cbn.
  apply Z.quot_div_nonneg; [|lia].
  unfold Qle in H. cbn in H. lia.
Qed.

Lemma py_mod_bounds (x m : Q) :
  (0 < m)%Q -> (0 <= py_mod x m)%Q /\ (py_mod x m < m)%Q.
Proof.
  intros Hm. unfold py_mod.
  pose proof (Qfloor_le (x / m)) as Hlo.
  pose proof (Qlt_floor (x / m)) as Hhi.
  rewrite inject_Z_plus in Hhi.
  assert (Hx : (x == m * (x / m))%Q) by (field; lra).
  set (f := inject_Z (Qfloor (x / m))) in *.
  assert (Hlo' : (m * f <= m * (x / m))%Q) by (apply Qmult_le_l; assumption).
  assert (Hhi' : (m * (x / m) < m * (f + inject_Z 1))%Q)
    by (apply Qmult_lt_l; assumption).
  rewrite <- Hx in Hlo', Hhi'.
  change (inject_Z 1) with 1%Q in Hhi'.
  split; lra.
Qed.

(** ** [calculate_aspect_orb] *)

(** C9: the orb is symmetric in its first two arguments, for every target
    angle. *)
Theorem calculate_aspect_orb_sym (a b t : Q) :
  calculate_aspect_orb a b t = calculate_aspect_orb b a t.
Proof.
  unfold calculate_aspect_orb.
  rewrite (Qabs_Qminus a b). reflexivity.
Qed.

(** ** [get_zodiac_sign] *)

Lemma sign_index_in_range (L : Q) :
  (0 <= L)%Q -> (L < 360)%Q -> 0 <= Qfloor (L / 30) < 12.
Proof.
  intros H0 H360.
  assert (Hq0 : (0 <= L / 30)%Q).
  { apply Qle_shift_div_l; lra. }
  assert (Hq12 : (L / 30 < 12)%Q).
  { apply Qlt_shift_div_r; lra. }
  split.
  - change 0 with (Qfloor 0). apply Qfloor_resp_le. exact Hq0.
  - pose proof (Qfloor_le (L / 30)) as Hf.
    assert (Hlt : (inject_Z (Qfloor (L / 30)) < inject_Z 12)%Q).
    { eapply Qle_lt_trans; [exact Hf|]. exact Hq12. }
    rewrite <- Zlt_Qlt in Hlt. exact Hlt.
Qed.

Lemma seq_get_signs (k : Z) :
  0 <= k < 12 -> seq_get signs k = Ret (nth (Z.to_nat k) signs ""%string).
Proof.
  intros H.
  assert (Hk : k = 0 \/ k = 1 \/ k = 2 \/ k = 3 \/ k = 4 \/ k = 5 \/ k = 6
               \/ k = 7 \/ k = 8 \/ k = 9 \/ k = 10 \/ k = 11) by lia.
  repeat (destruct Hk as [Hk | Hk]; [subst k; reflexivity|]).
  subst k; reflexivity.
Qed.

(** C5 (as amended): for every longitude in [0, 360), [get_zodiac_sign]
    returns the sign at index [floor(longitude / 30)] of the 12-sign
    catalog, that index lies in 0..11, and the degree within the sign is
    [longitude - 30 * floor(longitude / 30)], a value in [0, 30). *)
Theorem get_zodiac_sign_in_range (L : Q) :
  (0 <= L)%Q -> (L < 360)%Q ->
  exists d : Q,
    get_zodiac_sign L = Ret (nth (Z.to_nat (Qfloor (L / 30))) signs ""%string, d)
    /\ 0 <= Qfloor (L / 30) < 12
    /\ Qfloor (L / 30) mod 12 = Qfloor (L / 30)
    /\ (d == L - 30 * inject_Z (Qfloor (L / 30)))%Q
    /\ (0 <= d)%Q /\ (d < 30)%Q.
Proof.
  intros H0 H360.
  pose proof (sign_index_in_range L H0 H360) as Hidx.
  exists (py_mod L 30).
  unfold get_zodiac_sign.
  rewrite py_int_nonneg by (apply Qle_shift_div_l; lra).
  rewrite (seq_get_signs _ Hidx). cbn [bind].
  repeat split; try (apply Hidx).
  - apply Z.mod_small. exact Hidx.
  - apply py_mod_bounds. reflexivity.
  - apply py_mod_bounds. reflexivity.
Qed.

Lemma get_zodiac_sign_in_range_witness :
  exists d : Q,
    get_zodiac_sign (45 # 2) = Ret ("Aries"%string, d)
    /\ (0 <= d)%Q /\ (d < 30)%Q.
Proof.
  destruct (get_zodiac_sign_in_range (45 # 2)) as (d & Hd & _ & _ & _ & Hlo & Hhi).
  - unfold Qle; cbn; lia.
  - unfold Qlt; cbn; lia.
  - exists d. split; [exact Hd | split; assumption].
Defined.

(** C5, counterexample: outside [0, 360) the index is not
    [floor(longitude / 30) mod 12].  At 360 the lookup [signs[12]] raises
    [IndexError]; at -10 the truncation [int(-10 / 30) = 0] selects Aries
    where [floor(-10 / 30) mod 12 = 11] is Pisces. *)
Lemma get_zodiac_sign_not_floor_mod :
  ~ sign_of_floor_mod 360 /\ ~ sign_of_floor_mod (-10 # 1).
Proof.
  split; intros (d & H & _); vm_compute in H; discriminate H.
Qed.

(** ** [compute_julian_day] *)

Lemma dt_minutes_replace_seconds (t : datetime) (ss us : Z) :
  0 <= ss < 60 -> 0 <= us < 1000000 ->
  dt_minutes (dt_replace_seconds t ss us) = dt_minutes t.
Proof.
  intros Hs Hu. unfold dt_replace_seconds, dt_minutes.
  unfold usec_per_minute, usec_per_second.
  change (60 * 1000000) with 60000000.
  rewrite <- Z.add_assoc, Z.add_comm, Z.div_add by lia.
  rewrite Z.div_small by lia. lia.
Qed.

Lemma dt_replace_seconds_fields (t : datetime) (ss us : Z) :
  0 <= ss < 60 -> 0 <= us < 1000000 ->
  dt_second (dt_replace_seconds t ss us) = ss
  /\ dt_microsecond (dt_replace_seconds t ss us) = us.
Proof.
  intros Hs Hu.
  unfold dt_second, dt_microsecond, dt_replace_seconds.
  unfold usec_per_minute, usec_per_second.
  set (m := dt_minutes t).
  replace (m * (60 * 1000000) + ss * 1000000 + us)
    with (us + (m * 60 + ss) * 1000000) by lia.
  split.
  - rewrite Z.div_add by lia. rewrite (Z.div_small us) by lia.
    rewrite Z.add_0_l, Z.add_comm, Z.mod_add by lia.
    apply Z.mod_small; lia.
  - rewrite Z.mod_add by lia. apply Z.mod_small; lia.
Qed.

(** C7: the Julian Day is the Provider's conversion of year, month, day
    and the fractional hour [hour - utc_offset + minute / 60]; replacing
    the seconds and microseconds of the datetime by any other values leaves
    the result unchanged. *)
Theorem compute_julian_day_fractional_hour
    (julday : Z -> Z -> Z -> Q -> outcome Q) (t : datetime) (tz : Q) :
  compute_julian_day julday t tz
  = julday (dt_year t) (dt_month t) (dt_day t)
           (inject_Z (dt_hour t) - tz + inject_Z (dt_minute t) / 60)%Q
  /\ forall ss us : Z,
       0 <= ss < 60 -> 0 <= us < 1000000 ->
       dt_second (dt_replace_seconds t ss us) = ss
       /\ dt_microsecond (dt_replace_seconds t ss us) = us
       /\ compute_julian_day julday (dt_replace_seconds t ss us) tz
          = compute_julian_day julday t tz.
Proof.
  split; [reflexivity|].
  intros ss us Hs Hu.
  destruct (dt_replace_seconds_fields t ss us Hs Hu) as [Hsec Husec].
  split; [exact Hsec | split; [exact Husec|]].
  unfold compute_julian_day, dt_year, dt_month, dt_day, dt_hour, dt_minute,
    dt_ordinal.
  rewrite (dt_minutes_replace_seconds t ss us Hs Hu). reflexivity.
Qed.

Lemma compute_julian_day_fractional_hour_witness :
  compute_julian_day julday_gregorian (mk_datetime 1990 1 1 12 30 0 0) (-5 # 1)
  = julday_gregorian 1990 1 1 (12 - (-5 # 1) + 30 / 60)%Q
  /\ compute_julian_day julday_gregorian
       (mk_datetime 1990 1 1 12 30 59 999999) (-5 # 1)
     = compute_julian_day julday_gregorian
         (mk_datetime 1990 1 1 12 30 0 0) (-5 # 1).
Proof.
  pose proof (compute_julian_day_fractional_hour julday_gregorian
                (mk_datetime 1990 1 1 12 30 0 0) (-5 # 1)) as [Heq Hsec].
  split.
  - exact Heq.
  - apply (Hsec 59 999999); lia.
Defined.

Lemma month_day_range (n : Z) (leapyear : bool) :
  0 <= n < 365 ->
  1 <= fst (month_day n leapyear) <= 12
  /\ 1 <= snd (month_day n leapyear) <= 31.
Proof.
  intros Hn.
  assert (H : month_day_in_range leapyear n = true).
  { apply (forallb_range (month_day_in_range leapyear) 364); [|lia].
    destruct leapyear; vm_compute; reflexivity. }
  unfold month_day_in_range in H.
  destruct (month_day n leapyear) as [m d]. cbn [fst snd].
  apply andb_true_iff in H as [H Hd31]. apply andb_true_iff in H as [H Hd1].
  apply andb_true_iff in H as [Hm1 Hm12].
  apply Z.leb_le in Hm1, Hm12, Hd1, Hd31. lia.
Qed.

Lemma ord2ymd_range (ordinal : Z) :
  1 <= ordinal <= max_ordinal ->
  1 <= fst (fst (ord2ymd ordinal)) <= 9999
  /\ 1 <= snd (fst (ord2ymd ordinal)) <= 12
  /\ 1 <= snd (ord2ymd ordinal) <= 31.
Proof.
  unfold max_ordinal. intros Ho. unfold ord2ymd. cbv zeta.
  set (n0 := ordinal - 1).
  set (n400 := n0 / 146097). set (r1 := n0 mod 146097).
  set (n100 := r1 / 36524). set (r2 := r1 mod 36524).
  set (n4 := r2 / 1461). set (r3 := r2 mod 1461).
  set (n1 := r3 / 365). set (n := r3 mod 365).
  assert (Hyear : 1 <= n400 * 400 + 1 + n100 * 100 + n4 * 4 + n1
                  /\ (n1 <> 4 -> n100 <> 4 ->
                      n400 * 400 + 1 + n100 * 100 + n4 * 4 + n1 <= 9999)
                  /\ (n1 = 4 \/ n100 = 4 ->
                      2 <= n400 * 400 + 1 + n100 * 100 + n4 * 4 + n1 <= 10000)).
  { unfold n1, r3, n4, r2, n100, r1, n400, n0.
    Z.div_mod_to_equations. lia. }
  assert (Hn : 0 <= n < 365) by (apply Z.mod_pos_bound; lia).
  destruct ((n1 =? 4) || (n100 =? 4)) eqn:Hlast.
  - cbn [fst snd]. apply orb_true_iff in Hlast.
    rewrite !Z.eqb_eq in Hlast. lia.
  - apply orb_false_iff in Hlast as [H1 H100].
    apply Z.eqb_neq in H1, H100.
    set (leapyear := (n1 =? 3) && (negb (n4 =? 24) || (n100 =? 3))).
    pose proof (month_day_range n leapyear Hn) as Hmd.
    unfold month_day in Hmd. cbv zeta in Hmd.
    destruct (n <? _); cbn [fst snd] in *; lia.
Qed.

Lemma fields_of_in_range (t : datetime) :
  valid_datetime t -> calendar_in_range (fields_of t).
Proof.
  unfold valid_datetime. rewrite datetime_limit_eq. intros Ht.
  unfold calendar_in_range, fields_of. cbn [civil_year civil_month civil_day
                                             civil_hour civil_minute].
  assert (Hord : 1 <= dt_ordinal t <= max_ordinal).
  { unfold dt_ordinal, dt_minutes, max_ordinal, usec_per_minute,
      usec_per_second.
    Z.div_mod_to_equations. lia. }
  pose proof (ord2ymd_range (dt_ordinal t) Hord) as (Hy & Hm & Hd).
  unfold dt_year, dt_month, dt_day, dt_hour, dt_minute.
  pose proof (Z.mod_pos_bound (dt_minutes t / 60) 24 eq_refl).
  pose proof (Z.mod_pos_bound (dt_minutes t) 60 eq_refl).
  repeat split; lia.
Qed.

Lemma julday_gregorian_total (y m d : Z) (h : Q) :
  exists jd : Q, julday_gregorian y m d h = Ret jd.
Proof. unfold julday_gregorian. eauto. Qed.




(** ** [find_aspects] *)

Lemma map_filter_flat_map {A B C : Type}
    (g : B -> C) (p : B -> bool) (F : A -> list B) (l : list A) :
  map g (filter p (flat_map F l))
  = flat_map (fun x => map g (filter p (F x))) l.
Proof.
  induction l as [|x l IH]; [reflexivity|].
  cbn [flat_map]. rewrite filter_app, map_app, IH. reflexivity.
Qed.

Lemma flat_map_singletons {A B : Type} (h : A -> B) (l : list A) :
  flat_map (fun x => [h x]) l = map h l.
Proof.
  induction l as [|x l IH]; [reflexivity|].
  cbn [flat_map map app]. rewrite IH. reflexivity.
Qed.

Lemma aspect_step_qualifies (max_orb : option Q)
    (planet1 : string) (pos1 : position) (planet2 : string) (pos2 : position)
    (aspect_name : string) (data : aspect_data) :
  aspect_step max_orb planet1 pos1 planet2 pos2 aspect_name data
  = map match_of
      (filter (qualifies max_orb)
              [((planet1, pos1), (planet2, pos2), (aspect_name, data))]).
Proof.
  unfold aspect_step. cbn [filter qualifies triple_orb].
  destruct max_orb as [m|].
  - unfold Qlt_bool.
    destruct (Qle_bool _ m);
      destruct (Qle_bool _ (inject_Z (orb data))); reflexivity.
  - destruct (Qle_bool _ (inject_Z (orb data))); reflexivity.
Qed.

Lemma find_aspects_filter_map (set_a set_b : dict position) (max_orb : option Q) :
  find_aspects set_a set_b max_orb
  = map match_of (filter (qualifies max_orb) (cross_product set_a set_b)).
Proof.
  unfold find_aspects, cross_product.
  rewrite map_filter_flat_map.
  apply flat_map_ext. intros [planet1 pos1].
  rewrite map_filter_flat_map.
  apply flat_map_ext. intros [planet2 pos2].
  rewrite <- (flat_map_singletons
                (fun c => ((planet1, pos1), (planet2, pos2), c)) ASPECTS).
  rewrite map_filter_flat_map.
  apply flat_map_ext. intros [aspect_name data].
  apply aspect_step_qualifies.
Qed.

Lemma in_cross_product (set_a set_b : dict position) (a b : string * position)
    (c : string * aspect_data) :
  In (a, b, c) (cross_product set_a set_b)
  <-> In a set_a /\ In b set_b /\ In c ASPECTS.
Proof.
  unfold cross_product. rewrite in_flat_map. split.
  - intros (a' & Ha & H). apply in_flat_map in H as (b' & Hb & H).
    apply in_map_iff in H as (c' & Heq & Hc).
    inversion Heq; subst. auto.
  - intros (Ha & Hb & Hc). exists a. split; [exact Ha|].
    apply in_flat_map. exists b. split; [exact Hb|].
    apply in_map_iff. exists c. auto.
Qed.

Lemma qualifies_iff (max_orb : option Q) (a b : string * position)
    (name : string) (data : aspect_data) :
  qualifies max_orb (a, b, (name, data)) = true
  <-> (triple_orb (a, b, (name, data)) <= inject_Z (orb data))%Q
      /\ (max_orb = None
          \/ exists m : Q,
               max_orb = Some m /\ (triple_orb (a, b, (name, data)) <= m)%Q).
Proof.
  unfold qualifies. rewrite andb_true_iff, Qle_bool_iff.
  destruct max_orb as [m|].
  - rewrite Qle_bool_iff. split.
    + intros [H1 H2]. split; [exact H1|]. right. exists m. auto.
    + intros [H1 [H2 | (m' & Hm & H2)]]; [discriminate|].
      inversion Hm; subst. auto.
  - split; [intros [H1 _]; auto | intros [H1 _]; auto].
Qed.

Lemma ASPECTS_functional (name : string) (d d' : aspect_data) :
  In (name, d) ASPECTS -> In (name, d') ASPECTS -> d = d'.
Proof.
  unfold ASPECTS. cbn [In]. intros H H'.
  repeat (destruct H as [H | H]; [inversion H; subst; clear H|]);
    try contradiction;
    repeat (destruct H' as [H' | H']; [inversion H'; subst; clear H'|]);
    try contradiction; reflexivity.
Qed.

(** Two triples of the cross product with the same match qualify
    together: the match keeps the aspect name and the orb. *)
Lemma qualifies_match_of (max_orb : option Q) (set_a set_b : dict position)
    (tr tr' : triple) :
  In tr (cross_product set_a set_b) ->
  In tr' (cross_product set_a set_b) ->
  match_of tr = match_of tr' ->
  qualifies max_orb tr = qualifies max_orb tr'.
Proof.
  destruct tr as [[[k1 p1] [k2 p2]] [n d]].
  destruct tr' as [[[k1' p1'] [k2' p2']] [n' d']].
  intros Hin Hin' Heq.
  apply in_cross_product in Hin as (_ & _ & Hc).
  apply in_cross_product in Hin' as (_ & _ & Hc').
  assert (Hn : n = n') by (apply (f_equal m_aspect) in Heq; exact Heq).
  assert (Ho : triple_orb (k1, p1, (k2, p2), (n, d))
               = triple_orb (k1', p1', (k2', p2'), (n', d')))
    by (apply (f_equal m_orb) in Heq; exact Heq).
  subst n'. rewrite (ASPECTS_functional n d d' Hc Hc') in *.
  unfold qualifies. rewrite Ho. reflexivity.
Qed.

(** C2: [find_aspects] walks set_a x set_b x catalog in nested order
    (insertion order of set_a, then of set_b, then catalog declaration
    order) and keeps, in that order, the match of exactly the triples whose
    orb is at most the aspect's catalog orb and, when [max_orb] is given,
    at most [max_orb]. *)
Theorem find_aspects_cross_product
    (set_a set_b : dict position) (max_orb : option Q) :
  find_aspects set_a set_b max_orb
  = map match_of (filter (qualifies max_orb) (cross_product set_a set_b))
  /\ (forall (a : string * position) (rest : dict position),
        cross_product (a :: rest) set_b
        = flat_map (fun b => map (fun c => (a, b, c)) ASPECTS) set_b
          ++ cross_product rest set_b)
  /\ (forall a b c,
        In (a, b, c) (cross_product set_a set_b)
        <-> In a set_a /\ In b set_b /\ In c ASPECTS)
  /\ (forall a b name data,
        In (a, b, (name, data)) (cross_product set_a set_b) ->
        (In (match_of (a, b, (name, data))) (find_aspects set_a set_b max_orb)
         <-> (triple_orb (a, b, (name, data)) <= inject_Z (orb data))%Q
             /\ (max_orb = None
                 \/ exists m : Q,
                      max_orb = Some m
                      /\ (triple_orb (a, b, (name, data)) <= m)%Q)))
  /\ (forall m : aspect_match,
        In m (find_aspects set_a set_b max_orb) ->
        exists tr : triple,
          In tr (cross_product set_a set_b)
          /\ qualifies max_orb tr = true /\ m = match_of tr).
Proof.
  split; [apply find_aspects_filter_map|].
  split; [reflexivity|].
  split; [apply in_cross_product|].
  split.
  - intros a b name data Hin.
    rewrite <- qualifies_iff, find_aspects_filter_map, in_map_iff.
    split.
    + intros (tr & Heq & Htr). apply filter_In in Htr as [Htr Hq].
      rewrite <- (qualifies_match_of max_orb set_a set_b _ _ Htr Hin Heq). exact Hq.
    + intros Hq. exists (a, b, (name, data)).
      split; [reflexivity|]. apply filter_In. auto.
  - intros m Hm. rewrite find_aspects_filter_map in Hm.
    apply in_map_iff in Hm as (tr & Heq & Htr).
    apply filter_In in Htr as [Htr Hq]. exists tr. auto.
Qed.

(** *** At most one aspect per pair of bodies

    The tolerance bands of the catalog, [angle - orb, angle + orb], are
    pairwise disjoint, so one separation matches at most one aspect. *)

Lemma aspect_bands_disjoint (s : Q) (n1 n2 : string) (d1 d2 : aspect_data) :
  In (n1, d1) ASPECTS -> In (n2, d2) ASPECTS ->
  (Qabs (s - inject_Z (angle d1)) <= inject_Z (orb d1))%Q ->
  (Qabs (s - inject_Z (angle d2)) <= inject_Z (orb d2))%Q ->
  (n1, d1) = (n2, d2).
Proof.
  unfold ASPECTS. cbn [In]. intros H1 H2 B1 B2.
  apply Qabs_Qle_condition in B1. apply Qabs_Qle_condition in B2.
  repeat (destruct H1 as [H1 | H1]; [inversion H1; subst; clear H1|]);
    try contradiction;
    repeat (destruct H2 as [H2 | H2]; [inversion H2; subst; clear H2|]);
    try contradiction; try reflexivity;
    exfalso; cbn [angle orb] in B1, B2;
    unfold inject_Z in B1, B2; lra.
Qed.

Lemma NoDup_keys_functional {V : Type} (d : dict V) (k : string) (v v' : V) :
  NoDup (keys d) -> In (k, v) d -> In (k, v') d -> v = v'.
Proof.
  induction d as [|[k0 v0] d IH]; cbn [keys map fst In]; intros Hnd H H'.
  - contradiction.
  - apply NoDup_cons_iff in Hnd as [Hnotin Hnd].
    destruct H as [H | H]; destruct H' as [H' | H'].
    + congruence.
    + inversion H; subst. exfalso. apply Hnotin.
      apply in_map_iff. exists (k, v'). auto.
    + inversion H'; subst. exfalso. apply Hnotin.
      apply in_map_iff. exists (k, v). auto.
    + apply IH; assumption.
Qed.

(** Two matches of one output that name the same pair of bodies are the
    same match. *)
Lemma find_aspects_pair_unique (set_a set_b : dict position) (max_orb : option Q)
    (m1 m2 : aspect_match) :
  NoDup (keys set_a) -> NoDup (keys set_b) ->
  In m1 (find_aspects set_a set_b max_orb) ->
  In m2 (find_aspects set_a set_b max_orb) ->
  m_planet1 m1 = m_planet1 m2 ->
  m_planet2 m1 = m_planet2 m2 ->
  m1 = m2.
Proof.
  intros Ha Hb H1 H2 Hp1 Hp2.
  rewrite find_aspects_filter_map in H1, H2.
  apply in_map_iff in H1 as (tr1 & E1 & H1).
  apply in_map_iff in H2 as (tr2 & E2 & H2).
  apply filter_In in H1 as [H1 Q1]. apply filter_In in H2 as [H2 Q2].
  destruct tr1 as [[[k1 p1] [k2 p2]] [n d]].
  destruct tr2 as [[[k1' p1'] [k2' p2']] [n' d']].
  apply in_cross_product in H1 as (A1 & B1 & C1).
  apply in_cross_product in H2 as (A2 & B2 & C2).
  subst m1 m2. cbn [match_of m_planet1 m_planet2] in Hp1, Hp2. subst k1' k2'.
  rewrite (NoDup_keys_functional set_a k1 p1' p1 Ha A2 A1) in *.
  rewrite (NoDup_keys_functional set_b k2 p2' p2 Hb B2 B1) in *.
  apply qualifies_iff in Q1 as [Q1 _]. apply qualifies_iff in Q2 as [Q2 _].
  cbn [triple_orb] in Q1, Q2. unfold calculate_aspect_orb in Q1, Q2.
  pose proof (aspect_bands_disjoint _ n n' d d' C1 C2 Q1 Q2) as E.
  inversion E; subst. reflexivity.
Qed.

Lemma filter_flat_map {A B : Type} (p : B -> bool) (F : A -> list B)
    (l : list A) :
  filter p (flat_map F l) = flat_map (fun x => filter p (F x)) l.
Proof.
  induction l as [|x l IH]; [reflexivity|].
  cbn [flat_map]. rewrite filter_app, IH. reflexivity.
Qed.

Lemma filter_none {A : Type} (q : A -> bool) (l : list A) :
  (forall y, In y l -> q y = false) -> filter q l = [].
Proof.
  induction l as [|x l IH]; intros H; [reflexivity|].
  cbn [filter]. rewrite (H x (or_introl eq_refl)).
  apply IH. intros y Hy. apply H. right. exact Hy.
Qed.

Lemma length_filter_le_1 {A : Type} (q : A -> bool) (l : list A) :
  NoDup l ->
  (forall x y, In x l -> In y l -> q x = true -> q y = true -> x = y) ->
  (List.length (filter q l) <= 1)%nat.
Proof.
  induction l as [|x l IH]; intros Hnd Huniq; [cbn; lia|].
  apply NoDup_cons_iff in Hnd as [Hx Hnd].
  cbn [filter]. destruct (q x) eqn:Eq.
  - rewrite filter_none; [cbn; lia|].
    intros y Hy. destruct (q y) eqn:Ey; [|reflexivity].
    exfalso. apply Hx.
    rewrite (Huniq x y); cbn [In]; auto.
  - apply IH; [exact Hnd|].
    intros a b Ha Hb. apply Huniq; right; assumption.
Qed.

Lemma flat_map_nil {A B : Type} (g : A -> list B) (l : list A) :
  (forall x, In x l -> g x = []) -> flat_map g l = [].
Proof.
  induction l as [|x l IH]; intros H; [reflexivity|].
  cbn [flat_map]. rewrite (H x (or_introl eq_refl)).
  apply IH. intros y Hy. apply H. right. exact Hy.
Qed.

(** A loop over a dictionary in which only the entry of key [k]
    contributes, and contributes at most one element. *)
Lemma flat_map_keyed_length {V B : Type} (g : string * V -> list B)
    (d : dict V) (k : string) :
  NoDup (keys d) ->
  (forall x, In x d -> fst x <> k -> g x = []) ->
  (forall x, In x d -> (List.length (g x) <= 1)%nat) ->
  (List.length (flat_map g d) <= 1)%nat.
Proof.
  induction d as [|x d IH]; intros Hnd Hother Hone; [cbn; lia|].
  cbn [keys map] in Hnd. apply NoDup_cons_iff in Hnd as [Hx Hnd].
  cbn [flat_map]. rewrite length_app.
  destruct (string_dec (fst x) k) as [E | E].
  - rewrite (flat_map_nil g d).
    + pose proof (Hone x (or_introl eq_refl)). cbn. lia.
    + intros y Hy. apply Hother; [right; exact Hy|].
      intros Ey. apply Hx. rewrite E, <- Ey. apply in_map. exact Hy.
  - rewrite (Hother x (or_introl eq_refl) E). cbn [List.length Nat.add].
    apply IH; [exact Hnd | |].
    + intros y Hy. apply Hother. right. exact Hy.
    + intros y Hy. apply Hone. right. exact Hy.
Qed.

Lemma NoDup_ASPECTS : NoDup ASPECTS.
Proof.
  unfold ASPECTS.
  repeat (apply NoDup_cons;
          [cbn [In]; intros H;
           repeat (destruct H as [H | H]; [discriminate H|]); exact H|]).
  apply NoDup_nil.
Qed.

Lemma filter_map_swap {A B : Type} (q : B -> bool) (f : A -> B) (l : list A) :
  filter q (map f l) = map f (filter (fun x => q (f x)) l).
Proof.
  induction l as [|x l IH]; [reflexivity|].
  cbn [map filter]. rewrite IH. destruct (q (f x)); reflexivity.
Qed.

(** The innermost loop appends at most one match for a pair of bodies. *)
Lemma catalog_loop_length (max_orb : option Q)
    (planet1 : string) (pos1 : position) (planet2 : string) (pos2 : position) :
  (List.length
     (flat_map (fun '(aspect_name, data) =>
                  aspect_step max_orb planet1 pos1 planet2 pos2 aspect_name data)
               ASPECTS) <= 1)%nat.
Proof.
  rewrite (flat_map_ext _
             (fun c => map match_of
                         (filter (qualifies max_orb)
                                 [((planet1, pos1), (planet2, pos2), c)])))
    by (intros [n d]; apply aspect_step_qualifies).
  rewrite <- map_filter_flat_map, flat_map_singletons, length_map.
  rewrite filter_map_swap, length_map.
  apply length_filter_le_1; [apply NoDup_ASPECTS|].
  intros [n d] [n' d'] Hc Hc' Hq Hq'.
  apply qualifies_iff in Hq as [Hq _]. apply qualifies_iff in Hq' as [Hq' _].
  cbn [triple_orb] in Hq, Hq'. unfold calculate_aspect_orb in Hq, Hq'.
  exact (aspect_bands_disjoint _ n n' d d' Hc Hc' Hq Hq').
Qed.

Lemma aspect_step_planets (max_orb : option Q)
    (planet1 : string) (pos1 : position) (planet2 : string) (pos2 : position)
    (aspect_name : string) (data : aspect_data) (m : aspect_match) :
  In m (aspect_step max_orb planet1 pos1 planet2 pos2 aspect_name data) ->
  m_planet1 m = planet1 /\ m_planet2 m = planet2.
Proof.
  unfold aspect_step.
  destruct (match max_orb with Some m0 => _ | None => _ end);
    [intros []|].
  destruct (Qle_bool _ _); [|intros []].
  intros [H | []]. subst m. split; reflexivity.
Qed.

Lemma find_aspects_pair_count (set_a set_b : dict position)
    (max_orb : option Q) (body1 body2 : string) :
  NoDup (keys set_a) -> NoDup (keys set_b) ->
  (List.length (filter (same_pair body1 body2)
                       (find_aspects set_a set_b max_orb)) <= 1)%nat.
Proof.
  intros Ha Hb. unfold find_aspects. rewrite filter_flat_map.
  apply (flat_map_keyed_length _ set_a body1 Ha).
  - intros [k1 p1] _ Hk. cbn [fst] in Hk.
    apply filter_none. intros m Hm.
    apply in_flat_map in Hm as ([k2 p2] & _ & Hm).
    apply in_flat_map in Hm as ([n d] & _ & Hm).
    apply aspect_step_planets in Hm as [E1 _].
    unfold same_pair. rewrite E1.
    apply String.eqb_neq in Hk. rewrite Hk. reflexivity.
  - intros [k1 p1] _. rewrite filter_flat_map.
    apply (flat_map_keyed_length _ set_b body2 Hb).
    + intros [k2 p2] _ Hk. cbn [fst] in Hk.
      apply filter_none. intros m Hm.
      apply in_flat_map in Hm as ([n d] & _ & Hm).
      apply aspect_step_planets in Hm as [_ E2].
      unfold same_pair. rewrite E2.
      apply String.eqb_neq in Hk. rewrite Hk. apply andb_false_r.
    + intros [k2 p2] _.
      eapply Nat.le_trans; [apply filter_length_le|].
      apply catalog_loop_length.
Qed.

(** C4 (as amended): no deduplication is applied, and none is needed: for
    dictionaries (unique keys) and the fixed catalog, whose tolerance bands
    are pairwise disjoint, the output of [find_aspects] holds at most one
    match for a (body1, body2) pair, and two entries of the output for the
    same pair are the same match, under the same aspect name. *)
Theorem find_aspects_one_aspect_per_pair
    (set_a set_b : dict position) (max_orb : option Q) :
  NoDup (keys set_a) -> NoDup (keys set_b) ->
  (forall body1 body2 : string,
      (List.length (filter (same_pair body1 body2)
                           (find_aspects set_a set_b max_orb)) <= 1)%nat)
  /\ (forall m1 m2 : aspect_match,
        In m1 (find_aspects set_a set_b max_orb) ->
        In m2 (find_aspects set_a set_b max_orb) ->
        m_planet1 m1 = m_planet1 m2 ->
        m_planet2 m1 = m_planet2 m2 ->
        m_aspect m1 = m_aspect m2 /\ m1 = m2).
Proof.
  intros Ha Hb. split.
  - intros body1 body2. apply find_aspects_pair_count; assumption.
  - intros m1 m2 H1 H2 Hp1 Hp2.
    assert (E : m1 = m2)
      by (apply (find_aspects_pair_unique set_a set_b max_orb); assumption).
    subst m2. split; reflexivity.
Qed.

(** C4, counterexample: there are no dictionaries for which the output
    holds the same (body1, body2) pair under two different aspect names. *)
Lemma find_aspects_no_pair_under_two_aspects :
  ~ exists (set_a set_b : dict position) (max_orb : option Q)
           (m1 m2 : aspect_match),
      NoDup (keys set_a) /\ NoDup (keys set_b)
      /\ In m1 (find_aspects set_a set_b max_orb)
      /\ In m2 (find_aspects set_a set_b max_orb)
      /\ m_planet1 m1 = m_planet1 m2
      /\ m_planet2 m1 = m_planet2 m2
      /\ m_aspect m1 <> m_aspect m2.
Proof.
  intros (set_a & set_b & max_orb & m1 & m2
          & Ha & Hb & H1 & H2 & Hp1 & Hp2 & Hne).
  apply Hne. f_equal.
  apply (find_aspects_pair_unique set_a set_b max_orb); assumption.
Qed.

(** ** [calculate_houses_for_positions] *)

Lemma dict_set_fresh {V : Type} (d : dict V) (k : string) (v : V) :
  ~ In k (keys d) -> dict_set d k v = d ++ [(k, v)].
Proof.
  induction d as [|[k' v'] d IH]; intros Hk; [reflexivity|].
  cbn [dict_set]. cbn [keys map fst In] in Hk.
  destruct (String.eqb k' k) eqn:E.
  - apply String.eqb_eq in E. exfalso. apply Hk. left. exact E.
  - cbn [app]. f_equal. apply IH. intros H. apply Hk. right. exact H.
Qed.

Lemma entries_with_jd_cons (name : string) (pos : position)
    (rest : dict position) :
  entries_with_jd ((name, pos) :: rest)
  = match julian_day pos with
    | Some jd => (name, jd) :: entries_with_jd rest
    | None => entries_with_jd rest
    end.
Proof. unfold entries_with_jd. cbn [flat_map]. destruct (julian_day pos); reflexivity. Qed.

Lemma entries_without_jd_cons (name : string) (pos : position)
    (rest : dict position) :
  entries_without_jd ((name, pos) :: rest)
  = match julian_day pos with
    | Some _ => entries_without_jd rest
    | None => name :: entries_without_jd rest
    end.
Proof. unfold entries_without_jd. cbn [flat_map]. destruct (julian_day pos); reflexivity. Qed.

Lemma entries_split_length (positions : dict position) :
  (List.length (entries_with_jd positions)
   + List.length (entries_without_jd positions)
   = List.length positions)%nat.
Proof.
  induction positions as [|[name pos] rest IH]; [reflexivity|].
  rewrite entries_with_jd_cons, entries_without_jd_cons.
  destruct (julian_day pos); cbn [List.length]; lia.
Qed.

Lemma in_entries_with_jd (positions : dict position) (name : string) (jd : Q) :
  In (name, jd) (entries_with_jd positions)
  <-> exists pos : position,
        In (name, pos) positions /\ julian_day pos = Some jd.
Proof.
  unfold entries_with_jd. rewrite in_flat_map. split.
  - intros ([n p] & Hin & H). destruct (julian_day p) eqn:E; [|contradiction].
    destruct H as [H | []]. inversion H; subst. exists p. auto.
  - intros (pos & Hin & E). exists (name, pos). split; [exact Hin|].
    rewrite E. left. reflexivity.
Qed.

Lemma dict_find_in {V : Type} (d : dict V) (k : string) (v : V) :
  NoDup (keys d) -> In (k, v) d -> dict_find d k = Some v.
Proof.
  induction d as [|[k' v'] d IH]; intros Hnd Hin; [contradiction|].
  cbn [keys map fst] in Hnd. apply NoDup_cons_iff in Hnd as [Hk Hnd].
  cbn [dict_find]. destruct Hin as [Hin | Hin].
  - inversion Hin; subst. rewrite String.eqb_refl. reflexivity.
  - destruct (String.eqb k' k) eqn:E.
    + apply String.eqb_eq in E. subst k'. exfalso. apply Hk.
      apply in_map_iff. exists (k, v). auto.
    + apply IH; assumption.
Qed.

Lemma dict_find_not_in {V : Type} (d : dict V) (k : string) :
  ~ In k (keys d) -> dict_find d k = None.
Proof.
  induction d as [|[k' v'] d IH]; intros Hk; [reflexivity|].
  cbn [keys map fst In] in Hk. cbn [dict_find].
  destruct (String.eqb k' k) eqn:E.
  - apply String.eqb_eq in E. exfalso. apply Hk. left. exact E.
  - apply IH. intros H. apply Hk. right. exact H.
Qed.

Lemma NoDup_entries_with_jd (positions : dict position) :
  NoDup (keys positions) -> NoDup (map fst (entries_with_jd positions)).
Proof.
  induction positions as [|[name pos] rest IH]; intros Hnd.
  - apply NoDup_nil.
  - cbn [keys map fst] in Hnd. apply NoDup_cons_iff in Hnd as [Hk Hnd].
    rewrite entries_with_jd_cons. destruct (julian_day pos) as [jd|].
    + cbn [map fst]. apply NoDup_cons; [|apply IH; exact Hnd].
      intros Hin. apply in_map_iff in Hin as ([n j] & Hn & Hin).
      cbn [fst] in Hn. subst n.
      apply in_entries_with_jd in Hin as (p & Hin & _).
      apply Hk. apply in_map_iff. exists (name, p). auto.
    + apply IH. exact Hnd.
Qed.

Section HouseBatch.

Variable houses : Q -> Q -> Q -> string -> outcome (list Q * list Q).
Variables latitude_ longitude_ : Q.
Variable house_system : string.

(** The record the Provider yields for each Julian Day of the batch. *)
Variable record_at : Q -> house_data.

Local Abbreviation provider_ok :=
  (provider_succeeds houses latitude_ longitude_ house_system record_at).

Lemma houses_loop_spec (items : dict position) :
  forall (results : dict house_data) (w : world),
    provider_ok items ->
    NoDup (keys results ++ keys items) ->
    exists w' : world,
      houses_loop houses items latitude_ longitude_ house_system results w
      = (Ret (results
              ++ map (fun '(name, jd) => (name, record_at jd))
                     (entries_with_jd items)),
         w')
      /\ stdout w'
         = stdout w ++ map no_julian_day_warning (entries_without_jd items).
Proof.
  induction items as [|[name pos] rest IH]; intros results w Hprov Hnd.
  - exists w. cbn. rewrite !app_nil_r. auto.
  - assert (Hfresh : ~ In name (keys results)).
    { intros Hin. apply NoDup_remove_2 in Hnd. apply Hnd.
      apply in_or_app. left. exact Hin. }
    assert (Htail : provider_ok rest).
    { intros n j Hin. apply (Hprov n j). rewrite entries_with_jd_cons.
      destruct (julian_day pos); [right; exact Hin | exact Hin]. }
    assert (Hhead : forall jd0, julian_day pos = Some jd0 ->
                    In (name, jd0) (entries_with_jd ((name, pos) :: rest))).
    { intros jd0 E. rewrite entries_with_jd_cons, E. left. reflexivity. }
    cbn [houses_loop]. rewrite entries_with_jd_cons, entries_without_jd_cons.
    destruct (julian_day pos) as [jd|] eqn:Ejd.
    + pose proof (Hprov name jd (Hhead jd eq_refl) w) as Hrec.
      destruct (calculate_ascendant_and_houses
                  houses jd latitude_ longitude_ house_system w)
        as [o w1] eqn:Ecall.
      assert (Hw1 : stdout w1 = stdout w).
      { unfold calculate_ascendant_and_houses in Ecall.
        inversion Ecall. reflexivity. }
      cbn [fst] in Hrec. subst o.
      rewrite (dict_set_fresh results name _ Hfresh).
      destruct (IH (results
                    ++ [(name,
                         {| ascendant := ascendant (record_at jd);
                            house_cusps := house_cusps (record_at jd);
                            angles := angles (record_at jd) |})]) w1)
        as (w' & Hrun & Hout).
      * exact Htail.
      * unfold keys in *. rewrite map_app, <- app_assoc. exact Hnd.
      * exists w'. rewrite Hrun, Hout, Hw1, <- app_assoc.
        cbn [app map]. destruct (record_at jd). auto.
    + destruct (IH results (print (no_julian_day_warning name) w))
        as (w' & Hrun & Hout).
      * exact Htail.
      * apply NoDup_remove_1 in Hnd. exact Hnd.
      * exists w'. rewrite Hrun, Hout. cbn [print stdout app map].
        rewrite <- app_assoc. auto.
Qed.

End HouseBatch.

(** C8: an entry without a Julian Day is skipped with one warning line,
    the batch goes on, and every entry with a Julian Day gets the
    House/Angles record of that Julian Day: as long as the Provider computes
    the houses of the entries that have a Julian Day, the batch returns (it
    does not raise), its result holds exactly those entries in order, and
    one warning per skipped entry is printed.  With 3 entries of which
    exactly one lacks a Julian Day this is 2 records and 1 warning. *)
Theorem calculate_houses_for_positions_skips
    (houses : Q -> Q -> Q -> string -> outcome (list Q * list Q))
    (record_at : Q -> house_data)
    (positions : dict position) (lat lon : Q) (hsys : string) (w : world) :
  NoDup (keys positions) ->
  provider_succeeds houses lat lon hsys record_at positions ->
  exists (results : dict house_data) (w' : world),
    calculate_houses_for_positions houses positions lat lon hsys w
    = (Ret results, w')
    /\ results = map (fun '(name, jd) => (name, record_at jd))
                     (entries_with_jd positions)
    /\ stdout w'
       = stdout w ++ map no_julian_day_warning (entries_without_jd positions)
    /\ (forall (name : string) (pos : position) (jd : Q),
          In (name, pos) positions -> julian_day pos = Some jd ->
          dict_find results name = Some (record_at jd))
    /\ (forall (name : string) (pos : position),
          In (name, pos) positions -> julian_day pos = None ->
          dict_find results name = None)
    /\ (List.length positions = 3%nat ->
        List.length (entries_without_jd positions) = 1%nat ->
        List.length results = 2%nat
        /\ List.length (stdout w') = S (List.length (stdout w))).
Proof.
  intros Hnd Hprov.
  destruct (houses_loop_spec houses lat lon hsys record_at positions [] w Hprov)
    as (w' & Hrun & Hout); [exact Hnd|].
  cbn [app] in Hrun.
  set (results := map (fun '(name, jd) => (name, record_at jd))
                      (entries_with_jd positions)) in *.
  assert (Hkeys : keys results = map fst (entries_with_jd positions)).
  { unfold results, keys. rewrite map_map. apply map_ext. intros [n j]. reflexivity. }
  exists results, w'.
  split; [exact Hrun|]. split; [reflexivity|]. split; [exact Hout|].
  split; [|split].
  - intros name pos jd Hin Hjd.
    apply dict_find_in.
    + rewrite Hkeys. apply NoDup_entries_with_jd. exact Hnd.
    + unfold results. apply in_map_iff. exists (name, jd).
      split; [reflexivity|]. apply in_entries_with_jd. exists pos. auto.
  - intros name pos Hin Hjd.
    apply dict_find_not_in. rewrite Hkeys. intros H.
    apply in_map_iff in H as ([n j] & Hn & H). cbn [fst] in Hn. subst n.
    apply in_entries_with_jd in H as (pos' & Hin' & Hjd').
    rewrite (NoDup_keys_functional positions name pos pos' Hnd Hin Hin') in Hjd.
    congruence.
  - intros H3 H1.
    pose proof (entries_split_length positions) as Hlen.
    unfold results. rewrite length_map, Hout, length_app, length_map. lia.
Qed.

Lemma calculate_houses_for_positions_skips_witness :
  exists (results : dict house_data) (w' : world),
    calculate_houses_for_positions flat_houses three_entries 0 0 "P"
      {| topo := None; stdout := [] |}
    = (Ret results, w')
    /\ keys results = ["natal"; "transit"]%string
    /\ stdout w'
       = ["Warning: No Julian day found for untimed, skipping..."]%string.
Proof.
  destruct (calculate_houses_for_positions_skips
              flat_houses flat_record_at three_entries 0 0 "P"
              {| topo := None; stdout := [] |})
    as (results & w' & Hrun & Hres & Hout & _).
  - unfold three_entries, keys. cbn [map fst].
    repeat (apply NoDup_cons;
            [cbn [In]; intros H;
             repeat (destruct H as [H | H]; [discriminate H|]); exact H|]).
    apply NoDup_nil.
  - intros name jd Hin w0. cbn in Hin.
    destruct Hin as [Hin | [Hin | []]]; inversion Hin; subst; reflexivity.
  - exists results, w'. split; [exact Hrun|].
    split; [rewrite Hres; reflexivity | rewrite Hout; reflexivity].
Defined.

(** ** [find_exact_aspect_time] *)

Lemma dt_add_in_range (t : datetime) (d : timedelta) :
  0 <= t + d < datetime_limit -> dt_add t d = Ret (t + d).
Proof.
  intros [Hlo Hhi]. unfold dt_add.
  apply Z.leb_le in Hlo. apply Z.ltb_lt in Hhi.
  rewrite Hlo, Hhi. reflexivity.
Qed.

Lemma dt_add_ret (t : datetime) (d : timedelta) (r : datetime) :
  dt_add t d = Ret r -> r = t + d /\ 0 <= t + d < datetime_limit.
Proof.
  unfold dt_add.
  destruct (0 <=? t + d) eqn:Hlo; destruct (t + d <? datetime_limit) eqn:Hhi;
    cbn [andb]; intros H; inversion H; subst.
  apply Z.leb_le in Hlo. apply Z.ltb_lt in Hhi. auto.
Qed.

Lemma first_argmin_unique (o : Z -> Q) (n i j : Z) :
  first_argmin o n i -> first_argmin o n j -> i = j.
Proof.
  intros (Hi & Hmin & Hfirst) (Hj & Hmin' & Hfirst').
  destruct (Z.lt_trichotomy i j) as [Hlt | [Heq | Hgt]]; [|exact Heq|].
  - specialize (Hfirst' i (conj (proj1 Hi) Hlt)).
    specialize (Hmin j Hj). lra.
  - specialize (Hfirst j (conj (proj1 Hj) Hgt)).
    specialize (Hmin' i Hi). lra.
Qed.

Section SolverFacts.

Variable julday : Z -> Z -> Z -> Q -> outcome Q.
Variable calc_ut : Q -> Z -> outcome (Q * Q * Q * Q * Q * Q).
Variable natal_positions : dict position.
Variable end_time : datetime.
Variables planet1 planet2 : string.
Variable aspect : aspect_data.
Variable timezone : Q.

Local Abbreviation orb_ :=
  (orb_at julday calc_ut natal_positions planet1 planet2 aspect timezone).
Local Abbreviation fine :=
  (fine_loop julday calc_ut natal_positions planet1 planet2 aspect timezone).
Local Abbreviation phase :=
  (fine_phase julday calc_ut natal_positions planet1 planet2 aspect timezone).
Local Abbreviation coarse :=
  (coarse_loop julday calc_ut natal_positions end_time
               planet1 planet2 aspect timezone).

(** *** The fine loop *)

Lemma best_so_far_step (fs : datetime) (o : Z -> Q) (j : Z)
    (bt : option datetime) (bo : ext_float) :
  0 <= j ->
  best_so_far fs o j bt bo ->
  best_so_far fs o (j + 1)
    (snd (if lt_ext (o j) bo
          then (Finite (o j), Some (fs + j * td_minutes 1))
          else (bo, bt)))
    (fst (if lt_ext (o j) bo
          then (Finite (o j), Some (fs + j * td_minutes 1))
          else (bo, bt))).
Proof.
  intros Hj [(H0 & Hbt & Hbo) | (b & (Hb & Hmin & Hfirst) & Hbt & Hbo)].
  - subst. cbn [lt_ext fst snd]. right. exists 0.
    split; [|split; reflexivity].
    split; [lia|]. split.
    + intros i Hi. replace i with 0 by lia. apply Qle_refl.
    + intros i Hi. lia.
  - subst bt bo. cbn [lt_ext]. right.
    destruct (Qlt_bool (o j) (o b)) eqn:E; cbn [fst snd].
    + apply Qlt_bool_iff in E. exists j.
      split; [|split; reflexivity].
      split; [lia|]. split.
      * intros i Hi. destruct (Z.eq_dec i j) as [-> | Hne]; [apply Qle_refl|].
        assert (Hle : (o b <= o i)%Q) by (apply Hmin; lia).
        lra.
      * intros i Hi.
        assert (Hle : (o b <= o i)%Q) by (apply Hmin; lia). lra.
    + apply Qlt_bool_false_iff in E. exists b.
      split; [|split; reflexivity].
      split; [lia|]. split.
      * intros i Hi. destruct (Z.eq_dec i j) as [-> | Hne]; [exact E|].
        apply Hmin. lia.
      * exact Hfirst.
Qed.

Section FineWindow.

Variables fs fe : datetime.
Variable n : Z.
Variable o : Z -> Q.

Hypothesis n_nonneg : 0 <= n.
Hypothesis last_sample : fs + n * td_minutes 1 <= fe < fs + (n + 1) * td_minutes 1.
Hypothesis fs_valid : 0 <= fs.
Hypothesis no_overflow : fs + (n + 1) * td_minutes 1 < datetime_limit.
Hypothesis probes : forall i, 0 <= i <= n -> orb_ (fs + i * td_minutes 1) = Ret (o i).

Lemma fine_loop_from (r : nat) :
  forall (j : Z) (bt : option datetime) (bo : ext_float) (fuel : nat),
    Z.of_nat r = n + 1 - j ->
    0 <= j ->
    (r < fuel)%nat ->
    best_so_far fs o j bt bo ->
    exists i0 : Z,
      fine fuel (fs + j * td_minutes 1) fe bt bo
      = Some (Ret (Some (fs + i0 * td_minutes 1)))
      /\ first_argmin o n i0.
Proof.
  rewrite td_minutes_1 in *.
  induction r as [|r IH]; intros j bt bo fuel Hr Hj Hfuel Hinv.
  - destruct fuel as [|fuel]; [lia|]. cbn [fine_loop].
    assert (Hcmp : (fs + j * 60000000 <=? fe) = false)
      by (apply Z.leb_gt; lia).
    rewrite Hcmp.
    destruct Hinv as [(H0 & _) | (b & Hb & Hbt & Hbo)]; [lia|].
    exists b. subst bt. rewrite td_minutes_1. split; [reflexivity|].
    replace n with (j - 1) by lia. exact Hb.
  - destruct fuel as [|fuel]; [lia|]. cbn [fine_loop].
    assert (Hcmp : (fs + j * 60000000 <=? fe) = true)
      by (apply Z.leb_le; lia).
    rewrite Hcmp, (probes j) by lia.
    pose proof (best_so_far_step fs o j bt bo Hj Hinv) as Hstep.
    rewrite td_minutes_1 in Hstep.
    destruct (lt_ext (o j) bo); cbn [fst snd] in Hstep;
      (rewrite td_minutes_1, dt_add_in_range by (rewrite datetime_limit_eq in *; lia));
      replace (fs + j * 60000000 + 60000000)
        with (fs + (j + 1) * 60000000) by lia;
      apply IH; try lia; exact Hstep.
Qed.

Lemma fine_loop_first_argmin (fuel : nat) :
  (Z.to_nat (n + 1) < fuel)%nat ->
  exists i0 : Z,
    fine fuel fs fe None PosInf = Some (Ret (Some (fs + i0 * td_minutes 1)))
    /\ first_argmin o n i0.
Proof.
  intros Hfuel.
  destruct (fine_loop_from (Z.to_nat (n + 1)) 0 None PosInf fuel)
    as (i0 & Hrun & Hmin); try lia.
  - left. auto.
  - exists i0. rewrite Z.mul_0_l, Z.add_0_r in Hrun. auto.
Qed.

End FineWindow.

Lemma fine_loop_keeps_best (fuel : nat) :
  forall (cur fe b : datetime) (bo : ext_float) (r : option datetime),
    fine fuel cur fe (Some b) bo = Some (Ret r) -> r <> None.
Proof.
  induction fuel as [|fuel IH]; intros cur fe b bo r H; [discriminate H|].
  cbn [fine_loop] in H.
  destruct (cur <=? fe); [|inversion H; discriminate].
  destruct (orb_ cur) as [c|e]; [|discriminate H].
  destruct (dt_add cur (td_minutes 1)) as [next|e];
    destruct (lt_ext c bo); try discriminate H; eapply IH; exact H.
Qed.

Lemma fine_loop_terminates (fe : datetime) (fuel : nat) :
  forall (cur : datetime) (bt : option datetime) (bo : ext_float),
    (Z.to_nat ((fe - cur) / td_minutes 1 + 1) < fuel)%nat ->
    fine fuel cur fe bt bo <> None.
Proof.
  rewrite td_minutes_1.
  induction fuel as [|fuel IH]; intros cur bt bo Hfuel; [lia|].
  cbn [fine_loop].
  destruct (cur <=? fe) eqn:Hcmp; [|congruence].
  apply Z.leb_le in Hcmp.
  destruct (orb_ cur) as [c|e]; [|congruence].
  destruct (dt_add cur (td_minutes 1)) as [next|e] eqn:Hadd;
    [|destruct (lt_ext c bo); congruence].
  apply dt_add_ret in Hadd as [-> _]. rewrite td_minutes_1.
  assert (Hdiv : (fe - (cur + 60000000)) / 60000000
                 = (fe - cur) / 60000000 - 1).
  { replace (fe - (cur + 60000000)) with (fe - cur + (-1) * 60000000) by lia.
    rewrite Z.div_add by lia. lia. }
  assert (Hpos : 0 <= (fe - cur) / 60000000)
    by (apply Z.div_pos; lia).
  destruct (lt_ext c bo); apply IH; rewrite Hdiv; lia.
Qed.

(** *** The fine phase *)

Lemma fine_phase_first_argmin (T : datetime) (o : Z -> Q) :
  0 <= T - td_hours 1 ->
  T + td_hours 1 + td_minutes 1 < datetime_limit ->
  (forall i, 0 <= i <= 120 ->
             orb_ (T - td_hours 1 + i * td_minutes 1) = Ret (o i)) ->
  exists i0 : Z,
    phase T = Some (Ret (Some (T - td_hours 1 + i0 * td_minutes 1)))
    /\ first_argmin o 120 i0.
Proof.
  intros Hlo Hhi Hprobes. unfold fine_phase, dt_sub.
  rewrite td_hours_1, td_minutes_1, datetime_limit_eq in *.
  rewrite !dt_add_in_range by (rewrite datetime_limit_eq; lia).
  unfold loop_fuel.
  replace (T + 3600000000 - (T + - (3600000000))) with 7200000000 by lia.
  change (Z.to_nat (7200000000 / 60000000 + 1)) with 121%nat.
  rewrite <- td_minutes_1.
  apply (fine_loop_first_argmin (T - 3600000000) (T + 3600000000) 120 o);
    rewrite ?td_minutes_1, ?datetime_limit_eq; try lia.
  exact Hprobes.
Qed.

Lemma fine_phase_not_absent (T : datetime) : phase T <> Some (Ret None).
Proof.
  unfold fine_phase, dt_sub.
  destruct (dt_add T (- td_hours 1)) as [fs|e] eqn:Hsub; [|congruence].
  destruct (dt_add T (td_hours 1)) as [fe|e] eqn:Hadd; [|congruence].
  apply dt_add_ret in Hsub as [-> _]. apply dt_add_ret in Hadd as [-> _].
  unfold loop_fuel. cbn [fine_loop].
  assert (Hcmp : (T + - td_hours 1 <=? T + td_hours 1) = true)
    by (apply Z.leb_le; rewrite td_hours_1; lia).
  rewrite Hcmp.
  destruct (orb_ (T + - td_hours 1)) as [c|e]; [|congruence].
  cbn [lt_ext].
  destruct (dt_add (T + - td_hours 1) (td_minutes 1)) as [next|e];
    [|congruence].
  intros H. apply fine_loop_keeps_best in H. apply H. reflexivity.
Qed.

Lemma fine_phase_terminates (T : datetime) : phase T <> None.
Proof.
  unfold fine_phase, dt_sub.
  destruct (dt_add T (- td_hours 1)) as [fs|e]; [|congruence].
  destruct (dt_add T (td_hours 1)) as [fe|e]; [|congruence].
  apply fine_loop_terminates. unfold loop_fuel. lia.
Qed.

(** Within an hour of the first representable datetime the window cannot be
    built: [T - timedelta(hours=1)] raises. *)
Lemma fine_phase_underflow (T : datetime) :
  T - td_hours 1 < 0 -> phase T = Some (Raise OverflowError).
Proof.
  intros H. unfold fine_phase, dt_sub, dt_add.
  replace (T + - td_hours 1) with (T - td_hours 1) by lia.
  apply Z.leb_gt in H. rewrite H. reflexivity.
Qed.

(** *** The coarse loop *)

Lemma coarse_loop_reaches_trigger (start : datetime) (k : Z) (c : Z -> Q) :
  0 <= start -> end_time < datetime_limit ->
  start + k * td_hours 1 <= end_time ->
  (forall j, 0 <= j < k ->
             orb_ (start + j * td_hours 1) = Ret (c j) /\ (1 # 10 <= c j)%Q) ->
  orb_ (start + k * td_hours 1) = Ret (c k) ->
  (c k < 1 # 10)%Q ->
  forall (r : nat) (j : Z) (fuel : nat),
    Z.of_nat r = k - j -> 0 <= j -> (r < fuel)%nat ->
    coarse fuel (start + j * td_hours 1) = phase (start + k * td_hours 1).
Proof.
  rewrite td_hours_1. intros Hstart Hend Hk Hbefore Hat Hlt.
  induction r as [|r IH]; intros j fuel Hr Hj Hfuel;
    (destruct fuel as [|fuel]; [lia|]); cbn [coarse_loop].
  - replace j with k by lia.
    assert (Hcmp : (start + k * 3600000000 <=? end_time) = true)
      by (apply Z.leb_le; lia).
    rewrite Hcmp, Hat.
    apply Qlt_bool_iff in Hlt. rewrite Hlt. reflexivity.
  - assert (Hcmp : (start + j * 3600000000 <=? end_time) = true)
      by (apply Z.leb_le; lia).
    destruct (Hbefore j) as [Hj_orb Hj_ge]; [lia|].
    rewrite Hcmp, Hj_orb.
    apply Qlt_bool_false_iff in Hj_ge. rewrite Hj_ge.
    rewrite td_hours_1, dt_add_in_range by lia.
    replace (start + j * 3600000000 + 3600000000)
      with (start + (j + 1) * 3600000000) by lia.
    apply IH; lia.
Qed.

Lemma coarse_loop_exhausts (fuel : nat) :
  forall cur : datetime,
    0 <= cur -> end_time + td_hours 1 < datetime_limit ->
    (forall j, 0 <= j -> cur + j * td_hours 1 <= end_time ->
               exists c : Q,
                 orb_ (cur + j * td_hours 1) = Ret c /\ (1 # 10 <= c)%Q) ->
    (Z.to_nat ((end_time - cur) / td_hours 1 + 1) < fuel)%nat ->
    coarse fuel cur = Some (Ret None).
Proof.
  rewrite td_hours_1.
  induction fuel as [|fuel IH]; intros cur Hcur Hend Hsamples Hfuel; [lia|].
  cbn [coarse_loop].
  destruct (cur <=? end_time) eqn:Hcmp; [|reflexivity].
  apply Z.leb_le in Hcmp.
  destruct (Hsamples 0) as (c & Horb & Hge); [lia | lia|].
  rewrite Z.mul_0_l, Z.add_0_r in Horb. rewrite Horb.
  apply Qlt_bool_false_iff in Hge. rewrite Hge.
  rewrite td_hours_1, dt_add_in_range by lia.
  assert (Hdiv : (end_time - (cur + 3600000000)) / 3600000000
                 = (end_time - cur) / 3600000000 - 1).
  { replace (end_time - (cur + 3600000000))
      with (end_time - cur + (-1) * 3600000000) by lia.
    rewrite Z.div_add by lia. lia. }
  assert (Hpos : 0 <= (end_time - cur) / 3600000000)
    by (apply Z.div_pos; lia).
  apply IH; try lia.
  intros j Hj Hle.
  replace (cur + 3600000000 + j * 3600000000)
    with (cur + (j + 1) * 3600000000) in * by lia.
  apply Hsamples; lia.
Qed.

Lemma coarse_loop_absent_samples (fuel : nat) :
  forall cur : datetime,
    coarse fuel cur = Some (Ret None) ->
    forall j, 0 <= j -> cur + j * td_hours 1 <= end_time ->
              exists c : Q,
                orb_ (cur + j * td_hours 1) = Ret c /\ (1 # 10 <= c)%Q.
Proof.
  rewrite td_hours_1.
  induction fuel as [|fuel IH]; intros cur Hrun j Hj Hle; [discriminate Hrun|].
  cbn [coarse_loop] in Hrun.
  destruct (cur <=? end_time) eqn:Hcmp;
    [|apply Z.leb_gt in Hcmp; lia].
  destruct (orb_ cur) as [c|e] eqn:Horb; [|discriminate Hrun].
  destruct (Qlt_bool c (1 # 10)) eqn:Hlt;
    [exfalso; exact (fine_phase_not_absent cur Hrun)|].
  destruct (dt_add cur (td_hours 1)) as [next|e] eqn:Hadd;
    [|discriminate Hrun].
  apply dt_add_ret in Hadd as [-> _]. rewrite td_hours_1 in *.
  destruct (Z.eq_dec j 0) as [-> | Hne].
  - rewrite Z.mul_0_l, Z.add_0_r. exists c.
    split; [exact Horb|]. apply Qlt_bool_false_iff. exact Hlt.
  - replace (cur + j * 3600000000)
      with (cur + 3600000000 + (j - 1) * 3600000000) by lia.
    apply IH; [exact Hrun | lia | lia].
Qed.

Lemma coarse_loop_terminates (fuel : nat) :
  forall cur : datetime,
    (Z.to_nat ((end_time - cur) / td_hours 1 + 1) < fuel)%nat ->
    coarse fuel cur <> None.
Proof.
  rewrite td_hours_1.
  induction fuel as [|fuel IH]; intros cur Hfuel; [lia|].
  cbn [coarse_loop].
  destruct (cur <=? end_time) eqn:Hcmp; [|congruence].
  apply Z.leb_le in Hcmp.
  destruct (orb_ cur) as [c|e]; [|congruence].
  destruct (Qlt_bool c (1 # 10)); [apply fine_phase_terminates|].
  destruct (dt_add cur (td_hours 1)) as [next|e] eqn:Hadd; [|congruence].
  apply dt_add_ret in Hadd as [-> _]. rewrite td_hours_1.
  assert (Hdiv : (end_time - (cur + 3600000000)) / 3600000000
                 = (end_time - cur) / 3600000000 - 1).
  { replace (end_time - (cur + 3600000000))
      with (end_time - cur + (-1) * 3600000000) by lia.
    rewrite Z.div_add by lia. lia. }
  assert (Hpos : 0 <= (end_time - cur) / 3600000000)
    by (apply Z.div_pos; lia).
  apply IH. rewrite Hdiv. lia.
Qed.

End SolverFacts.

(** *** The solver *)

(** X22: every call of [find_exact_aspect_time] returns or raises, for
    every Provider and every window: neither loop runs out of fuel. *)
Lemma find_exact_aspect_time_terminates
    (julday : Z -> Z -> Z -> Q -> outcome Q)
    (calc_ut : Q -> Z -> outcome (Q * Q * Q * Q * Q * Q))
    (natal : dict position) (start_time end_time : datetime)
    (planet1 planet2 aspect_name : string) (tz : Q) :
  find_exact_aspect_time julday calc_ut natal start_time end_time
                         planet1 planet2 aspect_name tz <> None.
Proof.
  unfold find_exact_aspect_time.
  destruct (dict_get ASPECTS aspect_name) as [aspect|e]; [|congruence].
  apply coarse_loop_terminates. unfold loop_fuel. lia.
Qed.

Lemma measured_orb_iff
    (julday : Z -> Z -> Z -> Q -> outcome Q)
    (calc_ut : Q -> Z -> outcome (Q * Q * Q * Q * Q * Q))
    (natal : dict position) (planet1 planet2 : string)
    (aspect : aspect_data) (tz : Q) (t : datetime) (c : Q) :
  measured_orb julday calc_ut natal planet1 planet2 aspect tz t c
  <-> orb_at julday calc_ut natal planet1 planet2 aspect tz t = Ret c.
Proof.
  unfold measured_orb, orb_at, dict_get. split.
  - intros (jd & transit & p1 & p2 & Hjd & Htr & Hp1 & Hp2 & ->).
    rewrite Hjd. cbn [bind]. rewrite Htr. cbn [bind].
    rewrite Hp1. cbn [bind]. rewrite Hp2. reflexivity.
  - intros H.
    destruct (compute_julian_day julday t tz) as [jd|e] eqn:Hjd;
      [|discriminate H].
    cbn [bind] in H.
    destruct (calculate_planetary_positions calc_ut jd) as [transit|e] eqn:Htr;
      [|discriminate H].
    cbn [bind] in H.
    destruct (dict_find natal planet1) as [p1|] eqn:Hp1; [|discriminate H].
    cbn [bind] in H.
    destruct (dict_find transit planet2) as [p2|] eqn:Hp2; [|discriminate H].
    cbn [bind] in H. inversion H.
    exists jd, transit, p1, p2. repeat split; congruence.
Qed.

Section SolverContract.

Variable julday : Z -> Z -> Z -> Q -> outcome Q.
Variable calc_ut : Q -> Z -> outcome (Q * Q * Q * Q * Q * Q).
Variable natal : dict position.
Variables start_time end_time : datetime.
Variables planet1 planet2 aspect_name : string.
Variable tz : Q.
Variable aspect : aspect_data.

Hypothesis known_aspect : dict_get ASPECTS aspect_name = Ret aspect.

Local Abbreviation orb_ :=
  (orb_at julday calc_ut natal planet1 planet2 aspect tz).
Local Abbreviation solve :=
  (find_exact_aspect_time julday calc_ut natal start_time end_time
                          planet1 planet2 aspect_name tz).

Local Abbreviation first_trigger_ :=
  (first_trigger julday calc_ut natal start_time end_time
                 planet1 planet2 aspect tz).
Local Abbreviation fine_window_ :=
  (fine_window julday calc_ut natal planet1 planet2 aspect tz).
Local Abbreviation measured_ :=
  (measured_orb julday calc_ut natal planet1 planet2 aspect tz).

Lemma solve_enters_fine_phase (k : Z) :
  first_trigger_ k ->
  solve = fine_phase julday calc_ut natal planet1 planet2 aspect tz
                     (start_time + k * td_hours 1).
Proof.
  intros ((Hs0 & Hs1) & (He0 & He1) & Hk & Hle & Hbefore & (cT & HcT & Hlt)).
  unfold find_exact_aspect_time. rewrite known_aspect.
  set (c := fun j : Z =>
              match orb_ (start_time + j * td_hours 1) with
              | Ret q => q
              | Raise _ => 0%Q
              end).
  replace start_time with (start_time + 0 * td_hours 1) at 2 by lia.
  apply (coarse_loop_reaches_trigger julday calc_ut natal end_time
           planet1 planet2 aspect tz start_time k c)
    with (r := Z.to_nat k); try lia; try assumption.
  - intros j Hj. destruct (Hbefore j Hj) as (q & Hq & Hge).
    unfold c. rewrite Hq. auto.
  - unfold c. rewrite HcT. reflexivity.
  - unfold c. rewrite HcT. exact Hlt.
  - unfold loop_fuel. rewrite td_hours_1 in *.
    assert (k <= (end_time - start_time) / 3600000000)
      by (apply Z.div_le_lower_bound; lia).
    lia.
Qed.

Lemma solve_first_argmin (k : Z) (o : Z -> Q) :
  first_trigger_ k ->
  fine_window_ (start_time + k * td_hours 1) o ->
  exists i0 : Z,
    solve = Some (Ret (Some (start_time + k * td_hours 1 - td_hours 1
                             + i0 * td_minutes 1)))
    /\ first_argmin o 120 i0.
Proof.
  intros Htrig (Hlo & Hhi & Hprobes).
  rewrite (solve_enters_fine_phase k Htrig).
  apply fine_phase_first_argmin; assumption.
Qed.

(** C1: the two-phase structure.  The solver probes start, start + 1h,
    start + 2h, ... up to end_time, and the orb it measures at a probe is
    that of [calculate_aspect_orb] between the natal longitude of planet1
    and the longitude of planet2 in the positions computed for the Julian
    Day of the probe, for the angle of the target aspect.  At the first
    probe T whose orb is strictly below 0.1 degrees it scans T - 1h,
    T - 1h + 1min, ..., T + 1h and returns a probe of that window whose orb
    is least among the 121 probed, whatever the orbs of the coarse samples
    after T. *)
Theorem find_exact_aspect_time_two_phase (k : Z) (o : Z -> Q) :
  valid_datetime start_time -> valid_datetime end_time ->
  0 <= k -> start_time + k * td_hours 1 <= end_time ->
  (forall j, 0 <= j < k ->
             exists c : Q,
               measured_ (start_time + j * td_hours 1) c /\ (1 # 10 <= c)%Q) ->
  (exists c : Q,
      measured_ (start_time + k * td_hours 1) c /\ (c < 1 # 10)%Q) ->
  0 <= start_time + k * td_hours 1 - td_hours 1 ->
  start_time + k * td_hours 1 + td_hours 1 + td_minutes 1 < datetime_limit ->
  (forall i, 0 <= i <= 120 ->
             measured_ (start_time + k * td_hours 1 - td_hours 1
                        + i * td_minutes 1) (o i)) ->
  exists i0 : Z,
    0 <= i0 <= 120
    /\ solve = Some (Ret (Some (start_time + k * td_hours 1 - td_hours 1
                                + i0 * td_minutes 1)))
    /\ forall i, 0 <= i <= 120 -> (o i0 <= o i)%Q.
Proof.
  intros Hstart Hend Hk Hle Hbefore (cT & HcT & Hlt) Hlo Hhi Hprobes.
  assert (Htrig : first_trigger_ k).
  { repeat (split; [assumption|]). split.
    - intros j Hj. destruct (Hbefore j Hj) as (c & Hc & Hge).
      exists c. split; [apply measured_orb_iff; exact Hc | exact Hge].
    - exists cT. split; [apply measured_orb_iff; exact HcT | exact Hlt]. }
  assert (Hwin : fine_window_ (start_time + k * td_hours 1) o).
  { split; [exact Hlo|]. split; [exact Hhi|].
    intros i Hi. apply measured_orb_iff. apply Hprobes. exact Hi. }
  destruct (solve_first_argmin k o Htrig Hwin) as (i0 & Hrun & Hi0 & Hmin & _).
  exists i0. auto.
Qed.

(** C10: once the coarse loop has triggered at T the solver never
    returns an absent result; when the probes of the fine window succeed it
    returns a timestamp, and of the probes that attain the least orb it
    returns the earliest: every earlier probe has a strictly larger orb. *)
Theorem find_exact_aspect_time_earliest_minimum (k : Z) :
  first_trigger_ k ->
  solve <> Some (Ret None)
  /\ forall o : Z -> Q,
       fine_window_ (start_time + k * td_hours 1) o ->
       exists i0 : Z,
         0 <= i0 <= 120
         /\ solve = Some (Ret (Some (start_time + k * td_hours 1 - td_hours 1
                                     + i0 * td_minutes 1)))
         /\ (forall i, 0 <= i <= 120 -> (o i0 <= o i)%Q)
         /\ (forall i, 0 <= i < i0 -> (o i0 < o i)%Q)
         /\ (forall i, 0 <= i <= 120 -> (o i == o i0)%Q -> i0 <= i).
Proof.
  intros Htrig. split.
  - rewrite (solve_enters_fine_phase k Htrig). apply fine_phase_not_absent.
  - intros o Hwin.
    destruct (solve_first_argmin k o Htrig Hwin)
      as (i0 & Hrun & Hi0 & Hmin & Hfirst).
    exists i0. repeat split; try lia; try assumption.
    intros i Hi Heq.
    destruct (Z_lt_le_dec i i0) as [Hlt | Hle]; [|exact Hle].
    specialize (Hfirst i (conj (proj1 Hi) Hlt)). lra.
Qed.

(** C3: the solver returns [None], and does not raise, exactly when every
    coarse sample start, start + 1h, ... up to end_time has an orb of at
    least 0.1 degrees (with the stepping inside the datetime range). *)
Theorem find_exact_aspect_time_absent_iff :
  valid_datetime start_time ->
  end_time + td_hours 1 < datetime_limit ->
  (solve = Some (Ret None)
   <-> forall j, 0 <= j -> start_time + j * td_hours 1 <= end_time ->
                 exists c : Q,
                   orb_ (start_time + j * td_hours 1) = Ret c
                   /\ (1 # 10 <= c)%Q).
Proof.
  intros [Hs0 Hs1] Hend.
  unfold find_exact_aspect_time. rewrite known_aspect. split.
  - apply coarse_loop_absent_samples.
  - intros Hsamples. apply coarse_loop_exhausts; try assumption.
    unfold loop_fuel. lia.
Qed.

End SolverContract.

(** * Worked examples *)

Ltac nodup_keys :=
  unfold keys; cbn [map fst];
  repeat (apply NoDup_cons;
          [cbn [In]; intros H;
           repeat (destruct H as [H | H]; [discriminate H|]); exact H|]);
  apply NoDup_nil.

(** Natal Sun at 10 degrees, transiting Sun at 190: the opposition is
    reported, and it is the only match of that pair. *)
Lemma find_aspects_cross_product_witness :
  find_aspects natal_sun_10 transit_sun_moon None
  = map match_of
        (filter (qualifies None) (cross_product natal_sun_10 transit_sun_moon))
  /\ In (match_of (("Sun", sun_at 10 1), ("Sun", sun_at 190 1),
                   ("opposition", {| angle := 180; orb := 8 |}))%string)
        (find_aspects natal_sun_10 transit_sun_moon None).
Proof.
  destruct (find_aspects_cross_product natal_sun_10 transit_sun_moon None)
    as (Heq & _ & Hin & Hiff & _).
  split; [exact Heq|].
  apply Hiff.
  - apply Hin. cbn. auto 10.
  - split; [vm_compute; discriminate | left; reflexivity].
Defined.

Lemma find_aspects_one_aspect_per_pair_witness :
  (List.length (filter (same_pair "Sun" "Sun")
                       (find_aspects natal_sun_10 transit_sun_moon None))
   <= 1)%nat.
Proof.
  apply (find_aspects_one_aspect_per_pair natal_sun_10 transit_sun_moon None);
    nodup_keys.
Defined.

Lemma known_conjunction : dict_get ASPECTS "conjunction" = Ret conjunction.
Proof. reflexivity. Qed.

Lemma window_trigger :
  first_trigger julday_gregorian linear_calc_ut natal_met
                window_start window_end "Sun" "Moon" conjunction 0 2.
Proof.
  unfold first_trigger, valid_datetime, window_start, window_end.
  rewrite datetime_limit_eq, td_hours_1.
  repeat (split; [lia|]). split.
  - intros j Hj.
    exists (example_orb natal_met (63082281600000000 + j * 3600000000)).
    assert (Hcases : j = 0 \/ j = 1) by lia.
    destruct Hcases; subst j;
      (split; [vm_compute; reflexivity | vm_compute; discriminate]).
  - exists (example_orb natal_met (63082281600000000 + 2 * 3600000000)).
    split; vm_compute; reflexivity.
Qed.

Lemma window_probes :
  fine_window julday_gregorian linear_calc_ut natal_met "Sun" "Moon"
              conjunction 0 (window_start + 2 * td_hours 1)
              (fun i => example_orb natal_met
                          (window_start + 2 * td_hours 1 - td_hours 1
                           + i * td_minutes 1)).
Proof.
  unfold fine_window, window_start.
  rewrite datetime_limit_eq, td_hours_1, td_minutes_1.
  repeat (split; [lia|]).
  intros i Hi. unfold example_orb.
  pose proof (forallb_range
                (fun i => is_ret (orb_at julday_gregorian linear_calc_ut
                                         natal_met "Sun" "Moon" conjunction 0
                                         (63082281600000000 + 2 * 3600000000
                                          - 3600000000 + i * 60000000)))
                120) as Hall.
  cbv beta in Hall. specialize (Hall ltac:(vm_compute; reflexivity) i Hi).
  destruct (orb_at _ _ _ _ _ _ _ _) as [q|e]; [reflexivity | discriminate Hall].
Qed.

Lemma returns_fraction_eq (x : outcome Q) (q : Q) :
  returns_fraction x q = true -> x = Ret q.
Proof.
  destruct x as [[rn rd]|e], q as [qn qd]; cbn; [|discriminate].
  intros H. apply andb_true_iff in H as [Hn Hd].
  apply Z.eqb_eq in Hn. apply Pos.eqb_eq in Hd. subst. reflexivity.
Qed.

Lemma known_square : dict_get ASPECTS "square" = Ret square.
Proof. reflexivity. Qed.

(** On the example Provider the orb measured for the Sun-Moon square is
    [square_orb], at every hour of the window and every minute of the fine
    scan. *)
Lemma east_coarse_orbs (j : Z) :
  0 <= j <= 2 ->
  measured_orb julday_gregorian linear_calc_ut natal_squared "Sun" "Moon"
               square 2 (east_start + j * td_hours 1)
               (square_orb (east_start + j * td_hours 1)).
Proof.
  intros Hj. apply measured_orb_iff. apply returns_fraction_eq.
  pose proof (forallb_range
                (fun j => returns_fraction
                            (orb_at julday_gregorian linear_calc_ut
                                    natal_squared "Sun" "Moon" square 2
                                    (east_start + j * td_hours 1))
                            (square_orb (east_start + j * td_hours 1)))
                2) as Hall.
  cbv beta in Hall. apply Hall; [vm_compute; reflexivity | exact Hj].
Qed.

Lemma east_fine_orbs (i : Z) :
  0 <= i <= 120 ->
  measured_orb julday_gregorian linear_calc_ut natal_squared "Sun" "Moon"
               square 2 (east_probe i) (square_orb (east_probe i)).
Proof.
  intros Hi. apply measured_orb_iff. apply returns_fraction_eq.
  pose proof (forallb_range
                (fun i => returns_fraction
                            (orb_at julday_gregorian linear_calc_ut
                                    natal_squared "Sun" "Moon" square 2
                                    (east_probe i))
                            (square_orb (east_probe i)))
                120) as Hall.
  cbv beta in Hall. apply Hall; [vm_compute; reflexivity | exact Hi].
Qed.

Lemma find_exact_aspect_time_two_phase_witness :
  exists i0 : Z,
    0 <= i0 <= 120
    /\ find_exact_aspect_time julday_gregorian linear_calc_ut natal_squared
         east_start east_end "Sun" "Moon" "square" 2
       = Some (Ret (Some (east_start + 2 * td_hours 1 - td_hours 1
                          + i0 * td_minutes 1)))
    /\ forall i, 0 <= i <= 120 ->
                 (square_orb (east_probe i0) <= square_orb (east_probe i))%Q.
Proof.
  apply (find_exact_aspect_time_two_phase
           julday_gregorian linear_calc_ut natal_squared
           east_start east_end "Sun" "Moon" "square" 2
           square known_square 2 (fun i => square_orb (east_probe i))).
  - unfold valid_datetime, east_start. rewrite datetime_limit_eq. lia.
  - unfold valid_datetime, east_end. rewrite datetime_limit_eq. lia.
  - lia.
  - unfold east_start, east_end. rewrite td_hours_1. lia.
  - intros j Hj. exists (square_orb (east_start + j * td_hours 1)).
    split; [apply east_coarse_orbs; lia|].
    assert (Hcases : j = 0 \/ j = 1) by lia.
    destruct Hcases; subst j; vm_compute; discriminate.
  - exists (square_orb (east_start + 2 * td_hours 1)).
    split; [apply east_coarse_orbs; lia | vm_compute; reflexivity].
  - unfold east_start. rewrite td_hours_1. lia.
  - unfold east_start. rewrite datetime_limit_eq, td_hours_1, td_minutes_1. lia.
  - exact east_fine_orbs.
Defined.

Lemma find_exact_aspect_time_earliest_minimum_witness :
  find_exact_aspect_time julday_gregorian linear_calc_ut natal_met
    window_start window_end "Sun" "Moon" "conjunction" 0
  <> Some (Ret None)
  /\ exists i0 : Z,
       0 <= i0 <= 120
       /\ find_exact_aspect_time julday_gregorian linear_calc_ut natal_met
            window_start window_end "Sun" "Moon" "conjunction" 0
          = Some (Ret (Some (window_start + 2 * td_hours 1 - td_hours 1
                             + i0 * td_minutes 1)))
       /\ forall i, 0 <= i < i0 ->
                    (example_orb natal_met (example_probe i0)
                     < example_orb natal_met (example_probe i))%Q.
Proof.
  destruct (find_exact_aspect_time_earliest_minimum
              julday_gregorian linear_calc_ut natal_met
              window_start window_end "Sun" "Moon" "conjunction" 0
              conjunction known_conjunction 2 window_trigger)
    as [Hpresent Hearliest].
  split; [exact Hpresent|].
  destruct (Hearliest _ window_probes) as (i0 & Hi0 & Hrun & _ & Hfirst & _).
  exists i0. split; [exact Hi0|]. split; [exact Hrun | exact Hfirst].
Defined.

Lemma find_exact_aspect_time_absent_iff_witness :
  find_exact_aspect_time julday_gregorian linear_calc_ut natal_missed
    window_start window_end "Sun" "Moon" "conjunction" 0
  = Some (Ret None).
Proof.
  apply (find_exact_aspect_time_absent_iff
           julday_gregorian linear_calc_ut natal_missed
           window_start window_end "Sun" "Moon" "conjunction" 0
           conjunction known_conjunction).
  - unfold valid_datetime, window_start. rewrite datetime_limit_eq. lia.
  - unfold window_end. rewrite datetime_limit_eq, td_hours_1. lia.
  - unfold window_start, window_end. rewrite td_hours_1. intros j Hj Hle.
    exists (example_orb natal_missed (63082281600000000 + j * 3600000000)).
    assert (Hcases : j = 0 \/ j = 1 \/ j = 2 \/ j = 3 \/ j = 4 \/ j = 5 \/ j = 6)
      by lia.
    repeat (destruct Hcases as [Hcases | Hcases];
            [subst j;
             split; [vm_compute; reflexivity | vm_compute; discriminate]|]).
    subst j. split; [vm_compute; reflexivity | vm_compute; discriminate].
Defined.

(** The crossing of the linear Moon over the natal Sun falls at 02:02: the
    coarse loop triggers at 02:00 and the fine scan of 01:00..03:00 returns
    02:02. *)
Example solver_finds_crossing :
  find_exact_aspect_time julday_gregorian linear_calc_ut natal_met
    window_start window_end "Sun" "Moon" "conjunction" 0
  = Some (Ret (Some (mk_datetime 2000 1 1 2 2 0 0))).
Proof. vm_compute. reflexivity. Qed.

(** The square is exact at 04:02 civil time, 02:02 UTC. *)
Example solver_finds_square :
  find_exact_aspect_time julday_gregorian linear_calc_ut natal_squared
    east_start east_end "Sun" "Moon" "square" 2
  = Some (Ret (Some (mk_datetime 2000 1 1 4 2 0 0))).
Proof. vm_compute. reflexivity. Qed.

(** With every probe at the same orb the first probe of the window, one
    hour before the trigger, is returned. *)
Example solver_tie_returns_first_probe :
  find_exact_aspect_time julday_gregorian still_calc_ut natal_origin
    window_start window_end "Sun" "Moon" "conjunction" 0
  = Some (Ret (Some (mk_datetime 1999 12 31 23 0 0 0))).
Proof. vm_compute. reflexivity. Qed.

(** An aspect name outside the catalog raises [KeyError] before any probe. *)
Example solver_unknown_aspect :
  find_exact_aspect_time julday_gregorian linear_calc_ut natal_met
    window_start window_end "Sun" "Moon" "septile" 0
  = Some (Raise KeyError).
Proof. reflexivity. Qed.

(** Natal Sun at 10 degrees: a transiting Sun at 190 degrees is in exact
    opposition, a retrograde Moon at 100 degrees in exact square, and
    nothing else is reported. *)
Example find_aspects_opposition_and_square :
  find_aspects natal_sun_10 transit_sun_moon None
  = [ {| m_planet1 := "Sun"; m_planet2 := "Sun"; m_aspect := "opposition";
         m_orb := 0; m_exact_angle := 180;
         m_planet1_retrograde := false; m_planet2_retrograde := false |};
      {| m_planet1 := "Sun"; m_planet2 := "Moon"; m_aspect := "square";
         m_orb := 0; m_exact_angle := 90;
         m_planet1_retrograde := false; m_planet2_retrograde := true |} ]%string.
Proof. vm_compute. reflexivity. Qed.

(** Zero speed is not retrograde. *)
Example is_retrograde_strict :
  is_retrograde (sun_at 0 (-1 # 2)) = true
  /\ is_retrograde (sun_at 0 0) = false
  /\ is_retrograde (sun_at 0 (1 # 2)) = false.
Proof. repeat split. Qed.

(** * Further properties *)

(** ** [calculate_aspect_orb] *)

Lemma py_min_cases (a b : Q) :
  (Qlt b a /\ py_min a b = b) \/ (Qle a b /\ py_min a b = a).
Proof.
  unfold py_min. destruct (Qlt_bool b a) eqn:E.
  - left. apply Qlt_bool_iff in E. auto.
  - right. apply Qlt_bool_false_iff in E. auto.
Qed.

(** X1: the orb is never negative, and for longitudes in [0, 360) and a
    target angle in [0, 180] it is at most 180 degrees. *)
Theorem calculate_aspect_orb_bounds (a b t : Q) :
  (0 <= calculate_aspect_orb a b t)%Q
  /\ ((0 <= a)%Q -> (a < 360)%Q -> (0 <= b)%Q -> (b < 360)%Q ->
      (0 <= t)%Q -> (t <= 180)%Q ->
      (calculate_aspect_orb a b t <= 180)%Q).
Proof.
  split; [apply Qabs_nonneg|].
  intros Ha0 Ha Hb0 Hb Ht0 Ht. unfold calculate_aspect_orb.
  assert (Hd0 : (0 <= Qabs (a - b))%Q) by apply Qabs_nonneg.
  assert (Hd : (Qabs (a - b) <= 360)%Q)
    by (apply Qabs_Qle_condition; split; lra).
  apply Qabs_Qle_condition.
  destruct (py_min_cases (Qabs (a - b)) (360 - Qabs (a - b)))
    as [[Hlt ->] | [Hle ->]]; split; lra.
Qed.

Lemma calculate_aspect_orb_bounds_witness :
  (calculate_aspect_orb 359 1 0 <= 180)%Q.
Proof.
  apply (calculate_aspect_orb_bounds 359 1 0); unfold Qle, Qlt; cbn; lia.
Defined.



(** ** [find_aspects] *)

Lemma m_orb_match_of (tr : triple) : m_orb (match_of tr) = triple_orb tr.
Proof. destruct tr as [[[k1 p1] [k2 p2]] [n d]]. reflexivity. Qed.

Lemma filter_filter {A : Type} (p q : A -> bool) (l : list A) :
  filter p (filter q l) = filter (fun x => q x && p x) l.
Proof.
  induction l as [|x l IH]; [reflexivity|].
  cbn [filter]. destruct (q x); cbn [filter andb]; rewrite IH; reflexivity.
Qed.

Lemma qualifies_some (m : Q) (tr : triple) :
  qualifies (Some m) tr = qualifies None tr && Qle_bool (triple_orb tr) m.
Proof.
  destruct tr as [[[k1 p1] [k2 p2]] [n d]]. unfold qualifies.
  rewrite andb_true_r. reflexivity.
Qed.

Lemma find_aspects_max_orb_filter (set_a set_b : dict position) (m : Q) :
  find_aspects set_a set_b (Some m)
  = filter (fun x => Qle_bool (m_orb x) m) (find_aspects set_a set_b None).
Proof.
  rewrite !find_aspects_filter_map, filter_map_swap, filter_filter.
  f_equal. apply filter_ext. intros tr.
  rewrite qualifies_some, m_orb_match_of. reflexivity.
Qed.

Lemma qualifies_orb_bounds (max_orb : option Q) (tr : triple) :
  In tr (cross_product (fst (fst tr) :: nil) (snd (fst tr) :: nil)) ->
  qualifies max_orb tr = true ->
  (0 <= triple_orb tr)%Q /\ (triple_orb tr <= 8)%Q.
Proof.
  destruct tr as [[[k1 p1] [k2 p2]] [n d]]. cbn [fst snd].
  intros Hin Hq. apply in_cross_product in Hin as (_ & _ & Hc).
  apply qualifies_iff in Hq as [Hq _].
  split; [apply Qabs_nonneg|].
  eapply Qle_trans; [exact Hq|].
  unfold ASPECTS in Hc. cbn [In] in Hc.
  repeat (destruct Hc as [Hc | Hc];
          [inversion Hc; subst; unfold Qle; cbn; lia|]).
  contradiction.
Qed.

(** X3: giving [max_orb] only removes matches: the result is the result
    without [max_orb] filtered by [orb <= max_orb], in the same order. *)
Theorem find_aspects_max_orb_is_filter (set_a set_b : dict position) (m : Q) :
  find_aspects set_a set_b (Some m)
  = filter (fun x => Qle_bool (m_orb x) m) (find_aspects set_a set_b None).
Proof.
  rewrite find_aspects_max_orb_filter. reflexivity.
Qed.

Lemma find_aspects_orb_range (set_a set_b : dict position)
    (max_orb : option Q) (x : aspect_match) :
  In x (find_aspects set_a set_b max_orb) ->
  (0 <= m_orb x)%Q /\ (m_orb x <= 8)%Q.
Proof.
  rewrite find_aspects_filter_map. intros Hin.
  apply in_map_iff in Hin as (tr & <- & Htr).
  apply filter_In in Htr as [Htr Hq].
  rewrite m_orb_match_of.
  apply (qualifies_orb_bounds max_orb); [|exact Hq].
  destruct tr as [[a b] c]. cbn [fst snd].
  apply in_cross_product in Htr as (_ & _ & Hc).
  apply in_cross_product. cbn [In]. auto.
Qed.

(** X4: thresholds of [max_orb].  The widest catalog orb is 8 degrees, so a
    [max_orb] of 8 or more changes nothing; a negative [max_orb] rejects
    every pair. *)
Theorem find_aspects_max_orb_thresholds
    (set_a set_b : dict position) (m : Q) :
  ((8 <= m)%Q ->
   find_aspects set_a set_b (Some m) = find_aspects set_a set_b None)
  /\ ((m < 0)%Q -> find_aspects set_a set_b (Some m) = []).
Proof.
  rewrite find_aspects_max_orb_filter. split; intros Hm.
  - assert (Hall : forall l : list aspect_match,
               (forall x, In x l -> (m_orb x <= 8)%Q) ->
               filter (fun x => Qle_bool (m_orb x) m) l = l).
    { induction l as [|x l IH]; intros H; [reflexivity|].
      cbn [filter].
      assert (Hx : Qle_bool (m_orb x) m = true).
      { apply Qle_bool_iff. eapply Qle_trans; [|exact Hm].
        apply H. left. reflexivity. }
      rewrite Hx, IH; [reflexivity|].
      intros y Hy. apply H. right. exact Hy. }
    apply Hall. intros x Hx.
    apply (find_aspects_orb_range set_a set_b None x Hx).
  - apply filter_none. intros x Hx.
    apply (find_aspects_orb_range set_a set_b None) in Hx as [H0 _].
    destruct (Qle_bool (m_orb x) m) eqn:E; [|reflexivity].
    apply Qle_bool_iff in E. lra.
Qed.

Lemma find_aspects_max_orb_thresholds_witness :
  find_aspects natal_sun_10 transit_sun_moon (Some 8%Q)
  = find_aspects natal_sun_10 transit_sun_moon None
  /\ find_aspects natal_sun_10 transit_sun_moon (Some (-1 # 2)%Q) = [].
Proof.
  split.
  - apply (find_aspects_max_orb_thresholds natal_sun_10 transit_sun_moon 8%Q).
    unfold Qle; cbn; lia.
  - apply (find_aspects_max_orb_thresholds natal_sun_10 transit_sun_moon (-1 # 2)%Q).
    unfold Qlt; cbn; lia.
Defined.

Lemma NoDup_keys_ASPECTS : NoDup (keys ASPECTS).
Proof.
  unfold keys, ASPECTS; cbn [map fst].
  repeat (apply NoDup_cons;
          [cbn [In]; intros H;
           repeat (destruct H as [H | H]; [discriminate H|]); exact H|]).
  apply NoDup_nil.
Qed.

(** X5: what a reported match holds.  Its bodies are keys of the two
    inputs, its aspect is a catalog entry whose angle is the match's
    [exact_angle], its orb is the orb of the two longitudes for that angle
    and lies between 0 and the catalog orb of the aspect (at most 8), within
    [max_orb] when one is given, and its flags are the retrograde states of
    the two positions. *)
Theorem find_aspects_match_sound
    (set_a set_b : dict position) (max_orb : option Q) (x : aspect_match) :
  In x (find_aspects set_a set_b max_orb) ->
  exists (pos1 pos2 : position) (data : aspect_data),
    In (m_planet1 x, pos1) set_a
    /\ In (m_planet2 x, pos2) set_b
    /\ dict_find ASPECTS (m_aspect x) = Some data
    /\ m_exact_angle x = angle data
    /\ m_orb x = calculate_aspect_orb (longitude pos1) (longitude pos2)
                                      (inject_Z (angle data))
    /\ (0 <= m_orb x)%Q
    /\ (m_orb x <= inject_Z (orb data))%Q
    /\ (m_orb x <= 8)%Q
    /\ (forall m : Q, max_orb = Some m -> (m_orb x <= m)%Q)
    /\ m_planet1_retrograde x = is_retrograde pos1
    /\ m_planet2_retrograde x = is_retrograde pos2.
Proof.
  intros Hin.
  pose proof (find_aspects_orb_range set_a set_b max_orb x Hin) as [H0 H8].
  rewrite find_aspects_filter_map in Hin.
  apply in_map_iff in Hin as (tr & <- & Htr).
  apply filter_In in Htr as [Htr Hq].
  destruct tr as [[[k1 p1] [k2 p2]] [n d]].
  apply in_cross_product in Htr as (Ha & Hb & Hc).
  apply qualifies_iff in Hq as [Hq Hmax].
  exists p1, p2, d. cbn [match_of m_planet1 m_planet2 m_aspect m_exact_angle
                         m_orb m_planet1_retrograde m_planet2_retrograde] in *.
  repeat split; try assumption; try reflexivity.
  - apply dict_find_in; [apply NoDup_keys_ASPECTS | exact Hc].
  - intros m Hm. destruct Hmax as [Hnone | (m' & Hm' & Hle)]; [congruence|].
    rewrite Hm in Hm'. inversion Hm'; subst. exact Hle.
Qed.

Lemma find_aspects_match_sound_witness :
  exists (pos1 pos2 : position) (data : aspect_data),
    In ("Sun"%string, pos1) natal_sun_10
    /\ In ("Moon"%string, pos2) transit_sun_moon
    /\ dict_find ASPECTS "square" = Some data.
Proof.
  destruct (find_aspects_match_sound natal_sun_10 transit_sun_moon None
              {| m_planet1 := "Sun"; m_planet2 := "Moon"; m_aspect := "square";
                 m_orb := 0; m_exact_angle := 90;
                 m_planet1_retrograde := false;
                 m_planet2_retrograde := true |})
    as (pos1 & pos2 & data & H1 & H2 & H3 & _).
  - vm_compute. right. left. reflexivity.
  - exists pos1, pos2, data. auto.
Defined.

Lemma length_flat_map_le {A B : Type} (f : A -> list B) (n : nat) (l : list A) :
  (forall x, In x l -> (List.length (f x) <= n)%nat) ->
  (List.length (flat_map f l) <= List.length l * n)%nat.
Proof.
  induction l as [|x l IH]; intros H; [cbn; lia|].
  cbn [flat_map List.length]. rewrite length_app.
  pose proof (H x (or_introl eq_refl)).
  assert (List.length (flat_map f l) <= List.length l * n)%nat
    by (apply IH; intros y Hy; apply H; right; exact Hy).
  lia.
Qed.

(** X6: at most one match per pair of entries: the output is never longer
    than [len(positions1) * len(positions2)], and it is empty when either
    input is. *)
Theorem find_aspects_length (set_a set_b : dict position) (max_orb : option Q) :
  (List.length (find_aspects set_a set_b max_orb)
   <= List.length set_a * List.length set_b)%nat.
Proof.
  unfold find_aspects.
  apply length_flat_map_le. intros [k1 p1] _.
  replace (List.length set_b) with (List.length set_b * 1)%nat by lia.
  apply length_flat_map_le. intros [k2 p2] _.
  apply catalog_loop_length.
Qed.

Lemma triple_orb_swap (a b : string * position) (c : string * aspect_data) :
  triple_orb (b, a, c) = triple_orb (a, b, c).
Proof.
  destruct a as [k1 p1], b as [k2 p2], c as [n d].
  cbn [triple_orb]. unfold calculate_aspect_orb.
  rewrite (Qabs_Qminus (longitude p2) (longitude p1)). reflexivity.
Qed.

Lemma find_aspects_swap_in (set_a set_b : dict position) (max_orb : option Q)
    (x : aspect_match) :
  In x (find_aspects set_a set_b max_orb) ->
  In (swap_match x) (find_aspects set_b set_a max_orb).
Proof.
  rewrite !find_aspects_filter_map. intros Hin.
  apply in_map_iff in Hin as (tr & <- & Htr).
  apply filter_In in Htr as [Htr Hq].
  destruct tr as [[a b] c].
  apply in_cross_product in Htr as (Ha & Hb & Hc).
  apply in_map_iff. exists (b, a, c). split.
  - destruct a as [k1 p1], b as [k2 p2], c as [n d].
    unfold swap_match.
    cbn [match_of m_planet1 m_planet2 m_aspect m_exact_angle m_orb
         m_planet1_retrograde m_planet2_retrograde].
    rewrite (triple_orb_swap (k1, p1) (k2, p2) (n, d)). reflexivity.
  - apply filter_In. split; [apply in_cross_product; auto|].
    destruct c as [n d]. unfold qualifies in *.
    rewrite triple_orb_swap. exact Hq.
Qed.

(** X7: exchanging the two inputs exchanges the roles in every match and
    nothing else: a match is reported for (set_a, set_b) exactly when the
    same match with bodies and retrograde flags exchanged is reported for
    (set_b, set_a).  (The order of the two outputs differs.) *)
Theorem find_aspects_swap (set_a set_b : dict position) (max_orb : option Q)
    (x : aspect_match) :
  In x (find_aspects set_a set_b max_orb)
  <-> In (swap_match x) (find_aspects set_b set_a max_orb).
Proof.
  split; [apply find_aspects_swap_in|].
  intros H. apply find_aspects_swap_in in H.
  destruct x. exact H.
Qed.

(** ** [get_zodiac_sign] and [format_degree] *)

Lemma Qfloor_unique (x : Q) (z : Z) :
  (inject_Z z <= x)%Q -> (x < inject_Z (z + 1))%Q -> Qfloor x = z.
Proof.
  intros Hlo Hhi.
  pose proof (Qfloor_le x) as Hf. pose proof (Qlt_floor x) as Hf'.
  assert (H1 : (inject_Z z < inject_Z (Qfloor x + 1))%Q) by lra.
  assert (H2 : (inject_Z (Qfloor x) < inject_Z (z + 1))%Q) by lra.
  rewrite <- Zlt_Qlt in H1, H2. lia.
Qed.

Lemma py_int_nonpos (x : Q) : (x <= 0)%Q -> py_int x = - Qfloor (- x).
Proof.
  intros H. unfold py_int. destruct x as [n d]. cbn.
  unfold Qle in H. cbn in H.
  assert (Hn : n <= 0) by lia.
  replace n with (- - n) at 1 by lia.
  rewrite Z.quot_opp_l by lia. f_equal.
  apply Z.quot_div_nonneg; lia.
Qed.

Lemma py_int_opp (x : Q) : py_int (- x) = - py_int x.
Proof.
  unfold py_int. destruct x as [n d]. cbn. apply Z.quot_opp_l. lia.
Qed.

Lemma py_int_compat (x y : Q) : (x == y)%Q -> py_int x = py_int y.
Proof.
  intros E. destruct (Qlt_le_dec x 0) as [Hneg | Hpos].
  - rewrite (py_int_nonpos x), (py_int_nonpos y) by lra.
    f_equal. apply Qfloor_comp. rewrite E. reflexivity.
  - rewrite (py_int_nonneg x), (py_int_nonneg y) by lra.
    apply Qfloor_comp. exact E.
Qed.

Lemma seq_get_signs_neg (k : Z) :
  -12 <= k < 0 ->
  seq_get signs k = Ret (nth (Z.to_nat (k + 12)) signs ""%string).
Proof.
  intros H.
  assert (Hk : k = -12 \/ k = -11 \/ k = -10 \/ k = -9 \/ k = -8 \/ k = -7
               \/ k = -6 \/ k = -5 \/ k = -4 \/ k = -3 \/ k = -2 \/ k = -1)
    by lia.
  repeat (destruct Hk as [Hk | Hk]; [subst k; reflexivity|]).
  subst k; reflexivity.
Qed.

Lemma seq_get_signs_out (k : Z) :
  k < -12 \/ 12 <= k -> seq_get signs k = @Raise string IndexError.
Proof.
  intros H. unfold seq_get.
  change (Z.of_nat (List.length signs)) with 12.
  destruct (k <? 0) eqn:E.
  - apply Z.ltb_lt in E.
    assert (Hlo : (0 <=? k + 12) = false) by (apply Z.leb_gt; lia).
    rewrite Hlo. reflexivity.
  - apply Z.ltb_ge in E.
    assert (Hhi : (k <? 12) = false) by (apply Z.ltb_ge; lia).
    rewrite Hhi, andb_false_r. reflexivity.
Qed.

Lemma nth_signs_in (n : nat) :
  (n < 12)%nat -> In (nth n signs ""%string) signs.
Proof. intros H. apply nth_In. exact H. Qed.

(** X8: [get_zodiac_sign] raises [IndexError] exactly for a longitude of
    360 or more, or of -390 or less; for every longitude in between it
    returns one of the twelve signs and a degree within the sign between 0
    and 30, which is below 30 when the longitude is not negative.  (For a
    negative longitude the float remainder can round up to 30.0, so no more
    than [d <= 30] is stated there.) *)
Theorem get_zodiac_sign_defined (L : Q) :
  ((360 <= L)%Q \/ (L <= -390 # 1)%Q ->
   get_zodiac_sign L = Raise IndexError)
  /\ ((-390 # 1 < L)%Q -> (L < 360)%Q ->
      exists (sign : string) (d : Q),
        get_zodiac_sign L = Ret (sign, d)
        /\ In sign signs
        /\ (0 <= d)%Q /\ (d <= 30)%Q
        /\ ((0 <= L)%Q -> (d < 30)%Q)).
Proof.
  unfold get_zodiac_sign.
  assert (Hx : (L == 30 * (L / 30))%Q) by (field; lra).
  set (x := (L / 30)%Q) in *.
  split.
  - intros [Hhi | Hlo].
    + rewrite py_int_nonneg by lra.
      assert (H12 : 12 <= Qfloor x).
      { change 12 with (Qfloor (inject_Z 12)). apply Qfloor_resp_le.
        change (inject_Z 12) with 12%Q. lra. }
      rewrite seq_get_signs_out by lia. reflexivity.
    + rewrite py_int_nonpos by lra.
      assert (H13 : 13 <= Qfloor (- x)).
      { change 13 with (Qfloor (inject_Z 13)). apply Qfloor_resp_le.
        change (inject_Z 13) with 13%Q. lra. }
      rewrite seq_get_signs_out by lia. reflexivity.
  - intros Hlo Hhi.
    pose proof (py_mod_bounds L 30 eq_refl) as [Hd0 Hd30].
    assert (Hd : (0 <= py_mod L 30)%Q /\ (py_mod L 30 <= 30)%Q
                 /\ ((0 <= L)%Q -> (py_mod L 30 < 30)%Q)).
    { split; [exact Hd0|]. split; [lra | intros _; exact Hd30]. }
    destruct (Qlt_le_dec L 0) as [Hneg | Hpos].
    + rewrite py_int_nonpos by lra.
      pose proof (Qfloor_le (- x)) as Hf.
      assert (Hf0 : 0 <= Qfloor (- x)).
      { change 0 with (Qfloor (inject_Z 0)). apply Qfloor_resp_le.
        change (inject_Z 0) with 0%Q. lra. }
      assert (Hf13 : Qfloor (- x) < 13).
      { rewrite Zlt_Qlt. change (inject_Z 13) with 13%Q. lra. }
      destruct (Z.eq_dec (Qfloor (- x)) 0) as [E0 | Hne].
      * rewrite E0. cbn [Z.opp]. rewrite seq_get_signs by lia. cbn [bind].
        eexists _, _. split; [reflexivity|].
        split; [apply nth_signs_in; cbn; lia | exact Hd].
      * rewrite seq_get_signs_neg by lia. cbn [bind].
        eexists _, _. split; [reflexivity|].
        split; [apply nth_signs_in; lia | exact Hd].
    + pose proof (sign_index_in_range L Hpos Hhi) as Hidx. fold x in Hidx.
      rewrite py_int_nonneg by lra.
      rewrite seq_get_signs by exact Hidx. cbn [bind].
      eexists _, _. split; [reflexivity|].
      split; [apply nth_signs_in; lia | exact Hd].
Qed.

Lemma get_zodiac_sign_defined_witness :
  get_zodiac_sign 400 = Raise IndexError
  /\ exists (sign : string) (d : Q),
       get_zodiac_sign (-45 # 1) = Ret (sign, d) /\ In sign signs
       /\ (0 <= d)%Q /\ (d <= 30)%Q.
Proof.
  destruct (get_zodiac_sign_defined 400) as [Hfail _].
  destruct (get_zodiac_sign_defined (-45 # 1)) as [_ Hok].
  split.
  - apply Hfail. left. unfold Qle; cbn; lia.
  - destruct Hok as (sign & d & Hrun & Hin & Hd0 & Hd30 & _);
      [unfold Qlt; cbn; lia | unfold Qlt; cbn; lia |].
    exists sign, d. auto.
Defined.

(** X9: negative longitudes are shifted by one sign.  For a longitude
    strictly between -360 and 0 that is not a multiple of 30, the sign
    returned is the successor (cyclically) of the sign returned for the
    equivalent longitude [L + 360], with the same degree within the sign:
    the index is truncated toward zero and read as a negative list index. *)
Theorem get_zodiac_sign_negative_shift (L : Q) :
  (-360 # 1 < L)%Q -> (L < 0)%Q -> ~ (py_mod L 30 == 0)%Q ->
  let k := Qfloor ((L + 360) / 30) in
  exists d d' : Q,
    0 <= k < 12
    /\ get_zodiac_sign (L + 360)
       = Ret (nth (Z.to_nat k) signs ""%string, d')
    /\ get_zodiac_sign L
       = Ret (nth (Z.to_nat ((k + 1) mod 12)) signs ""%string, d)
    /\ (d == d')%Q.
Proof.
  intros Hlo Hhi Hfrac. cbv zeta.
  assert (Hx : (L == 30 * (L / 30))%Q) by (field; lra).
  assert (Hy : ((L + 360) / 30 == L / 30 + 12)%Q) by (field; lra).
  unfold py_mod in Hfrac.
  set (x := (L / 30)%Q) in *. set (f := Qfloor x) in *.
  pose proof (Qfloor_le x) as Hf. pose proof (Qlt_floor x) as Hf'.
  fold f in Hf, Hf'. rewrite inject_Z_plus in Hf'.
  change (inject_Z 1) with 1%Q in Hf'.
  assert (Hfx : (inject_Z f < x)%Q).
  { destruct (Qlt_le_dec (inject_Z f) x) as [H | H]; [exact H|].
    exfalso. apply Hfrac. lra. }
  assert (Hk : Qfloor ((L + 360) / 30) = f + 12).
  { apply Qfloor_unique; rewrite ?inject_Z_plus;
      change (inject_Z 12) with 12%Q; change (inject_Z 1) with 1%Q; lra. }
  assert (Hceil : Qfloor (- x) = - (f + 1)).
  { apply Qfloor_unique; rewrite ?inject_Z_plus, ?inject_Z_opp, ?inject_Z_plus;
      change (inject_Z 1) with 1%Q; lra. }
  assert (Hfl : -12 <= f).
  { assert (H : (inject_Z (-12) < inject_Z (f + 1))%Q).
    { rewrite inject_Z_plus. change (inject_Z 1) with 1%Q.
      change (inject_Z (-12)) with (-12 # 1)%Q. lra. }
    rewrite <- Zlt_Qlt in H. lia. }
  assert (Hfh : f < 0).
  { rewrite Zlt_Qlt. change (inject_Z 0) with 0%Q. lra. }
  exists (py_mod L 30), (py_mod (L + 360) 30).
  rewrite Hk. split; [lia|]. split; [|split].
  - unfold get_zodiac_sign.
    rewrite py_int_nonneg by (rewrite Hy; lra).
    rewrite Hk, seq_get_signs by lia. reflexivity.
  - unfold get_zodiac_sign. fold x.
    rewrite py_int_nonpos by lra. rewrite Hceil.
    replace (- - (f + 1)) with (f + 1) by lia.
    destruct (Z.eq_dec f (-1)) as [E | Hne].
    + rewrite E. reflexivity.
    + rewrite seq_get_signs_neg by lia. cbn [bind].
      rewrite Z.mod_small by lia.
      replace (f + 1 + 12) with (f + 12 + 1) by lia. reflexivity.
  - unfold py_mod. fold x. fold f. rewrite Hk.
    rewrite inject_Z_plus. change (inject_Z 12) with 12%Q. lra.
Qed.

Lemma get_zodiac_sign_negative_shift_witness :
  exists d d' : Q,
    get_zodiac_sign ((-45 # 1) + 360) = Ret ("Aquarius"%string, d')
    /\ get_zodiac_sign (-45 # 1) = Ret ("Pisces"%string, d)
    /\ (d == d')%Q.
Proof.
  destruct (get_zodiac_sign_negative_shift (-45 # 1))
    as (d & d' & _ & H1 & H2 & H3).
  - unfold Qlt; cbn; lia.
  - unfold Qlt; cbn; lia.
  - vm_compute. discriminate.
  - exists d, d'. split; [exact H1 | split; [exact H2 | exact H3]].
Defined.

(** ** [format_degree] *)

(** X10: [format_degree] prints three numbers, degrees, minutes and
    seconds; for a non-negative angle the degrees are the whole part of
    the angle and the minutes and the seconds printed lie in 0..59: 60 is
    never printed. *)
Theorem format_degree_parts_in_range (degree : Q) :
  (0 <= degree)%Q ->
  let '(degrees, minutes, seconds) := degree_parts degree in
  format_degree degree
  = (py_str_int degrees ++ degree_sign ++ py_str_int minutes ++ "'"
     ++ py_str_int seconds ++ double_quote)%string
  /\ degrees = Qfloor degree
  /\ 0 <= minutes < 60
  /\ 0 <= seconds < 60.
Proof.
  intros H0. unfold format_degree, degree_parts.
  split; [reflexivity|].
  rewrite (py_int_nonneg degree H0).
  set (d := Qfloor degree).
  pose proof (Qfloor_le degree) as Hd. pose proof (Qlt_floor degree) as Hd'.
  fold d in Hd, Hd'. rewrite inject_Z_plus in Hd'.
  change (inject_Z 1) with 1%Q in Hd'.
  set (f1 := ((degree - inject_Z d) * 60)%Q).
  assert (Hf1 : (0 <= f1)%Q /\ (f1 < 60)%Q) by (unfold f1; split; lra).
  rewrite (py_int_nonneg f1) by apply Hf1.
  set (m := Qfloor f1).
  pose proof (Qfloor_le f1) as Hm. pose proof (Qlt_floor f1) as Hm'.
  fold m in Hm, Hm'. rewrite inject_Z_plus in Hm'.
  change (inject_Z 1) with 1%Q in Hm'.
  set (f2 := ((f1 - inject_Z m) * 60)%Q).
  assert (Hf2 : (0 <= f2)%Q /\ (f2 < 60)%Q) by (unfold f2; split; lra).
  rewrite (py_int_nonneg f2) by apply Hf2.
  assert (Hbound : forall (z : Z) (q : Q),
             (0 <= q)%Q -> (q < 60)%Q -> z = Qfloor q -> 0 <= z < 60).
  { intros z q Hq0 Hq60 ->. split.
    - change 0 with (Qfloor (inject_Z 0)). apply Qfloor_resp_le. exact Hq0.
    - pose proof (Qfloor_le q). rewrite Zlt_Qlt.
      change (inject_Z 60) with 60%Q. lra. }
  split; [reflexivity|].
  split; [apply (Hbound m f1); [apply Hf1 | apply Hf1 | reflexivity]|].
  apply (Hbound (Qfloor f2) f2); [apply Hf2 | apply Hf2 | reflexivity].
Qed.

(** 15.5 degrees print as 15, 30 and 0. *)
Lemma format_degree_parts_in_range_witness :
  let '(degrees, minutes, seconds) := degree_parts (31 # 2) in
  format_degree (31 # 2)
  = (py_str_int degrees ++ degree_sign ++ py_str_int minutes ++ "'"
     ++ py_str_int seconds ++ double_quote)%string
  /\ degrees = Qfloor (31 # 2)
  /\ 0 <= minutes < 60
  /\ 0 <= seconds < 60.
Proof.
  apply (format_degree_parts_in_range (31 # 2)).
  unfold Qle; cbn; lia.
Defined.

(** X11: truncation is toward zero, so a negative angle prints the
    negated components of its absolute value: each of degrees, minutes and
    seconds carries the minus sign. *)
Theorem degree_parts_opp (degree : Q) :
  let '(degrees, minutes, seconds) := degree_parts degree in
  degree_parts (- degree) = (- degrees, - minutes, - seconds).
Proof.
  unfold degree_parts.
  rewrite py_int_opp.
  set (d := py_int degree).
  assert (E1 : py_int ((- degree - inject_Z (- d)) * 60)
               = - py_int ((degree - inject_Z d) * 60)).
  { rewrite <- py_int_opp. apply py_int_compat.
    rewrite inject_Z_opp. ring. }
  rewrite E1. set (m := py_int ((degree - inject_Z d) * 60)).
  assert (E2 : py_int (((- degree - inject_Z (- d)) * 60 - inject_Z (- m)) * 60)
               = - py_int (((degree - inject_Z d) * 60 - inject_Z m) * 60)).
  { rewrite <- py_int_opp. apply py_int_compat.
    rewrite !inject_Z_opp. ring. }
  rewrite E2. reflexivity.
Qed.

(** ** [calculate_planetary_positions] *)

Section PlanetaryPositions.

Variable calc_ut : Q -> Z -> outcome (Q * Q * Q * Q * Q * Q).
Variable jd : Q.

(** The answer of the Provider for a body, when it gives one. *)
Local Abbreviation answer code :=
  (match calc_ut jd code with
   | Ret xx => xx
   | Raise _ => (0, 0, 0, 0, 0, 0)%Q
   end).

Lemma positions_loop_ret (planets : dict Z) :
  forall (acc ps : dict position),
    NoDup (keys acc ++ keys planets) ->
    positions_loop calc_ut jd planets acc = Ret ps ->
    ps = acc ++ map (fun '(name, code) => (name, position_of (answer code) jd))
                    planets
    /\ forall name code, In (name, code) planets ->
                         calc_ut jd code = Ret (answer code).
Proof.
  induction planets as [|[name code] rest IH]; intros acc ps Hnd Hrun.
  - cbn in Hrun. inversion Hrun. rewrite app_nil_r. split; [reflexivity|].
    intros n c [].
  - cbn [positions_loop] in Hrun.
    destruct (calc_ut jd code) as [xx|e] eqn:Ecall; [|discriminate Hrun].
    destruct xx as [[[[[lon lat] dist] ls] lats] ds]. cbn [bind] in Hrun.
    assert (Hfresh : ~ In name (keys acc)).
    { intros Hin. apply NoDup_remove_2 in Hnd. apply Hnd.
      apply in_or_app. left. exact Hin. }
    rewrite (dict_set_fresh acc name _ Hfresh) in Hrun.
    apply IH in Hrun as [Hps Hall].
    + split.
      * rewrite Hps, <- app_assoc. cbn [app map]. rewrite Ecall. reflexivity.
      * intros n c [Hin | Hin]; [|apply (Hall n c Hin)].
        inversion Hin; subst. rewrite Ecall. reflexivity.
    + unfold keys in *. rewrite map_app, <- app_assoc. exact Hnd.
Qed.

Lemma positions_loop_raise (pre : dict Z) :
  forall (acc : dict position) (name : string) (code : Z) (post : dict Z)
         (e : exn),
    (forall n c, In (n, c) pre -> exists xx, calc_ut jd c = Ret xx) ->
    calc_ut jd code = Raise e ->
    positions_loop calc_ut jd (pre ++ (name, code) :: post) acc = Raise e.
Proof.
  induction pre as [|[n c] pre IH]; intros acc name code post e Hpre Hcall.
  - cbn [app positions_loop]. rewrite Hcall. reflexivity.
  - cbn [app positions_loop].
    destruct (Hpre n c (or_introl eq_refl)) as (xx & Hxx). rewrite Hxx.
    destruct xx as [[[[[lon lat] dist] ls] lats] ds]. cbn [bind].
    apply IH; [|exact Hcall].
    intros n' c' Hin. apply (Hpre n' c'). right. exact Hin.
Qed.

Lemma positions_loop_raise_inv (planets : dict Z) :
  forall (acc : dict position) (e : exn),
    positions_loop calc_ut jd planets acc = Raise e ->
    exists pre name code post,
      planets = pre ++ (name, code) :: post
      /\ (forall n c, In (n, c) pre -> exists xx, calc_ut jd c = Ret xx)
      /\ calc_ut jd code = Raise e.
Proof.
  induction planets as [|[n c] rest IH]; intros acc e Hrun;
    [discriminate Hrun|].
  cbn [positions_loop] in Hrun.
  destruct (calc_ut jd c) as [xx|e'] eqn:Ecall.
  - destruct xx as [[[[[lon lat] dist] ls] lats] ds]. cbn [bind] in Hrun.
    apply IH in Hrun as (pre & name & code & post & Hsplit & Hpre & Hcall).
    exists ((n, c) :: pre), name, code, post. subst rest.
    split; [reflexivity|]. split; [|exact Hcall].
    intros n' c' [Hin | Hin]; [|apply (Hpre n' c' Hin)].
    inversion Hin; subst. eauto.
  - cbn [bind] in Hrun. inversion Hrun; subst.
    exists [], n, c, rest. split; [reflexivity|].
    split; [intros n' c' []|exact Ecall].
Qed.

End PlanetaryPositions.

Lemma NoDup_keys_PLANETS : NoDup (keys PLANETS).
Proof.
  unfold keys, PLANETS; cbn [map fst].
  repeat (apply NoDup_cons;
          [cbn [In]; intros H;
           repeat (destruct H as [H | H]; [discriminate H|]); exact H|]).
  apply NoDup_nil.
Qed.

Lemma calculate_planetary_positions_ret
    (calc_ut : Q -> Z -> outcome (Q * Q * Q * Q * Q * Q)) (jd : Q)
    (ps : dict position) :
  calculate_planetary_positions calc_ut jd = Ret ps ->
  ps = map (fun '(name, code) =>
              (name, position_of (match calc_ut jd code with
                                  | Ret xx => xx
                                  | Raise _ => (0, 0, 0, 0, 0, 0)%Q
                                  end) jd)) PLANETS
  /\ forall name code, In (name, code) PLANETS ->
                       exists xx, calc_ut jd code = Ret xx.
Proof.
  intros Hrun. unfold calculate_planetary_positions in Hrun.
  apply positions_loop_ret in Hrun as [Hps Hall];
    [|cbn [keys map app]; apply NoDup_keys_PLANETS].
  split; [exact Hps|]. intros name code Hin. eauto.
Qed.

(** X12: a returned position dictionary has exactly the ten bodies of
    [PLANETS], in that order; the entry of each body carries the six
    numbers [swe.calc_ut] gave for its code and the Julian Day asked for. *)
Theorem calculate_planetary_positions_shape
    (calc_ut : Q -> Z -> outcome (Q * Q * Q * Q * Q * Q)) (jd : Q)
    (ps : dict position) :
  calculate_planetary_positions calc_ut jd = Ret ps ->
  keys ps = keys PLANETS
  /\ List.length ps = 10%nat
  /\ (forall (name : string) (code : Z),
        In (name, code) PLANETS ->
        exists xx : Q * Q * Q * Q * Q * Q,
          calc_ut jd code = Ret xx
          /\ dict_find ps name = Some (position_of xx jd))
  /\ (forall (name : string) (p : position),
        In (name, p) ps -> julian_day p = Some jd).
Proof.
  intros Hrun. apply calculate_planetary_positions_ret in Hrun as [Hps Hall].
  assert (Hkeys : keys ps = keys PLANETS).
  { rewrite Hps. unfold keys. rewrite map_map. apply map_ext.
    intros [n c]. reflexivity. }
  split; [exact Hkeys|].
  split; [rewrite Hps, length_map; reflexivity|].
  split.
  - intros name code Hin. destruct (Hall name code Hin) as (xx & Hxx).
    exists xx. split; [exact Hxx|].
    apply dict_find_in; [rewrite Hkeys; apply NoDup_keys_PLANETS|].
    rewrite Hps. apply in_map_iff. exists (name, code).
    rewrite Hxx. auto.
  - intros name p Hin. rewrite Hps in Hin.
    apply in_map_iff in Hin as ([n c] & Heq & _).
    inversion Heq; subst.
    destruct (match calc_ut jd c with Ret xx => xx | Raise _ => _ end)
      as [[[[[lon lat] dist] ls] lats] ds].
    reflexivity.
Qed.

Lemma calculate_planetary_positions_shape_witness :
  exists ps : dict position,
    calculate_planetary_positions linear_calc_ut 0 = Ret ps
    /\ keys ps = keys PLANETS.
Proof.
  eexists. split; [reflexivity|].
  apply (calculate_planetary_positions_shape linear_calc_ut 0).
  reflexivity.
Defined.

(** X13: the call raises exactly when [swe.calc_ut] raises for a body, and
    the error is that of the first such body in the order of [PLANETS];
    the bodies after it are not what decides. *)
Theorem calculate_planetary_positions_first_failure
    (calc_ut : Q -> Z -> outcome (Q * Q * Q * Q * Q * Q)) (jd : Q) (e : exn) :
  calculate_planetary_positions calc_ut jd = Raise e
  <-> exists (pre : dict Z) (name : string) (code : Z) (post : dict Z),
        PLANETS = pre ++ (name, code) :: post
        /\ (forall n c, In (n, c) pre -> exists xx, calc_ut jd c = Ret xx)
        /\ calc_ut jd code = Raise e.
Proof.
  unfold calculate_planetary_positions. split.
  - apply positions_loop_raise_inv.
  - intros (pre & name & code & post & Hsplit & Hpre & Hcall).
    rewrite Hsplit. apply positions_loop_raise; assumption.
Qed.

(** ** [calculate_ascendant_and_houses] *)

Lemma seq_get_nth {A : Type} (l : list A) (i : Z) (d : A) :
  0 <= i < Z.of_nat (List.length l) ->
  seq_get l i = Ret (nth (Z.to_nat i) l d).
Proof.
  intros [Hlo Hhi]. unfold seq_get.
  assert (E : (i <? 0) = false) by (apply Z.ltb_ge; lia).
  rewrite E.
  apply Z.leb_le in Hlo as Hlo'. apply Z.ltb_lt in Hhi as Hhi'.
  rewrite Hlo', Hhi'. cbn [andb].
  destruct (nth_error l (Z.to_nat i)) as [a|] eqn:En.
  - rewrite (nth_error_nth _ _ d En). reflexivity.
  - apply nth_error_None in En. lia.
Qed.

Lemma seq_get_past_end {A : Type} (l : list A) (i : Z) :
  Z.of_nat (List.length l) <= i -> seq_get l i = Raise IndexError.
Proof.
  intros H. unfold seq_get.
  assert (E : (i <? 0) = false) by (apply Z.ltb_ge; lia).
  rewrite E.
  assert (Hhi : (i <? Z.of_nat (List.length l)) = false)
    by (apply Z.ltb_ge; lia).
  rewrite Hhi, andb_false_r. reflexivity.
Qed.

(** X14: when the Provider returns at least 12 cusps and 4 angles, the
    record holds the first twelve cusps under [house_1] .. [house_12] and
    the first four angles under [ascendant], [midheaven], [armc] and
    [vertex], in that order; its [ascendant] field is the cusp of house 1;
    and the topocentric location has been set to (latitude, longitude, 0). *)
Theorem calculate_ascendant_and_houses_record
    (houses : Q -> Q -> Q -> string -> outcome (list Q * list Q))
    (jd lat lon : Q) (hsys : string) (w : world) (cusps ascmc : list Q) :
  houses jd lat lon hsys = Ret (cusps, ascmc) ->
  (12 <= List.length cusps)%nat -> (4 <= List.length ascmc)%nat ->
  exists hd : house_data,
    calculate_ascendant_and_houses houses jd lat lon hsys w
    = (Ret hd, set_topo lat lon 0 w)
    /\ house_cusps hd = combine house_names (firstn 12 cusps)
    /\ angles hd = combine angle_names (firstn 4 ascmc)
    /\ dict_find (house_cusps hd) "house_1" = Some (ascendant hd)
    /\ ascendant hd = nth 0 cusps 0%Q.
Proof.
  intros Hcall Hc Ha. unfold calculate_ascendant_and_houses.
  rewrite Hcall. cbn [bind].
  repeat (rewrite (seq_get_nth cusps _ 0%Q) by lia; cbn [bind]).
  repeat (rewrite (seq_get_nth ascmc _ 0%Q) by lia; cbn [bind]).
  eexists. split; [reflexivity|].
  cbn [house_cusps angles ascendant].
  do 12 (destruct cusps as [|? cusps]; [cbn in Hc; lia|]).
  do 4 (destruct ascmc as [|? ascmc]; [cbn in Ha; lia|]).
  repeat split; reflexivity.
Qed.

Lemma calculate_ascendant_and_houses_record_witness :
  exists hd : house_data,
    calculate_ascendant_and_houses flat_houses 1 0 0 "P"
      {| topo := None; stdout := [] |}
    = (Ret hd, set_topo 0 0 0 {| topo := None; stdout := [] |})
    /\ dict_find (house_cusps hd) "house_1" = Some (ascendant hd).
Proof.
  destruct (calculate_ascendant_and_houses_record
              flat_houses 1 0 0 "P" {| topo := None; stdout := [] |}
              (map (fun k => Qred (1 + inject_Z (Z.of_nat k) * 30)) (seq 0 12))
              [Qred 1; Qred (1 + 270); Qred (1 + 180); Qred (1 + 90)])
    as (hd & Hrun & _ & _ & Hasc & _).
  - reflexivity.
  - cbn. lia.
  - cbn. lia.
  - exists hd. split; assumption.
Defined.

(** X15: every way the call fails leaves the topocentric location set.  An
    error of [swe.houses] is raised as it is, and an answer with fewer than
    12 cusps or fewer than 4 angles raises [IndexError]; in each case the
    Provider's location is (latitude, longitude, 0) afterwards and nothing
    has been printed. *)
Theorem calculate_ascendant_and_houses_failures
    (houses : Q -> Q -> Q -> string -> outcome (list Q * list Q))
    (jd lat lon : Q) (hsys : string) (w : world) :
  (forall e : exn,
      houses jd lat lon hsys = Raise e ->
      calculate_ascendant_and_houses houses jd lat lon hsys w
      = (Raise e, set_topo lat lon 0 w))
  /\ (forall cusps ascmc : list Q,
        houses jd lat lon hsys = Ret (cusps, ascmc) ->
        (List.length cusps < 12)%nat \/ (List.length ascmc < 4)%nat ->
        calculate_ascendant_and_houses houses jd lat lon hsys w
        = (Raise IndexError, set_topo lat lon 0 w)).
Proof.
  split.
  - intros e Hcall. unfold calculate_ascendant_and_houses.
    rewrite Hcall. reflexivity.
  - intros cusps ascmc Hcall Hshort. unfold calculate_ascendant_and_houses.
    rewrite Hcall. cbn [bind]. f_equal.
    destruct (le_lt_dec 12 (List.length cusps)) as [Hc | Hc].
    + repeat (rewrite (seq_get_nth cusps _ 0%Q) by lia; cbn [bind]).
      destruct Hshort as [Hshort | Hshort]; [lia|].
      do 4 (destruct ascmc as [|? ascmc];
            [repeat (first [ rewrite seq_get_past_end by (cbn; lia)
                           | rewrite (seq_get_nth _ _ 0%Q) by (cbn; lia) ];
                     cbn [bind]);
             reflexivity|]).
      cbn in Hshort. lia.
    + clear Hshort.
      do 12 (destruct cusps as [|? cusps];
             [repeat (first [ rewrite seq_get_past_end by (cbn; lia)
                            | rewrite (seq_get_nth _ _ 0%Q) by (cbn; lia) ];
                      cbn [bind]);
              reflexivity|]).
      cbn in Hc. lia.
Qed.

Lemma calculate_ascendant_and_houses_failures_witness :
  calculate_ascendant_and_houses
    (fun _ _ _ _ => Ret ([1; 31; 61]%Q, [1; 271; 181; 91]%Q)) 1 0 0 "P"
    {| topo := None; stdout := [] |}
  = (Raise IndexError, set_topo 0 0 0 {| topo := None; stdout := [] |}).
Proof.
  apply (calculate_ascendant_and_houses_failures
           (fun _ _ _ _ => Ret ([1; 31; 61]%Q, [1; 271; 181; 91]%Q))
           1 0 0 "P" {| topo := None; stdout := [] |})
    with (cusps := [1; 31; 61]%Q) (ascmc := [1; 271; 181; 91]%Q).
  - reflexivity.
  - left. cbn. lia.
Defined.

(** ** [calculate_houses_for_positions], further *)

Section HouseBatchFailure.

Variable houses : Q -> Q -> Q -> string -> outcome (list Q * list Q).
Variables lat lon : Q.
Variable hsys : string.

Local Abbreviation loop := (fun items => houses_loop houses items lat lon hsys).

Lemma calculate_ascendant_and_houses_world (jd : Q) (w : world) :
  snd (calculate_ascendant_and_houses houses jd lat lon hsys w)
  = set_topo lat lon 0 w.
Proof. reflexivity. Qed.

Lemma houses_loop_app (pre rest : dict position) :
  forall (results : dict house_data) (w : world),
    loop (pre ++ rest) results w
    = match loop pre results w with
      | (Ret r, w') => loop rest r w'
      | (Raise e, w') => (Raise e, w')
      end.
Proof.
  induction pre as [|[name pos] pre IH]; intros results w; [reflexivity|].
  cbn [app houses_loop]. destruct (julian_day pos) as [jd|].
  - destruct (calculate_ascendant_and_houses houses jd lat lon hsys w)
      as [[hd|e] w1]; [apply IH | reflexivity].
  - apply IH.
Qed.

Lemma houses_loop_topo (items : dict position) :
  forall (results r : dict house_data) (w w' : world),
    loop items results w = (Ret r, w') ->
    topo w' = match entries_with_jd items with
              | [] => topo w
              | _ :: _ => Some (lat, lon, 0%Q)
              end.
Proof.
  induction items as [|[name pos] rest IH]; intros results r w w' Hrun.
  - cbn in Hrun. inversion Hrun. reflexivity.
  - cbn [houses_loop] in Hrun. rewrite entries_with_jd_cons.
    destruct (julian_day pos) as [jd|].
    + pose proof (calculate_ascendant_and_houses_world jd w) as Hw.
      destruct (calculate_ascendant_and_houses houses jd lat lon hsys w)
        as [[hd|e] w1]; [|discriminate Hrun].
      cbn [snd] in Hw. subst w1.
      apply IH in Hrun. rewrite Hrun.
      destruct (entries_with_jd rest); reflexivity.
    + apply IH in Hrun. rewrite Hrun.
      destruct (entries_with_jd rest); reflexivity.
Qed.

End HouseBatchFailure.

(** X16: a Provider failure aborts the batch.  If the house computation
    raises for an entry that has a Julian Day, and succeeded for the timed
    entries before it, the batch raises that error: no result is returned,
    not even for the entries already computed, and the warnings of the
    untimed entries before the failing one have already been printed. *)
Theorem calculate_houses_for_positions_aborts
    (houses : Q -> Q -> Q -> string -> outcome (list Q * list Q))
    (record_at : Q -> house_data)
    (pre post : dict position) (name : string) (pos : position) (jd : Q)
    (lat lon : Q) (hsys : string) (e : exn) (w : world) :
  NoDup (keys pre) ->
  provider_succeeds houses lat lon hsys record_at pre ->
  julian_day pos = Some jd ->
  fst (calculate_ascendant_and_houses houses jd lat lon hsys w) = Raise e ->
  exists w' : world,
    calculate_houses_for_positions
      houses (pre ++ (name, pos) :: post) lat lon hsys w
    = (Raise e, w')
    /\ stdout w' = stdout w ++ map no_julian_day_warning (entries_without_jd pre)
    /\ topo w' = Some (lat, lon, 0%Q).
Proof.
  intros Hnd Hprov Hjd Hfail.
  unfold calculate_houses_for_positions. rewrite houses_loop_app.
  destruct (houses_loop_spec houses lat lon hsys record_at pre [] w Hprov)
    as (w1 & Hrun & Hout); [exact Hnd|].
  rewrite Hrun. cbn [houses_loop]. rewrite Hjd.
  assert (Hindep : fst (calculate_ascendant_and_houses houses jd lat lon hsys w1)
                   = Raise e) by exact Hfail.
  pose proof (calculate_ascendant_and_houses_world houses lat lon hsys jd w1)
    as Hw.
  destruct (calculate_ascendant_and_houses houses jd lat lon hsys w1)
    as [o w2]. cbn [fst snd] in Hindep, Hw. subst o w2.
  exists (set_topo lat lon 0 w1). split; [reflexivity|].
  split; [exact Hout | reflexivity].
Qed.

Lemma calculate_houses_for_positions_aborts_witness :
  exists w' : world,
    calculate_houses_for_positions
      (fun jd lat lon hsys =>
         if Qle_bool jd 1 then flat_houses jd lat lon hsys
         else Raise EphemerisError)
      three_entries 0 0 "P" {| topo := None; stdout := [] |}
    = (Raise EphemerisError, w')
    /\ stdout w'
       = ["Warning: No Julian day found for untimed, skipping..."]%string.
Proof.
  destruct (calculate_houses_for_positions_aborts
              (fun jd lat lon hsys =>
                 if Qle_bool jd 1 then flat_houses jd lat lon hsys
                 else Raise EphemerisError)
              flat_record_at
              (firstn 2 three_entries) [] "transit"
              {| longitude := 30; latitude := 0; distance := 1;
                 longitude_speed := 1; latitude_speed := 0;
                 distance_speed := 0; julian_day := Some 2%Q |}
              2 0 0 "P" EphemerisError
              {| topo := None; stdout := [] |})
    as (w' & Hrun & Hout & _).
  - unfold three_entries, keys. cbn [firstn map fst].
    repeat (apply NoDup_cons;
            [cbn [In]; intros H;
             repeat (destruct H as [H | H]; [discriminate H|]); exact H|]).
    apply NoDup_nil.
  - intros n j Hin w0. cbn in Hin.
    destruct Hin as [Hin | []]. inversion Hin; subst. reflexivity.
  - reflexivity.
  - reflexivity.
  - exists w'. split; [|exact Hout].
    etransitivity; [|exact Hrun]. reflexivity.
Defined.

(** X17: what a finished batch leaves in the Provider.  After a batch that
    returns, the topocentric location is (latitude, longitude, 0) if some
    entry had a Julian Day, and is what it was before otherwise. *)
Theorem calculate_houses_for_positions_topo
    (houses : Q -> Q -> Q -> string -> outcome (list Q * list Q))
    (positions : dict position) (lat lon : Q) (hsys : string)
    (w w' : world) (results : dict house_data) :
  calculate_houses_for_positions houses positions lat lon hsys w
  = (Ret results, w') ->
  topo w' = match entries_with_jd positions with
            | [] => topo w
            | _ :: _ => Some (lat, lon, 0%Q)
            end.
Proof.
  unfold calculate_houses_for_positions. apply houses_loop_topo.
Qed.

Lemma calculate_houses_for_positions_topo_witness :
  topo (snd (calculate_houses_for_positions flat_houses three_entries
               (7 # 2) (9 # 2) "P" {| topo := None; stdout := [] |}))
  = Some (7 # 2, 9 # 2, 0)%Q.
Proof.
  destruct (calculate_houses_for_positions flat_houses three_entries
              (7 # 2) (9 # 2) "P" {| topo := None; stdout := [] |})
    as [o w'] eqn:Hrun.
  assert (Ho : exists results, o = Ret results).
  { vm_compute in Hrun. inversion Hrun. eexists. reflexivity. }
  destruct Ho as (results & ->).
  apply (calculate_houses_for_positions_topo _ _ _ _ _ _ _ _ Hrun).
Defined.

(** ** [calculate_transits] *)

(** X18: what a transit report holds.  A returned report carries the date
    asked for, the ten transiting positions computed for the Julian Day of
    that date, and as aspects exactly [find_aspects] of the natal positions
    against those transiting positions with no [max_orb]: natal bodies are
    always first, transiting bodies second and among the ten of [PLANETS],
    and there are at most ten aspects per natal body. *)
Theorem calculate_transits_report
    (julday : Z -> Z -> Z -> Q -> outcome Q)
    (calc_ut : Q -> Z -> outcome (Q * Q * Q * Q * Q * Q))
    (natal : dict position) (transit_date : datetime) (tz : Q)
    (r : transit_data) :
  calculate_transits julday calc_ut natal transit_date tz = Ret r ->
  date r = transit_date
  /\ (exists jd : Q,
        compute_julian_day julday transit_date tz = Ret jd
        /\ calculate_planetary_positions calc_ut jd = Ret (transit_positions r))
  /\ keys (transit_positions r) = keys PLANETS
  /\ aspects r = find_aspects natal (transit_positions r) None
  /\ (List.length (aspects r) <= List.length natal * 10)%nat
  /\ (forall m : aspect_match,
        In m (aspects r) ->
        In (m_planet1 m) (keys natal) /\ In (m_planet2 m) (keys PLANETS)).
Proof.
  unfold calculate_transits. intros Hrun.
  destruct (compute_julian_day julday transit_date tz) as [jd|e] eqn:Ejd;
    [|discriminate Hrun].
  cbn [bind] in Hrun.
  destruct (calculate_planetary_positions calc_ut jd) as [tp|e] eqn:Etp;
    [|discriminate Hrun].
  cbn [bind] in Hrun. inversion Hrun; subst r; clear Hrun.
  cbn [date transit_positions aspects].
  pose proof (calculate_planetary_positions_ret calc_ut jd tp Etp) as [Htp _].
  assert (Hkeys : keys tp = keys PLANETS).
  { rewrite Htp. unfold keys. rewrite map_map. apply map_ext.
    intros [n c]. reflexivity. }
  assert (Hlen : List.length tp = 10%nat)
    by (rewrite Htp, length_map; reflexivity).
  split; [reflexivity|]. split; [exists jd; auto|].
  split; [exact Hkeys|]. split; [reflexivity|]. split.
  - rewrite <- Hlen. unfold find_aspects.
    apply length_flat_map_le. intros [k1 p1] _.
    replace (List.length tp) with (List.length tp * 1)%nat by lia.
    apply length_flat_map_le. intros [k2 p2] _.
    apply catalog_loop_length.
  - intros m Hm. rewrite find_aspects_filter_map in Hm.
    apply in_map_iff in Hm as (tr & <- & Htr).
    apply filter_In in Htr as [Htr _].
    destruct tr as [[[k1 p1] [k2 p2]] [n d]].
    apply in_cross_product in Htr as (Ha & Hb & _).
    cbn [match_of m_planet1 m_planet2]. split.
    + unfold keys. apply in_map_iff. exists (k1, p1). auto.
    + rewrite <- Hkeys. unfold keys. apply in_map_iff. exists (k2, p2). auto.
Qed.

Lemma calculate_transits_report_witness :
  exists r : transit_data,
    calculate_transits julday_gregorian linear_calc_ut natal_sun_10
                       window_start 0 = Ret r
    /\ date r = window_start
    /\ keys (transit_positions r) = keys PLANETS.
Proof.
  eexists. split; [reflexivity|].
  match goal with
  | |- date ?r = _ /\ _ =>
      destruct (calculate_transits_report julday_gregorian linear_calc_ut
                  natal_sun_10 window_start 0 r eq_refl)
        as (Hdate & _ & Hkeys & _)
  end.
  split; assumption.
Defined.


(** ** [AstrologicalChart.calculate] *)

(** X19: [calculate] returns [None] exactly when the geocoder finds no
    location or times out.  It has then printed the one message of
    [get_coordinates] and has not touched the Provider; a Provider error is
    never turned into [None]. *)
Theorem chart_calculate_none
    (geocode : string -> geocode_result)
    (julday : Z -> Z -> Z -> Q -> outcome Q)
    (calc_ut : Q -> Z -> outcome (Q * Q * Q * Q * Q * Q))
    (houses : Q -> Q -> Q -> string -> outcome (list Q * list Q))
    (location_name : string) (birth_datetime : datetime) (tz : Q)
    (w w' : world) :
  AstrologicalChart.calculate geocode julday calc_ut houses
                              location_name birth_datetime tz w
  = (Ret None, w')
  <-> (geocode location_name = NoLocation
       /\ w' = print ("Location '" ++ location_name ++ "' not found")%string w)
      \/ (geocode location_name = GeocoderTimedOut
          /\ w' = print "Geocoding service timed out. Please try again." w).
Proof.
  unfold AstrologicalChart.calculate, LocationGeocoder.get_coordinates.
  destruct (geocode location_name) as [lat lon| | |e].
  - unfold io_bind, io_ret, io_lift.
    destruct (compute_julian_day julday birth_datetime tz) as [jd|e].
    + destruct (calculate_ascendant_and_houses houses jd lat lon "P" w)
        as [[hd|e] w1].
      * destruct (calculate_planetary_positions calc_ut jd) as [ps|e].
        -- split; [intros H; inversion H|].
           intros [[H _] | [H _]]; discriminate H.
        -- split; [intros H; inversion H|].
           intros [[H _] | [H _]]; discriminate H.
      * split; [intros H; inversion H|].
        intros [[H _] | [H _]]; discriminate H.
    + split; [intros H; inversion H|].
      intros [[H _] | [H _]]; discriminate H.
  - unfold io_bind, io_ret, io_print. split.
    + intros H. inversion H. left. auto.
    + intros [[_ ->] | [H _]]; [reflexivity | discriminate H].
  - unfold io_bind, io_ret, io_print. split.
    + intros H. inversion H. right. auto.
    + intros [[H _] | [_ ->]]; [discriminate H | reflexivity].
  - unfold io_bind, io_lift. split; [intros H; inversion H|].
    intros [[H _] | [H _]]; discriminate H.
Qed.

(** X20: what a returned chart holds.  The geocoder located the place; the
    chart carries those coordinates, the Julian Day of the birth datetime
    and offset, the Placidus houses computed for that Julian Day at those
    coordinates, and the ten planetary positions for the same Julian Day;
    the Provider's location is left at (latitude, longitude, 0) and nothing
    has been printed. *)
Theorem chart_calculate_some
    (geocode : string -> geocode_result)
    (julday : Z -> Z -> Z -> Q -> outcome Q)
    (calc_ut : Q -> Z -> outcome (Q * Q * Q * Q * Q * Q))
    (houses : Q -> Q -> Q -> string -> outcome (list Q * list Q))
    (location_name : string) (birth_datetime : datetime) (tz : Q)
    (w w' : world) (c : chart) :
  AstrologicalChart.calculate geocode julday calc_ut houses
                              location_name birth_datetime tz w
  = (Ret (Some c), w') ->
  exists lat lon jd : Q,
    geocode location_name = Located lat lon
    /\ chart_location_of c
       = {| loc_name := location_name; loc_latitude := lat;
            loc_longitude := lon |}
    /\ chart_time_of c
       = {| time_datetime := birth_datetime; time_timezone := tz;
            time_julian_day := jd |}
    /\ compute_julian_day julday birth_datetime tz = Ret jd
    /\ calculate_ascendant_and_houses houses jd lat lon "P" w
       = (Ret (chart_houses c), w')
    /\ calculate_planetary_positions calc_ut jd = Ret (chart_planets c)
    /\ keys (chart_planets c) = keys PLANETS
    /\ w' = set_topo lat lon 0 w.
Proof.
  unfold AstrologicalChart.calculate, LocationGeocoder.get_coordinates.
  destruct (geocode location_name) as [lat lon| | |e];
    unfold io_bind, io_ret, io_lift, io_print;
    try (intros H; discriminate H).
  destruct (compute_julian_day julday birth_datetime tz) as [jd|e];
    [|intros H; discriminate H].
  pose proof (calculate_ascendant_and_houses_world houses lat lon "P" jd w)
    as Hw.
  destruct (calculate_ascendant_and_houses houses jd lat lon "P" w)
    as [[hd|e] w1] eqn:Eh; [|intros H; discriminate H].
  cbn [snd] in Hw. subst w1.
  destruct (calculate_planetary_positions calc_ut jd) as [ps|e] eqn:Eps;
    [|intros H; discriminate H].
  intros H. inversion H; subst; clear H.
  exists lat, lon, jd. cbn [chart_location_of chart_time_of chart_houses
                            chart_planets].
  repeat split; try reflexivity; try exact Eps; try exact Eh.
  apply calculate_planetary_positions_ret in Eps as [Hps _].
  rewrite Hps. unfold keys. rewrite map_map. apply map_ext.
  intros [n code]. reflexivity.
Qed.

Lemma chart_calculate_some_witness :
  exists (c : chart) (lat lon jd : Q),
    AstrologicalChart.calculate (fun _ => Located (7 # 2) (9 # 2))
      julday_gregorian linear_calc_ut flat_houses
      "Utopia" window_start 0 {| topo := None; stdout := [] |}
    = (Ret (Some c), set_topo lat lon 0 {| topo := None; stdout := [] |})
    /\ keys (chart_planets c) = keys PLANETS.
Proof.
  destruct (AstrologicalChart.calculate (fun _ => Located (7 # 2) (9 # 2))
              julday_gregorian linear_calc_ut flat_houses
              "Utopia" window_start 0 {| topo := None; stdout := [] |})
    as [o w'] eqn:Hrun.
  assert (Ho : exists c, o = Ret (Some c)).
  { vm_compute in Hrun. inversion Hrun. eexists. reflexivity. }
  destruct Ho as (c & ->).
  destruct (chart_calculate_some _ _ _ _ _ _ _ _ _ _ Hrun)
    as (lat & lon & jd & _ & _ & _ & _ & _ & _ & Hkeys & Hw).
  exists c, lat, lon, jd. rewrite Hw. split; [reflexivity | exact Hkeys].
Defined.

(** ** [print_houses_for_positions] *)

Lemma get_zodiac_sign_returns (x : Q) :
  in_zodiac x -> exists sd : string * Q, get_zodiac_sign x = Ret sd.
Proof.
  intros [H0 H360]. unfold get_zodiac_sign.
  rewrite py_int_nonneg by (apply Qle_shift_div_l; lra).
  rewrite (seq_get_signs _ (sign_index_in_range x H0 H360)).
  eexists. reflexivity.
Qed.

Lemma printed_trans (w w1 w2 : world) (l1 l2 : list string) :
  printed w w1 l1 -> printed w1 w2 l2 -> printed w w2 (l1 ++ l2).
Proof.
  intros [Ht1 Hs1] [Ht2 Hs2]. split; [congruence|].
  rewrite Hs2, Hs1, app_assoc. reflexivity.
Qed.

Lemma print_position_line_ok (label : string) (x : Q) (w : world) :
  in_zodiac x ->
  exists line : string,
    print_position_line label x w = (Ret tt, print line w).
Proof.
  intros Hx. destruct (get_zodiac_sign_returns x Hx) as ([sign d] & Hsd).
  unfold print_position_line, io_bind, io_lift, io_print.
  rewrite Hsd. eexists. reflexivity.
Qed.

Lemma print_position_lines_ok (items : dict Q) :
  forall w : world,
    Forall (fun kv => in_zodiac (snd kv)) items ->
    exists (w' : world) (lines : list string),
      print_position_lines items w = (Ret tt, w')
      /\ printed w w' lines
      /\ List.length lines = List.length items.
Proof.
  induction items as [|[label x] rest IH]; intros w Hall.
  - exists w, []. repeat split. cbn. rewrite app_nil_r. reflexivity.
  - inversion Hall as [|kv l Hx Hrest]; subst. cbn [snd] in Hx.
    destruct (print_position_line_ok label x w Hx) as (line & Hline).
    destruct (IH (print line w) Hrest) as (w' & lines & Hrun & Hpr & Hlen).
    exists w', (line :: lines).
    cbn [print_position_lines]. unfold io_bind at 1. rewrite Hline, Hrun.
    split; [reflexivity|]. split; [|cbn; lia].
    apply (printed_trans w (print line w) w' [line] lines); [|exact Hpr].
    split; reflexivity.
Qed.

(** X21: printing records whose longitudes all lie in [0, 360) never
    raises, leaves the Provider's state alone, and makes
    [4 + cusps + angles] print calls per record: 20 for each record of the
    house pipeline. *)
Theorem print_houses_for_positions_lines (results : dict house_data) :
  forall w : world,
    Forall (fun kv => record_in_zodiac (snd kv)) results ->
    exists w' : world,
      print_houses_for_positions results w = (Ret tt, w')
      /\ topo w' = topo w
      /\ List.length (stdout w')
         = (List.length (stdout w)
            + list_sum (map (fun kv => lines_of_record (snd kv)) results))%nat.
Proof.
  induction results as [|[name data] rest IH]; intros w Hall.
  - exists w. cbn. repeat split. lia.
  - inversion Hall as [|kv l Hdata Hrest]; subst. cbn [snd] in Hdata.
    destruct Hdata as (Hasc & Hcusps & Hangles).
    cbn [print_houses_for_positions].
    unfold io_bind at 1. unfold io_print at 1.
    set (w1 := print _ w).
    destruct (print_position_line_ok "Ascendant" (ascendant data) w1 Hasc)
      as (line & Hline).
    unfold io_bind at 1. rewrite Hline.
    unfold io_bind at 1. unfold io_print at 1.
    set (w2 := print _ (print line w1)).
    destruct (print_position_lines_ok (house_cusps data) w2 Hcusps)
      as (w3 & l3 & Hrun3 & [Ht3 Hs3] & Hlen3).
    unfold io_bind at 1. rewrite Hrun3.
    unfold io_bind at 1. unfold io_print at 1.
    set (w4 := print _ w3).
    destruct (print_position_lines_ok (angles data) w4 Hangles)
      as (w5 & l5 & Hrun5 & [Ht5 Hs5] & Hlen5).
    unfold io_bind at 1. rewrite Hrun5.
    destruct (IH w5 Hrest) as (w' & Hrun & Htopo & Hlen).
    exists w'. split; [exact Hrun|]. split.
    + rewrite Htopo, Ht5. unfold w4. cbn [print topo]. rewrite Ht3.
      reflexivity.
    + cbn [map snd].
      change (list_sum (lines_of_record data
                        :: map (fun kv => lines_of_record (snd kv)) rest))
        with (lines_of_record data
              + list_sum (map (fun kv => lines_of_record (snd kv)) rest))%nat.
      set (total := list_sum (map (fun kv => lines_of_record (snd kv)) rest))
        in *.
      rewrite Hlen, Hs5. unfold w4. cbn [print stdout]. rewrite Hs3.
      unfold w2, w1. cbn [print stdout].
      unfold lines_of_record. rewrite !length_app. cbn [List.length].
      lia.
Qed.

Lemma print_houses_for_positions_lines_witness :
  exists w' : world,
    print_houses_for_positions
      [("natal"%string, flat_record_at 1)] {| topo := None; stdout := [] |}
    = (Ret tt, w')
    /\ List.length (stdout w') = 20%nat.
Proof.
  destruct (print_houses_for_positions_lines
              [("natal"%string, flat_record_at 1)]
              {| topo := None; stdout := [] |})
    as (w' & Hrun & _ & Hlen).
  - constructor; [|constructor]. cbn [snd].
    let r := eval vm_compute in (flat_record_at 1) in
    change (flat_record_at 1) with r.
    unfold record_in_zodiac, in_zodiac. cbn [ascendant house_cusps angles].
    repeat split; repeat (constructor; cbn [snd]);
      repeat split; unfold Qle, Qlt; cbn; lia.
  - exists w'. split; [exact Hrun | exact Hlen].
Defined.

(** ** [find_exact_aspect_time], further *)

Section SolverInversion.

Variable julday : Z -> Z -> Z -> Q -> outcome Q.
Variable calc_ut : Q -> Z -> outcome (Q * Q * Q * Q * Q * Q).
Variable natal_positions : dict position.
Variable end_time : datetime.
Variables planet1 planet2 : string.
Variable aspect : aspect_data.
Variable timezone : Q.

Local Abbreviation orb_ :=
  (orb_at julday calc_ut natal_positions planet1 planet2 aspect timezone).
Local Abbreviation fine :=
  (fine_loop julday calc_ut natal_positions planet1 planet2 aspect timezone).
Local Abbreviation phase :=
  (fine_phase julday calc_ut natal_positions planet1 planet2 aspect timezone).
Local Abbreviation coarse :=
  (coarse_loop julday calc_ut natal_positions end_time
               planet1 planet2 aspect timezone).

(** A fine loop that returns has probed every sample up to [fe] and stepped
    past each of them inside the datetime range. *)
Lemma fine_loop_probes (fe : datetime) (fuel : nat) :
  forall (cur : datetime) (bt res : option datetime) (bo : ext_float),
    fine fuel cur fe bt bo = Some (Ret res) ->
    forall i, 0 <= i -> cur + i * td_minutes 1 <= fe ->
              (exists q : Q, orb_ (cur + i * td_minutes 1) = Ret q)
              /\ cur + (i + 1) * td_minutes 1 < datetime_limit.
Proof.
  rewrite td_minutes_1.
  induction fuel as [|fuel IH]; intros cur bt res bo Hrun i Hi Hle;
    [discriminate Hrun|].
  cbn [fine_loop] in Hrun.
  destruct (cur <=? fe) eqn:Hcmp; [|apply Z.leb_gt in Hcmp; lia].
  destruct (orb_ cur) as [c|e] eqn:Horb; [|discriminate Hrun].
  destruct (dt_add cur (td_minutes 1)) as [next|e] eqn:Hadd;
    [|destruct (lt_ext c bo); discriminate Hrun].
  apply dt_add_ret in Hadd as [-> Hrange]. rewrite td_minutes_1 in *.
  destruct (Z.eq_dec i 0) as [-> | Hne].
  - rewrite Z.mul_0_l, Z.add_0_r. split; [eauto | lia].
  - replace (cur + i * 60000000)
      with (cur + 60000000 + (i - 1) * 60000000) by lia.
    replace (cur + (i + 1) * 60000000)
      with (cur + 60000000 + (i - 1 + 1) * 60000000) by lia.
    destruct (lt_ext c bo); eapply IH; try exact Hrun; lia.
Qed.

Lemma fine_phase_some (T r : datetime) :
  phase T = Some (Ret (Some r)) ->
  exists (i : Z) (o : Z -> Q),
    fine_window julday calc_ut natal_positions planet1 planet2 aspect
                timezone T o
    /\ first_argmin o 120 i
    /\ r = T - td_hours 1 + i * td_minutes 1.
Proof.
  intros Hrun.
  set (o := fun i : Z =>
              match orb_ (T - td_hours 1 + i * td_minutes 1) with
              | Ret q => q
              | Raise _ => 0%Q
              end).
  assert (Hwin : fine_window julday calc_ut natal_positions planet1 planet2
                             aspect timezone T o).
  { unfold fine_phase, dt_sub in Hrun.
    destruct (dt_add T (- td_hours 1)) as [fs|e] eqn:Hsub;
      [|discriminate Hrun].
    destruct (dt_add T (td_hours 1)) as [fe|e] eqn:Hadd;
      [|discriminate Hrun].
    apply dt_add_ret in Hsub as [-> Hs]. apply dt_add_ret in Hadd as [-> Ha].
    pose proof (fine_loop_probes _ _ _ _ _ _ Hrun) as Hprobes.
    rewrite Z.add_opp_r in *.
    unfold fine_window.
    split; [lia|]. split.
    - destruct (Hprobes 120) as [_ H];
        rewrite ?td_hours_1, ?td_minutes_1 in *; lia.
    - intros i Hi. unfold o.
      destruct (Hprobes i) as [(q & Hq) _];
        [lia | rewrite ?td_hours_1, ?td_minutes_1; lia |].
      rewrite Hq. reflexivity. }
  destruct Hwin as (Hlo & Hhi & Hprobes).
  destruct (fine_phase_first_argmin julday calc_ut natal_positions
              planet1 planet2 aspect timezone T o Hlo Hhi Hprobes)
    as (i0 & Hrun' & Hmin).
  exists i0, o. split; [repeat split; assumption|]. split; [exact Hmin|].
  rewrite Hrun in Hrun'. inversion Hrun'. reflexivity.
Qed.

Lemma coarse_loop_some (fuel : nat) :
  forall (cur r : datetime),
    coarse fuel cur = Some (Ret (Some r)) ->
    exists j : Z,
      0 <= j /\ cur + j * td_hours 1 <= end_time
      /\ (exists c : Q,
            orb_ (cur + j * td_hours 1) = Ret c /\ (c < 1 # 10)%Q)
      /\ phase (cur + j * td_hours 1) = Some (Ret (Some r)).
Proof.
  rewrite td_hours_1.
  induction fuel as [|fuel IH]; intros cur r Hrun; [discriminate Hrun|].
  cbn [coarse_loop] in Hrun.
  destruct (cur <=? end_time) eqn:Hcmp; [|discriminate Hrun].
  apply Z.leb_le in Hcmp.
  destruct (orb_ cur) as [c|e] eqn:Horb; [|discriminate Hrun].
  destruct (Qlt_bool c (1 # 10)) eqn:Hlt.
  - exists 0. rewrite Z.mul_0_l, Z.add_0_r.
    split; [lia|]. split; [exact Hcmp|]. split; [|exact Hrun].
    exists c. split; [exact Horb|]. apply Qlt_bool_iff. exact Hlt.
  - destruct (dt_add cur (td_hours 1)) as [next|e] eqn:Hadd;
      [|discriminate Hrun].
    apply dt_add_ret in Hadd as [-> _]. rewrite td_hours_1 in *.
    apply IH in Hrun as (j & Hj & Hle & Horb' & Hphase).
    exists (j + 1).
    replace (cur + (j + 1) * 3600000000)
      with (cur + 3600000000 + j * 3600000000) by lia.
    split; [lia|]. auto.
Qed.

(** While the samples stay at 0.1 degrees or more the coarse loop keeps
    stepping; if the step after the last sample leaves the datetime range,
    the loop raises. *)
Lemma coarse_loop_overflow (start : datetime) (n : Z) :
  0 <= start -> end_time < datetime_limit ->
  start + n * td_hours 1 <= end_time ->
  datetime_limit <= start + (n + 1) * td_hours 1 ->
  (forall j, 0 <= j <= n ->
             exists c : Q,
               orb_ (start + j * td_hours 1) = Ret c /\ (1 # 10 <= c)%Q) ->
  forall (r : nat) (j : Z) (fuel : nat),
    Z.of_nat r = n - j -> 0 <= j -> (r < fuel)%nat ->
    coarse fuel (start + j * td_hours 1) = Some (Raise OverflowError).
Proof.
  rewrite td_hours_1. intros Hstart Hend Hn Hover Hsamples.
  induction r as [|r IH]; intros j fuel Hr Hj Hfuel;
    (destruct fuel as [|fuel]; [lia|]); cbn [coarse_loop];
    (assert (Hcmp : (start + j * 3600000000 <=? end_time) = true)
       by (apply Z.leb_le; lia));
    destruct (Hsamples j) as (c & Horb & Hge); try lia;
    rewrite Hcmp, Horb;
    apply Qlt_bool_false_iff in Hge; rewrite Hge.
  - unfold dt_add. rewrite td_hours_1.
    assert (E : (start + j * 3600000000 + 3600000000 <? datetime_limit) = false)
      by (apply Z.ltb_ge; lia).
    rewrite E, andb_false_r. reflexivity.
  - rewrite td_hours_1, dt_add_in_range by lia.
    replace (start + j * 3600000000 + 3600000000)
      with (start + (j + 1) * 3600000000) by lia.
    apply IH; lia.
Qed.

End SolverInversion.

Section SolverEdges.

Variable julday : Z -> Z -> Z -> Q -> outcome Q.
Variable calc_ut : Q -> Z -> outcome (Q * Q * Q * Q * Q * Q).
Variable natal : dict position.
Variables start_time end_time : datetime.
Variables planet1 planet2 aspect_name : string.
Variable tz : Q.

Local Abbreviation solve :=
  (find_exact_aspect_time julday calc_ut natal start_time end_time
                          planet1 planet2 aspect_name tz).

(** X23: the two cases in which nothing is probed.  An aspect name outside
    the catalog raises [KeyError], whatever the window; with a catalog name
    and [end_time] before [start_time] the result is [None], whatever the
    Provider does and whether or not the planets exist. *)
Theorem find_exact_aspect_time_no_probe :
  (dict_find ASPECTS aspect_name = None -> solve = Some (Raise KeyError))
  /\ (forall data : aspect_data,
        dict_find ASPECTS aspect_name = Some data ->
        end_time < start_time -> solve = Some (Ret None)).
Proof.
  unfold find_exact_aspect_time, dict_get. split.
  - intros ->. reflexivity.
  - intros data -> Hlt. unfold loop_fuel. cbn [coarse_loop].
    apply Z.leb_gt in Hlt. rewrite Hlt. reflexivity.
Qed.

(** X24: what a returned timestamp is.  If the solver returns a timestamp
    [r], then [r] is a one-minute probe of the window around a coarse
    sample [T = start + k hours <= end_time] whose orb is below 0.1 degrees;
    every probe of that window was computed, [r] has the least orb among
    them, and the orb at [r] itself is below 0.1 degrees.  So [r] lies
    between [start_time - 1h] and [end_time + 1h], a whole number of minutes
    from [start_time]. *)
Theorem find_exact_aspect_time_result (aspect : aspect_data) (r : datetime) :
  dict_get ASPECTS aspect_name = Ret aspect ->
  solve = Some (Ret (Some r)) ->
  exists (k i : Z) (o : Z -> Q),
    0 <= k /\ start_time + k * td_hours 1 <= end_time
    /\ 0 <= i <= 120
    /\ r = start_time + k * td_hours 1 - td_hours 1 + i * td_minutes 1
    /\ fine_window julday calc_ut natal planet1 planet2 aspect tz
                   (start_time + k * td_hours 1) o
    /\ (forall i', 0 <= i' <= 120 -> (o i <= o i')%Q)
    /\ orb_at julday calc_ut natal planet1 planet2 aspect tz r = Ret (o i)
    /\ (o i < 1 # 10)%Q
    /\ start_time - td_hours 1 <= r <= end_time + td_hours 1
    /\ (r - start_time) mod td_minutes 1 = 0.
Proof.
  intros Hknown Hrun. unfold find_exact_aspect_time in Hrun.
  rewrite Hknown in Hrun.
  apply coarse_loop_some in Hrun as (k & Hk & Hle & (c & Hc & Hlt) & Hphase).
  apply fine_phase_some in Hphase
    as (i & o & Hwin & (Hi & Hmin & _) & Hr).
  exists k, i, o.
  pose proof Hwin as (_ & _ & Hprobes).
  assert (Ho60 : o 60 = c).
  { pose proof (Hprobes 60 ltac:(lia)) as H60.
    replace (start_time + k * td_hours 1 - td_hours 1 + 60 * td_minutes 1)
      with (start_time + k * td_hours 1) in H60
      by (rewrite td_hours_1, td_minutes_1; lia).
    rewrite Hc in H60. inversion H60. reflexivity. }
  split; [exact Hk|]. split; [exact Hle|]. split; [exact Hi|].
  split; [exact Hr|]. split; [exact Hwin|]. split; [exact Hmin|].
  split; [rewrite Hr; apply Hprobes; exact Hi|].
  split.
  - specialize (Hmin 60 ltac:(lia)). rewrite Ho60 in Hmin. lra.
  - rewrite Hr, td_hours_1, td_minutes_1 in *. split; [lia|].
    replace (start_time + k * 3600000000 - 3600000000 + i * 60000000
             - start_time)
      with ((k * 60 - 60 + i) * 60000000) by lia.
    apply Z.mod_mul. lia.
Qed.

(** X25: a body that is missing raises [KeyError] at the first probe.
    With a catalog aspect, a non-empty window and a Provider that answers
    at [start_time], the solver raises [KeyError] when [planet1] is not a
    key of the natal positions or [planet2] is not one of the ten bodies of
    [PLANETS]. *)
Theorem find_exact_aspect_time_missing_body
    (aspect : aspect_data) (jd : Q) (transit : dict position) :
  dict_get ASPECTS aspect_name = Ret aspect ->
  start_time <= end_time ->
  compute_julian_day julday start_time tz = Ret jd ->
  calculate_planetary_positions calc_ut jd = Ret transit ->
  dict_find natal planet1 = None \/ ~ In planet2 (keys PLANETS) ->
  solve = Some (Raise KeyError).
Proof.
  intros Hknown Hle Hjd Htransit Hmissing.
  unfold find_exact_aspect_time. rewrite Hknown.
  unfold loop_fuel. cbn [coarse_loop].
  apply Z.leb_le in Hle. rewrite Hle.
  unfold orb_at. rewrite Hjd. cbn [bind]. rewrite Htransit. cbn [bind].
  unfold dict_get at 1.
  destruct (dict_find natal planet1) as [p1|] eqn:E1; [|reflexivity].
  cbn [bind]. destruct Hmissing as [H | H]; [discriminate H|].
  apply calculate_planetary_positions_ret in Htransit as [Hps _].
  assert (Hkeys : keys transit = keys PLANETS).
  { rewrite Hps. unfold keys. rewrite map_map. apply map_ext.
    intros [n c]. reflexivity. }
  unfold dict_get. rewrite dict_find_not_in by (rewrite Hkeys; exact H).
  reflexivity.
Qed.

(** X26: a trigger within an hour of the first representable datetime
    raises [OverflowError]: the window start [T - 1h] cannot be built. *)
Theorem find_exact_aspect_time_underflow (aspect : aspect_data) (k : Z) :
  dict_get ASPECTS aspect_name = Ret aspect ->
  first_trigger julday calc_ut natal start_time end_time
                planet1 planet2 aspect tz k ->
  start_time + k * td_hours 1 - td_hours 1 < 0 ->
  solve = Some (Raise OverflowError).
Proof.
  intros Hknown Htrig Hunder.
  rewrite (solve_enters_fine_phase julday calc_ut natal start_time end_time
             planet1 planet2 aspect_name tz aspect Hknown k Htrig).
  apply fine_phase_underflow. exact Hunder.
Qed.

(** X27: a window that runs to the end of the datetime range raises
    instead of returning [None].  If every coarse sample has an orb of at
    least 0.1 degrees and the hour after the last sample is past
    9999-12-31T23:59:59.999999, the solver raises [OverflowError]. *)
Theorem find_exact_aspect_time_overflow (aspect : aspect_data) (n : Z) :
  dict_get ASPECTS aspect_name = Ret aspect ->
  valid_datetime start_time -> valid_datetime end_time ->
  0 <= n -> start_time + n * td_hours 1 <= end_time ->
  datetime_limit <= start_time + (n + 1) * td_hours 1 ->
  (forall j, 0 <= j <= n ->
             exists c : Q,
               orb_at julday calc_ut natal planet1 planet2 aspect tz
                      (start_time + j * td_hours 1) = Ret c
               /\ (1 # 10 <= c)%Q) ->
  solve = Some (Raise OverflowError).
Proof.
  intros Hknown [Hs0 Hs1] [He0 He1] Hn Hlast Hover Hsamples.
  unfold find_exact_aspect_time. rewrite Hknown.
  replace start_time with (start_time + 0 * td_hours 1) at 2 by lia.
  apply (coarse_loop_overflow julday calc_ut natal end_time planet1 planet2
           aspect tz start_time n) with (r := Z.to_nat n);
    try assumption; try lia.
  unfold loop_fuel. rewrite td_hours_1 in *.
  assert (n <= (end_time - start_time) / 3600000000)
    by (apply Z.div_le_lower_bound; lia).
  lia.
Qed.

End SolverEdges.

Lemma find_exact_aspect_time_no_probe_witness :
  find_exact_aspect_time (fun _ _ _ _ => Raise EphemerisError)
    (fun _ _ => Raise EphemerisError) [] window_end window_start
    "Vulcan" "Nibiru" "trine" 0
  = Some (Ret None).
Proof.
  apply (find_exact_aspect_time_no_probe
           (fun _ _ _ _ => Raise EphemerisError)
           (fun _ _ => Raise EphemerisError) [] window_end window_start
           "Vulcan" "Nibiru" "trine" 0)
    with (data := {| angle := 120; orb := 8 |}).
  - reflexivity.
  - unfold window_start, window_end. lia.
Defined.

Lemma find_exact_aspect_time_result_witness :
  exists (k i : Z),
    mk_datetime 2000 1 1 2 2 0 0
    = window_start + k * td_hours 1 - td_hours 1 + i * td_minutes 1
    /\ 0 <= k /\ 0 <= i <= 120.
Proof.
  destruct (find_exact_aspect_time_result
              julday_gregorian linear_calc_ut natal_met
              window_start window_end "Sun" "Moon" "conjunction" 0
              conjunction (mk_datetime 2000 1 1 2 2 0 0))
    as (k & i & o & Hk & _ & Hi & Hr & _).
  - reflexivity.
  - vm_compute. reflexivity.
  - exists k, i. auto.
Defined.

Lemma find_exact_aspect_time_missing_body_witness :
  find_exact_aspect_time julday_gregorian linear_calc_ut natal_met
    window_start window_end "Sun" "Chiron" "conjunction" 0
  = Some (Raise KeyError).
Proof.
  eapply (find_exact_aspect_time_missing_body
            julday_gregorian linear_calc_ut natal_met
            window_start window_end "Sun" "Chiron" "conjunction" 0
            conjunction).
  - reflexivity.
  - unfold window_start, window_end. lia.
  - reflexivity.
  - reflexivity.
  - right. unfold keys, PLANETS. cbn [map fst In].
    intros H. repeat (destruct H as [H | H]; [discriminate H|]). exact H.
Defined.

(** ** Further worked examples *)

Lemma find_aspects_swap_witness :
  In {| m_planet1 := "Moon"; m_planet2 := "Sun"; m_aspect := "square";
        m_orb := 0; m_exact_angle := 90;
        m_planet1_retrograde := true; m_planet2_retrograde := false |}%string
     (find_aspects transit_sun_moon natal_sun_10 None).
Proof.
  apply (proj1 (find_aspects_swap natal_sun_10 transit_sun_moon None
                  {| m_planet1 := "Sun"; m_planet2 := "Moon";
                     m_aspect := "square";
                     m_orb := 0; m_exact_angle := 90;
                     m_planet1_retrograde := false;
                     m_planet2_retrograde := true |}%string)).
  vm_compute. right. left. reflexivity.
Defined.

Lemma calculate_planetary_positions_first_failure_witness :
  calculate_planetary_positions
    (fun jd body => if body =? swe_MARS then Raise EphemerisError
                    else if body =? swe_SATURN then Raise KeyError
                    else linear_calc_ut jd body) 0
  = Raise EphemerisError.
Proof.
  apply (proj2 (calculate_planetary_positions_first_failure
                  (fun jd body =>
                     if body =? swe_MARS then Raise EphemerisError
                     else if body =? swe_SATURN then Raise KeyError
                     else linear_calc_ut jd body) 0 EphemerisError)).
  exists (firstn 4 PLANETS), "Mars"%string, swe_MARS, (skipn 5 PLANETS).
  split; [reflexivity|]. split; [|reflexivity].
  intros n c Hin. cbn in Hin.
  repeat (destruct Hin as [Hin | Hin];
          [inversion Hin; subst; eexists; reflexivity|]).
  contradiction.
Defined.

Lemma chart_calculate_none_witness :
  AstrologicalChart.calculate (fun _ => NoLocation)
    julday_gregorian linear_calc_ut flat_houses
    "Atlantis" window_start 0 {| topo := None; stdout := [] |}
  = (Ret None,
     {| topo := None; stdout := ["Location 'Atlantis' not found"]%string |}).
Proof.
  apply (proj2 (chart_calculate_none (fun _ => NoLocation)
                  julday_gregorian linear_calc_ut flat_houses
                  "Atlantis" window_start 0 _ _)).
  left. split; reflexivity.
Defined.

Lemma find_exact_aspect_time_underflow_witness :
  find_exact_aspect_time julday_gregorian still_calc_ut natal_origin
    (mk_datetime 1 1 1 0 30 0 0) (mk_datetime 1 1 1 6 0 0 0)
    "Sun" "Moon" "conjunction" 0
  = Some (Raise OverflowError).
Proof.
  apply (find_exact_aspect_time_underflow
           julday_gregorian still_calc_ut natal_origin
           (mk_datetime 1 1 1 0 30 0 0) (mk_datetime 1 1 1 6 0 0 0)
           "Sun" "Moon" "conjunction" 0 conjunction 0).
  - reflexivity.
  - unfold first_trigger, valid_datetime.
    change (mk_datetime 1 1 1 0 30 0 0) with 1800000000.
    change (mk_datetime 1 1 1 6 0 0 0) with 21600000000.
    rewrite datetime_limit_eq, td_hours_1.
    repeat (split; [lia|]).
    exists (1 # 20)%Q. split; vm_compute; reflexivity.
  - change (mk_datetime 1 1 1 0 30 0 0) with 1800000000.
    rewrite td_hours_1. lia.
Defined.

Lemma find_exact_aspect_time_overflow_witness :
  find_exact_aspect_time julday_gregorian linear_calc_ut natal_missed
    (mk_datetime 9999 12 31 23 30 0 0) (mk_datetime 9999 12 31 23 45 0 0)
    "Sun" "Moon" "conjunction" 0
  = Some (Raise OverflowError).
Proof.
  apply (find_exact_aspect_time_overflow
           julday_gregorian linear_calc_ut natal_missed
           (mk_datetime 9999 12 31 23 30 0 0)
           (mk_datetime 9999 12 31 23 45 0 0)
           "Sun" "Moon" "conjunction" 0 conjunction 0).
  - reflexivity.
  - unfold valid_datetime. rewrite datetime_limit_eq.
    change (mk_datetime 9999 12 31 23 30 0 0) with 315537895800000000. lia.
  - unfold valid_datetime. rewrite datetime_limit_eq.
    change (mk_datetime 9999 12 31 23 45 0 0) with 315537896700000000. lia.
  - lia.
  - change (mk_datetime 9999 12 31 23 30 0 0) with 315537895800000000.
    change (mk_datetime 9999 12 31 23 45 0 0) with 315537896700000000.
    rewrite td_hours_1. lia.
  - change (mk_datetime 9999 12 31 23 30 0 0) with 315537895800000000.
    rewrite datetime_limit_eq, td_hours_1. lia.
  - intros j Hj. replace j with 0 by lia.
    exists (example_orb natal_missed (mk_datetime 9999 12 31 23 30 0 0)).
    split; [vm_compute; reflexivity | vm_compute; discriminate].
Defined.
